(** * A boundary-tag allocator: shallow embedding of [malloc.c]

    The heap is a break-delimited array of 8-byte words.  Every header,
    footer and free-list link of [malloc.c] is one such word, so memory is
    a finite map from word addresses to 64-bit values, guarded by the
    current program break.  The C functions are transcribed statement by
    statement into a state-and-failure monad: a computation has no result
    when it touches memory outside the break (or off a word boundary), or
    when a loop exhausts its fuel.  Calls are taken one at a time: the
    mutex that [malloc], [free] and [realloc] hold around their bodies is
    left out. *)

From stdpp Require Import base gmap list.
From Stdlib Require Import ZArith Lia.

Local Open Scope Z_scope.

(** ** 64-bit words: [size_t] and pointers *)

Module Word.

Definition modulus : Z := 2 ^ 64.
Definition SIZE_MAX : Z := modulus - 1.

Definition wrap (z : Z) : Z := z mod modulus.

Definition add (a b : Z) : Z := wrap (a + b).
Definition sub (a b : Z) : Z := wrap (a - b).
Definition mul (a b : Z) : Z := wrap (a * b).
Definition shl (a n : Z) : Z := wrap (Z.shiftl a n).
Definition shr (a n : Z) : Z := Z.shiftr a n.
(* [~x] on an [int], converted to [size_t] *)
Definition not (a : Z) : Z := wrap (Z.lnot a).

End Word.

(** ** Constants and macros of [malloc.c] *)

Definition SIZE_T_SIZE : Z := 8.
Definition CHAR_BIT : Z := 8.
Definition NODE_SIZE : Z := 24.          (* sizeof(struct fnode) *)
Definition FENCE_SIZE : Z := 8.          (* sizeof(struct fence) *)
Definition NODE_OVERHEAD : Z := NODE_SIZE + FENCE_SIZE.
Definition FENCE_OVERHEAD : Z := 2 * FENCE_SIZE.
Definition DIFF_OVERHEAD : Z := NODE_SIZE - FENCE_SIZE.
Definition ALIGN_SIZE : Z := 2 * SIZE_T_SIZE.
Definition ENOMEM : Z := 12.
Definition NULL : Z := 0.

(* field offsets of [struct fnode] *)
Definition OFF_SIZE : Z := 0.
Definition OFF_PREV : Z := 8.
Definition OFF_NEXT : Z := 16.

Definition SET_USED (x : Z) : Z := Z.lor x 1.
Definition SET_FREE (x : Z) : Z := Z.land x (Word.not 1).
Definition ISUSED (x : Z) : Z := Z.land x 1.
Definition GETSIZE (x : Z) : Z := Word.shl (Word.shr x 1) 1.

Definition MAX (x y : Z) : Z := if y <? x then x else y.
Definition MIN (x y : Z) : Z := if x <? y then x else y.
Definition ROUNDUP_8 (x : Z) : Z :=
  Word.shl (Word.add (Word.shr (Word.sub x 1) 3) 1) 3.
Definition ROUNDUP_16 (x : Z) : Z :=
  Word.shl (Word.add (Word.shr (Word.sub x 1) 4) 1) 4.
Definition ROUNDUP_PAGE (page_size x : Z) : Z :=
  Word.mul (Word.add (Word.sub x 1 / page_size) 1) page_size.
Definition ROUNDUP_CHUNK (x : Z) : Z :=
  ROUNDUP_16 (Word.add (MAX x DIFF_OVERHEAD) FENCE_OVERHEAD).

(* [(fence_t)(x) - 1] *)
Definition FENCE_BACKWARD (x : Z) : Z := Word.sub x FENCE_SIZE.

(** ** Program state *)

Record state := mkState {
  (* the globals of malloc.c *)
  PAGE_SIZE : Z;
  flist : Z;
  HEAP_START : Z;
  (* the C library's error indicator *)
  errno : Z;
  (* the operating system: page size, initial / current / highest break *)
  os_pagesize : Z;
  brk_lo : Z;
  brk : Z;
  brk_max : Z;
  (* the words between [brk_lo] and [brk]; absent keys read as zero *)
  mem : gmap Z Z
}.

Definition set_PAGE_SIZE (v : Z) (s : state) : state :=
  mkState v (flist s) (HEAP_START s) (errno s)
          (os_pagesize s) (brk_lo s) (brk s) (brk_max s) (mem s).
Definition set_flist (v : Z) (s : state) : state :=
  mkState (PAGE_SIZE s) v (HEAP_START s) (errno s)
          (os_pagesize s) (brk_lo s) (brk s) (brk_max s) (mem s).
Definition set_HEAP_START (v : Z) (s : state) : state :=
  mkState (PAGE_SIZE s) (flist s) v (errno s)
          (os_pagesize s) (brk_lo s) (brk s) (brk_max s) (mem s).
Definition set_errno (v : Z) (s : state) : state :=
  mkState (PAGE_SIZE s) (flist s) (HEAP_START s) v
          (os_pagesize s) (brk_lo s) (brk s) (brk_max s) (mem s).
Definition set_brk (v : Z) (s : state) : state :=
  mkState (PAGE_SIZE s) (flist s) (HEAP_START s) (errno s)
          (os_pagesize s) (brk_lo s) v (brk_max s) (mem s).
Definition set_mem (m : gmap Z Z) (s : state) : state :=
  mkState (PAGE_SIZE s) (flist s) (HEAP_START s) (errno s)
          (os_pagesize s) (brk_lo s) (brk s) (brk_max s) m.

(* static storage is zero-initialised; the process owns no heap yet *)
Definition initial (pagesize lo hi : Z) : state :=
  mkState 0 NULL NULL 0 pagesize lo lo hi ∅.

(** ** The monad of C computations *)

Definition M (A : Type) : Type := state -> option (A * state).

Definition ret {A} (a : A) : M A := fun s => Some (a, s).
Definition fail {A} : M A := fun _ => None.
Definition bind {A B} (m : M A) (k : A -> M B) : M B :=
  fun s => match m s with
           | Some (a, s') => k a s'
           | None => None
           end.

Declare Scope cmd_scope.
Delimit Scope cmd_scope with cmd.
Notation "x <- m ;; k" := (bind m (fun x => k))
  (at level 20, m at level 99, k at level 200, only parsing) : cmd_scope.
Notation "' pat <- m ;; k" := (bind m (fun pat => k))
  (at level 20, pat pattern, m at level 99, k at level 200, only parsing)
  : cmd_scope.
Notation "m ;; k" := (bind m (fun _ => k))
  (at level 100, k at level 200, only parsing, right associativity)
  : cmd_scope.
Local Open Scope cmd_scope.

Definition get {A} (f : state -> A) : M A := fun s => Some (f s, s).
Definition modify (f : state -> state) : M unit := fun s => Some (tt, f s).

(* an address can be dereferenced when a whole word at it lies below
   the break, on a word boundary *)
Definition mapped (s : state) (a : Z) : bool :=
  (brk_lo s <=? a) && (a + 8 <=? brk s) && (a mod 8 =? 0).

Definition load (a : Z) : M Z := fun s =>
  if mapped s a then Some (default 0 (mem s !! a), s) else None.
Definition store (a v : Z) : M unit := fun s =>
  if mapped s a then Some (tt, set_mem (<[a := v]> (mem s)) s) else None.

(* [p->size], [p->prev], [p->next] *)
Definition fld (p off : Z) : Z := Word.add p off.

(** Modelled from the spec: [get_memory] of memreq.c, which is not part
    of the sources at hand.  It extends the process break by [n] bytes
    and returns the previous break, or null when the kernel refuses. *)
Definition get_memory (n : Z) : M Z := fun s =>
  if brk s + n <=? brk_max s
  then Some (brk s, set_brk (brk s + n) s)
  else Some (NULL, s).

(* [sysconf(_SC_PAGESIZE)] *)
Definition sysconf_pagesize : M Z := get os_pagesize.

(** ** The helpers of malloc.c *)

Fixpoint malloc_find_fit (fuel : nat) (target size : Z) : M Z :=
  match fuel with
  | O => fail
  | S fuel' =>
      if target =? NULL then ret target
      else
        sz <- load (fld target OFF_SIZE) ;;
        if size <=? sz then ret target
        else
          nxt <- load (fld target OFF_NEXT) ;;
          malloc_find_fit fuel' nxt size
  end.

Definition malloc_fnode_assign_free (start size : Z) : M Z :=
  let node := start in
  let end_ := FENCE_BACKWARD (Word.add start size) in
  store (fld node OFF_SIZE) size ;;
  v <- load (fld node OFF_SIZE) ;;
  store (fld node OFF_SIZE) (SET_FREE v) ;;
  v <- load (fld node OFF_SIZE) ;;
  store (fld end_ OFF_SIZE) v ;;
  store (fld node OFF_PREV) NULL ;;
  store (fld node OFF_NEXT) NULL ;;
  ret node.

Definition malloc_fnode_assign_used (start size : Z) : M unit :=
  let node := start in
  let end_ := FENCE_BACKWARD (Word.add start size) in
  store (fld node OFF_SIZE) size ;;
  v <- load (fld node OFF_SIZE) ;;
  store (fld node OFF_SIZE) (SET_USED v) ;;
  v <- load (fld node OFF_SIZE) ;;
  store (fld end_ OFF_SIZE) v ;;
  store (fld node OFF_PREV) NULL ;;
  store (fld node OFF_NEXT) NULL.

Definition malloc_expand (size : Z) : M Z :=
  ps <- get PAGE_SIZE ;;
  '(init, size) <-
     (if ps =? 0 then
        v <- sysconf_pagesize ;;
        modify (set_PAGE_SIZE v) ;;
        ps <- get PAGE_SIZE ;;
        ret (true, ROUNDUP_PAGE ps (Word.add size FENCE_OVERHEAD))
      else
        ret (false, ROUNDUP_PAGE ps size)) ;;
  start <- get_memory size ;;
  if start =? NULL then ret NULL
  else if init then
    store start 1 ;;
    store (FENCE_BACKWARD (Word.add start size)) 1 ;;
    let start := Word.add start FENCE_SIZE in
    let size := Word.sub size FENCE_OVERHEAD in
    modify (set_HEAP_START start) ;;
    malloc_fnode_assign_free start size
  else
    store (FENCE_BACKWARD (Word.add start size)) 1 ;;
    let start := Word.sub start FENCE_SIZE in
    malloc_fnode_assign_free start size.

(* the [while] of malloc_list_addr_insert; yields the final [front] *)
Fixpoint addr_insert_walk (fuel : nat) (front item : Z) : M Z :=
  match fuel with
  | O => fail
  | S fuel' =>
      nxt <- load (fld front OFF_NEXT) ;;
      if negb (nxt =? NULL) && (nxt <? item)
      then addr_insert_walk fuel' nxt item
      else ret front
  end.

(* [list] is always [&flist] *)
Definition malloc_list_addr_insert (fuel : nat) (item : Z) : M unit :=
  front <- get flist ;;
  (if (front =? NULL) || (item <? front) then
     store (fld item OFF_PREV) NULL ;;
     head <- get flist ;;
     store (fld item OFF_NEXT) head ;;
     modify (set_flist item)
   else
     front <- addr_insert_walk fuel front item ;;
     store (fld item OFF_PREV) front ;;
     nxt <- load (fld front OFF_NEXT) ;;
     store (fld item OFF_NEXT) nxt) ;;
  p <- load (fld item OFF_PREV) ;;
  (if negb (p =? NULL) then store (fld p OFF_NEXT) item else ret tt) ;;
  n <- load (fld item OFF_NEXT) ;;
  (if negb (n =? NULL) then store (fld n OFF_PREV) item else ret tt).

(* the [while] of malloc_list_remove; yields the final [front] *)
Fixpoint remove_walk (fuel : nat) (front node : Z) : M Z :=
  match fuel with
  | O => fail
  | S fuel' =>
      nxt <- load (fld front OFF_NEXT) ;;
      if negb (nxt =? node)
      then remove_walk fuel' nxt node
      else ret front
  end.

Definition malloc_list_remove (fuel : nat) (node : Z) : M unit :=
  front <- get flist ;;
  if front =? node then
    nxt <- load (fld node OFF_NEXT) ;;
    modify (set_flist nxt) ;;
    if negb (nxt =? NULL) then
      head <- get flist ;;
      store (fld head OFF_PREV) NULL
    else ret tt
  else
    front <- remove_walk fuel front node ;;
    nxt <- load (fld node OFF_NEXT) ;;
    store (fld front OFF_NEXT) nxt ;;
    if negb (nxt =? NULL) then
      fn <- load (fld front OFF_NEXT) ;;
      store (fld fn OFF_PREV) front
    else ret tt.

Definition malloc_fnode_split (fuel : nat) (node size : Z) : M Z :=
  let start := node in
  let split := Word.add node size in
  ns <- load (fld node OFF_SIZE) ;;
  let split_size := Word.sub ns size in
  (if NODE_OVERHEAD <=? split_size then
     node_new <- malloc_fnode_assign_free split split_size ;;
     p <- load (fld node OFF_PREV) ;;
     store (fld node_new OFF_PREV) p ;;
     (if negb (p =? NULL) then
        q <- load (fld node_new OFF_PREV) ;;
        store (fld q OFF_NEXT) node_new
      else ret tt) ;;
     n <- load (fld node OFF_NEXT) ;;
     store (fld node_new OFF_NEXT) n ;;
     (if negb (n =? NULL) then
        q <- load (fld node_new OFF_NEXT) ;;
        store (fld q OFF_PREV) node_new
      else ret tt) ;;
     head <- get flist ;;
     if head =? node then modify (set_flist node_new) else ret tt
   else
     (* the assignment [size = node->size] that follows in the source
        writes a local that is never read again *)
     malloc_list_remove fuel node) ;;
  ns <- load (fld node OFF_SIZE) ;;
  malloc_fnode_assign_used start ns ;;
  ret (Word.add start FENCE_SIZE).

Definition malloc_fnode_release (fuel : nat) (target : Z) : M unit :=
  v <- load (fld target OFF_SIZE) ;;
  store (fld target OFF_SIZE) (SET_FREE v) ;;
  v <- load (fld target OFF_SIZE) ;;
  _ <- malloc_fnode_assign_free target v ;;
  malloc_list_addr_insert fuel target.
  (* the two fusion calls are commented out in the source *)

(* Defined in the source, called from nowhere. *)
Definition malloc_fnode_fuse_up (fuel : nat) (node : Z) : M Z :=
  let prev_backfence := FENCE_BACKWARD node in
  pb <- load prev_backfence ;;
  if negb (ISUSED pb =? 0) then
    malloc_list_addr_insert fuel node ;;
    ret node
  else
    pb <- load prev_backfence ;;
    let prev_node := Word.sub node pb in
    ns <- load (fld node OFF_SIZE) ;;
    let curr_backfence := FENCE_BACKWARD (Word.add node ns) in
    ps <- load (fld prev_node OFF_SIZE) ;;
    ns <- load (fld node OFF_SIZE) ;;
    store (fld prev_node OFF_SIZE) (Word.add ps ns) ;;
    ps <- load (fld prev_node OFF_SIZE) ;;
    store curr_backfence ps ;;
    ret prev_node.

Definition malloc_fnode_fuse_down (node : Z) : M Z :=
  ns <- load (fld node OFF_SIZE) ;;
  let curr_backfence := FENCE_BACKWARD (Word.add node ns) in
  let next_node := Word.add curr_backfence FENCE_SIZE in
  xs <- load (fld next_node OFF_SIZE) ;;
  if negb (ISUSED xs =? 0) then ret node
  else
    xs <- load (fld next_node OFF_SIZE) ;;
    let next_backfence := FENCE_BACKWARD (Word.add next_node xs) in
    ns <- load (fld node OFF_SIZE) ;;
    xs <- load (fld next_node OFF_SIZE) ;;
    store (fld node OFF_SIZE) (Word.add ns xs) ;;
    ns <- load (fld node OFF_SIZE) ;;
    store next_backfence ns ;;
    xn <- load (fld next_node OFF_NEXT) ;;
    store (fld node OFF_NEXT) xn ;;
    (if negb (xn =? NULL) then
       q <- load (fld node OFF_NEXT) ;;
       store (fld q OFF_PREV) node
     else ret tt) ;;
    store (fld next_node OFF_PREV) NULL ;;
    store (fld next_node OFF_NEXT) NULL ;;
    ret node.

(** ** The public entry points *)

Definition malloc (fuel : nat) (size : Z) : M Z :=
  let size := ROUNDUP_CHUNK size in
  head <- get flist ;;
  fit <- malloc_find_fit fuel head size ;;
  if fit =? NULL then
    fit <- malloc_expand size ;;
    if negb (fit =? NULL) then
      malloc_list_addr_insert fuel fit ;;
      malloc_fnode_split fuel fit size
    else
      modify (set_errno ENOMEM) ;;
      ret NULL
  else
    malloc_fnode_split fuel fit size.

Definition free (fuel : nat) (ptr : Z) : M unit :=
  if negb (ptr =? NULL)
  then malloc_fnode_release fuel (FENCE_BACKWARD ptr)
  else ret tt.

Fixpoint highest_loop (fuel : nat) (inp num_bits : Z) : option Z :=
  match fuel with
  | O => None
  | S fuel' =>
      if negb (inp =? 0)
      then highest_loop fuel' (Word.shr inp 1) (Word.add num_bits 1)
      else Some num_bits
  end.

Definition highest (fuel : nat) (inp : Z) : M Z := fun s =>
  match highest_loop fuel inp 0 with
  | Some n => Some (n, s)
  | None => None
  end.

(* [while (target != end) *(target++) = 0;] *)
Fixpoint calloc_loop (fuel : nat) (target end_ : Z) : M unit :=
  match fuel with
  | O => fail
  | S fuel' =>
      if negb (target =? end_) then
        store target 0 ;;
        calloc_loop fuel' (Word.add target SIZE_T_SIZE) end_
      else ret tt
  end.

Definition calloc (fuel : nat) (number size : Z) : M Z :=
  hn <- highest fuel number ;;
  hs <- highest fuel size ;;
  if SIZE_T_SIZE * CHAR_BIT <? Word.add hn hs then
    modify (set_errno ENOMEM) ;;
    ret NULL
  else
    let number_size := Word.mul number size in
    r <- malloc fuel number_size ;;
    (if negb (r =? NULL) then
       let target := r in
       let end_ := Word.add target (Word.mul (number_size / SIZE_T_SIZE) SIZE_T_SIZE) in
       calloc_loop fuel target end_
     else ret tt) ;;
    ret r.

(* [while (target != end) *(target++) = *(source++);] *)
Fixpoint realloc_loop (fuel : nat) (source target end_ : Z) : M unit :=
  match fuel with
  | O => fail
  | S fuel' =>
      if negb (target =? end_) then
        v <- load source ;;
        store target v ;;
        realloc_loop fuel' (Word.add source SIZE_T_SIZE)
                     (Word.add target SIZE_T_SIZE) end_
      else ret tt
  end.

Definition realloc (fuel : nat) (ptr size : Z) : M Z :=
  if ptr =? NULL then malloc fuel size
  else if size =? 0 then
    free fuel ptr ;;
    ret ptr
  else
    h <- load (FENCE_BACKWARD ptr) ;;
    let old_size := Word.sub (GETSIZE h) FENCE_OVERHEAD in
    if size <=? old_size then ret ptr
    else
      r <- malloc fuel size ;;
      (if negb (r =? NULL) then
         let source := ptr in
         let target := r in
         let end_ := Word.add target (Word.mul (size / SIZE_T_SIZE) SIZE_T_SIZE) in
         realloc_loop fuel source target end_ ;;
         free fuel ptr
       else ret tt) ;;
      ret r.

(** ** Observing a heap *)

Definition result_of {A} (m : M A) (s : state) : option A :=
  match m s with Some (a, _) => Some a | None => None end.

Definition state_after {A} (m : M A) (s : state) : state :=
  match m s with Some (_, s') => s' | None => s end.

(* one byte of memory; words are stored least significant byte first *)
Definition load_byte (a : Z) : M Z :=
  w <- load (a - a mod 8) ;;
  ret (Z.land (Z.shiftr w (8 * (a mod 8))) 255).

(* [load_byte] at [p], [p+1], ..., [p+n-1] *)
Fixpoint load_bytes (n : nat) (p : Z) : M (list Z) :=
  match n with
  | O => ret []
  | S n' =>
      b <- load_byte p ;;
      bs <- load_bytes n' (p + 1) ;;
      ret (b :: bs)
  end.

(* Forward fence traversal: from a chunk start, read the header, step
   over the chunk, stop at a sentinel (a fence holding 1).  Yields the
   chunk starts with their header words. *)
Fixpoint chunk_walk (fuel : nat) (a : Z) : M (list (Z * Z)) :=
  match fuel with
  | O => fail
  | S fuel' =>
      h <- load a ;;
      if h =? 1 then ret []
      else
        rest <- chunk_walk fuel' (Word.add a (GETSIZE h)) ;;
        ret ((a, h) :: rest)
  end.

Definition heap_chunks (fuel : nat) : M (list (Z * Z)) :=
  h <- get HEAP_START ;;
  chunk_walk fuel h.

(* the footer word of the chunk that starts at [a] with header [h] *)
Definition footer_of (a h : Z) : M Z :=
  load (FENCE_BACKWARD (Word.add a (GETSIZE h))).

(* chunk start, header word, footer word *)
Fixpoint with_footers (cs : list (Z * Z)) : M (list (Z * Z * Z)) :=
  match cs with
  | [] => ret []
  | (a, h) :: cs' =>
      f <- footer_of a h ;;
      rest <- with_footers cs' ;;
      ret ((a, h, f) :: rest)
  end.

Definition heap_fences (fuel : nat) : M (list (Z * Z * Z)) :=
  cs <- heap_chunks fuel ;;
  with_footers cs.

(* header and footer hold the same word: same size, same used bit *)
Definition fences_agree (fs : list (Z * Z * Z)) : bool :=
  forallb (fun '(_, h, f) => h =? f) fs.

Definition is_free (h : Z) : bool := ISUSED h =? 0.

(* no two neighbours in the traversal are both free *)
Fixpoint coalesced (cs : list (Z * Z)) : bool :=
  match cs with
  | (_, h) :: ((_, h') :: _) as rest =>
      negb (is_free h && is_free h') && coalesced rest
  | _ => true
  end.

(* the free list, head first, following [next] to the null link *)
Fixpoint flist_walk (fuel : nat) (a : Z) : M (list Z) :=
  match fuel with
  | O => fail
  | S fuel' =>
      if a =? NULL then ret []
      else
        n <- load (fld a OFF_NEXT) ;;
        rest <- flist_walk fuel' n ;;
        ret (a :: rest)
  end.

Definition free_list (fuel : nat) : M (list Z) :=
  h <- get flist ;;
  flist_walk fuel h.

(** ** Well-formedness conditions used in the statements *)

(* the kernel's view is sane: a non-null heap base, the break between
   the base and the limit, every address a 64-bit value *)
Definition os_ok (s : state) : Prop :=
  0 < brk_lo s /\ brk_lo s <= brk s /\ brk s <= brk_max s /\
  brk_max s < Word.modulus.

(* two states with the same heap: same words, same free list, same
   break; only the cached page size and errno may differ *)
Definition same_heap (s s' : state) : Prop :=
  mem s' = mem s /\ flist s' = flist s /\ HEAP_START s' = HEAP_START s /\
  brk_lo s' = brk_lo s /\ brk s' = brk s /\ brk_max s' = brk_max s.

(* the byte count malloc_expand passes to get_memory for a chunk of
   [size] bytes *)
Definition grow_request (s : state) (size : Z) : Z :=
  if PAGE_SIZE s =? 0
  then ROUNDUP_PAGE (os_pagesize s) (Word.add size FENCE_OVERHEAD)
  else ROUNDUP_PAGE (PAGE_SIZE s) size.

(* a computation that leaves the kernel's view sane *)
Definition keeps_os {A} (m : M A) : Prop :=
  forall s a s', os_ok s -> m s = Some (a, s') -> os_ok s'.

(* the three words of a free node at [n] can be dereferenced *)
Definition node_ok (s : state) (n : Z) : Prop :=
  brk_lo s <= n /\ n + NODE_SIZE <= brk s /\ n mod 8 = 0.
Definition node_okb (s : state) (n : Z) : bool :=
  (brk_lo s <=? n) && (n + NODE_SIZE <=? brk s) && (n mod 8 =? 0).

(* a free node at [n] (at least NODE_OVERHEAD bytes) lies clear of the
   chunk that occupies [c, c + sz) *)
Definition clear_of (c sz n : Z) : bool :=
  (n + NODE_OVERHEAD <=? c) || (c + sz <=? n).

(* ascending, and no node within NODE_OVERHEAD bytes of the next *)
Fixpoint spaced (l : list Z) : bool :=
  match l with
  | a :: (b :: _) as rest => (a + NODE_OVERHEAD <=? b) && spaced rest
  | _ => true
  end.

(* insertion into an address-ordered list of chunk starts *)
Fixpoint addr_insert (c : Z) (l : list Z) : list Z :=
  match l with
  | [] => [c]
  | n :: l' => if n <? c then n :: addr_insert c l' else c :: l
  end.

(* where a free node [n] may lie when the chunk [c, c + sz) is released:
   at least NODE_OVERHEAD bytes below [c]; or at or above the end of the
   chunk; or inside the chunk, at least NODE_OVERHEAD bytes above [c] and
   with its three words ending before the chunk's footer, as the
   remainder of a split does *)
Definition apart (c sz n : Z) : bool :=
  (n + NODE_OVERHEAD <=? c) ||
  ((c + NODE_OVERHEAD <=? n) &&
   ((n + NODE_SIZE <=? c + sz - FENCE_SIZE) || (c + sz <=? n))).

(* the neighbours of [c] in an address-ordered list: the last node below
   it ([p] when there is none) and the first node not below it *)
Fixpoint list_prev (c : Z) (l : list Z) (p : Z) : Z :=
  match l with
  | [] => p
  | n :: l' => if n <? c then list_prev c l' n else p
  end.
Fixpoint list_next (c : Z) (l : list Z) : Z :=
  match l with
  | [] => NULL
  | n :: l' => if n <? c then list_next c l' else n
  end.

(* [l] is the chain of nodes met when following [next] from [a] up to,
   and not including, [b] *)
Fixpoint lseg (s : state) (a : Z) (l : list Z) (b : Z) : Prop :=
  match l with
  | [] => a = b
  | n :: l' =>
      a = n /\ n <> NULL /\
      exists nx, load (fld n OFF_NEXT) s = Some (nx, s) /\ lseg s nx l' b
  end.

(** ** A concrete process

    Pages of 4096 bytes, the initial break at 1 MiB, and a kernel that
    grants sixteen pages. *)

Definition BRK0 : Z := 1048576.
Definition virgin : state := initial 4096 BRK0 (BRK0 + 16 * 4096).
(* the same process, but the kernel grants a single page *)
Definition virgin_one_page : state := initial 4096 BRK0 (BRK0 + 4096).

Definition FUEL : nat := 1024.

(* one page, wholly handed out: a 4064-byte request takes the 4080-byte
   chunk without a split, and the kernel grants nothing more *)
Definition full_page : state :=
  state_after (malloc FUEL 4064) virgin_one_page.

(* two pages, each one chunk handed out whole; the first is released
   again and the second is still in use *)
Definition first_released : state :=
  state_after (a <- malloc FUEL 4064 ;;
               _ <- malloc FUEL 4064 ;;
               free FUEL a) virgin.

(* one small block handed out of the first page; the rest of the page
   is on the free list *)
Definition small_block : state := state_after (malloc FUEL 1) virgin.

(* the kernel grants a single page, and the first request of the
   process asks for more: it is refused *)
Definition refused_start : state :=
  state_after (malloc FUEL 8192) virgin_one_page.

(** ** Test programs *)

(* what test_split reads off the heap after one allocation *)
Record split_view := mkSplitView {
  sv_request : Z;        (* the rounded request *)
  sv_payload : Z;        (* returned pointer, relative to the heap start *)
  sv_remainder : Z;      (* free-list head, relative to the heap start *)
  sv_header : Z;         (* header word of the caller's chunk *)
  sv_request_footer : Z; (* word at chunk start + request - FENCE_SIZE *)
  sv_rem_header : Z;     (* header word of the remainder *)
  sv_rem_footer : Z      (* word in the remainder's footer position *)
}.

(* first allocation on an untouched heap: the fit is the 4080-byte
   interior of the first page, the request rounds to 32 *)
Definition test_split : M split_view :=
  p <- malloc FUEL 1 ;;
  let req := ROUNDUP_CHUNK 1 in
  let chunk := Word.sub p FENCE_SIZE in
  start <- get HEAP_START ;;
  head <- get flist ;;
  header <- load chunk ;;
  req_footer <- load (FENCE_BACKWARD (Word.add chunk req)) ;;
  rem_header <- load head ;;
  rem_footer <- load (FENCE_BACKWARD (Word.add head rem_header)) ;;
  ret (mkSplitView req (p - start) (head - start) header req_footer
                   rem_header rem_footer).

Definition test_two_allocs : M (Z * Z * list (Z * Z * Z)) :=
  p <- malloc FUEL 1 ;;
  q <- malloc FUEL 1 ;;
  fs <- heap_fences FUEL ;;
  ret (p, q, fs).

Definition test_reuse : M (Z * Z * Z) :=
  p <- malloc FUEL 1 ;;
  free FUEL p ;;
  q <- malloc FUEL 1 ;;
  head <- get flist ;;
  n <- load (fld head OFF_NEXT) ;;
  ret (q, head, n).

Definition test_overlap : M (Z * Z * Z * list (Z * Z)) :=
  p <- malloc FUEL 1 ;;
  q <- malloc FUEL 1 ;;
  cs <- heap_chunks FUEL ;;
  free FUEL p ;;
  r <- malloc FUEL 100 ;;
  ret (p, q, r, cs).

Definition test_no_fusion : M (Z * Z * list (Z * Z) * list Z) :=
  a <- malloc FUEL 4064 ;;
  b <- malloc FUEL 4064 ;;
  free FUEL a ;;
  free FUEL b ;;
  cs <- heap_chunks FUEL ;;
  fl <- free_list FUEL ;;
  ret (a, b, cs, fl).

(* the caller fills the third payload word before releasing the block *)
Definition test_calloc_tail : M (Z * Z * list Z) :=
  p <- malloc FUEL 24 ;;
  store (p + 16) Word.SIZE_MAX ;;
  free FUEL p ;;
  q <- calloc FUEL 1 17 ;;
  bytes <- load_bytes 17 q ;;
  ret (p, q, bytes).

(* what test_realloc_copy reads off the heap around a resize *)
Record copy_view := mkCopyView {
  cv_old : Z;            (* the block being resized *)
  cv_capacity : Z;       (* its payload capacity, from its header *)
  cv_past_old : Z;       (* the word just past its payload: its footer *)
  cv_new : Z;            (* the block realloc returns *)
  cv_new_at_4056 : Z;    (* new payload word 507, copy of old word 507 *)
  cv_new_at_4064 : Z     (* new payload word 508 *)
}.

Definition test_realloc_copy : M copy_view :=
  p <- malloc FUEL 4064 ;;
  h <- load (FENCE_BACKWARD p) ;;
  let old := Word.sub (GETSIZE h) FENCE_OVERHEAD in
  past <- load (p + old) ;;
  q <- realloc FUEL p 4072 ;;
  w507 <- load (q + 4056) ;;
  w508 <- load (q + 4064) ;;
  ret (mkCopyView p old past q w507 w508).

(** ** More states of the concrete process *)


(* a released 24-byte block whose third payload word still holds what
   the caller left there *)
Definition dirty_block : state :=
  state_after (p <- malloc FUEL 24 ;;
               store (p + 16) Word.SIZE_MAX ;;
               free FUEL p) virgin.

(* both blocks of test_no_fusion released: two adjacent free chunks, of
   4080 and 4096 bytes, on the free list in address order *)
Definition both_released : state := state_after test_no_fusion virgin.

(** ** What a computation may write *)

(* a computation that writes heap words and the free-list head, and
   nothing else: not the break, not errno, not the cached page size *)
Definition touches_heap_only {A} (m : M A) : Prop :=
  forall s a s', m s = Some (a, s') ->
    s' = set_flist (flist s') (set_mem (mem s') s).

(** * Properties *)

(** ** Words, the monad, and symbolic execution *)

Lemma wrap_small z : 0 <= z < Word.modulus -> Word.wrap z = z.
Proof. intros H. unfold Word.wrap. apply Z.mod_small. exact H. Qed.

Lemma add_small a b : 0 <= a + b < Word.modulus -> Word.add a b = a + b.
Proof. apply wrap_small. Qed.
Lemma sub_small a b : 0 <= a - b < Word.modulus -> Word.sub a b = a - b.
Proof. apply wrap_small. Qed.

Section Exec.
Context {A B : Type}.
Lemma exec_ret (a : A) (k : A -> M B) s : bind (ret a) k s = k a s.
Proof. reflexivity. Qed.
Lemma exec_get (f : state -> A) (k : A -> M B) s : bind (get f) k s = k (f s) s.
Proof. reflexivity. Qed.
Lemma exec_bind_Some (m : M A) (k : A -> M B) s a s1 :
  m s = Some (a, s1) -> bind m k s = k a s1.
Proof. unfold bind. intros ->. reflexivity. Qed.
End Exec.

Lemma exec_assoc {A B C} (m : M A) (f : A -> M B) (g : B -> M C) s :
  bind (bind m f) g s = bind m (fun x => bind (f x) g) s.
Proof. unfold bind. destruct (m s) as [[a s1]|]; reflexivity. Qed.

Lemma exec_modify {B} f (k : unit -> M B) s : bind (modify f) k s = k tt (f s).
Proof. reflexivity. Qed.
Lemma exec_load {B} a (k : Z -> M B) s :
  mapped s a = true -> bind (load a) k s = k (default 0 (mem s !! a)) s.
Proof. intros H. unfold bind, load. rewrite H. reflexivity. Qed.
Lemma exec_store {B} a v (k : unit -> M B) s :
  mapped s a = true ->
  bind (store a v) k s = k tt (set_mem (<[a := v]> (mem s)) s).
Proof. intros H. unfold bind, store. rewrite H. reflexivity. Qed.
Lemma store_ok a v s :
  mapped s a = true -> store a v s = Some (tt, set_mem (<[a := v]> (mem s)) s).
Proof. intros H. unfold store. rewrite H. reflexivity. Qed.
Lemma load_ok a s :
  mapped s a = true -> load a s = Some (default 0 (mem s !! a), s).
Proof. intros H. unfold load. rewrite H. reflexivity. Qed.

Lemma mapped_iff s a :
  mapped s a = true <-> brk_lo s <= a /\ a + 8 <= brk s /\ a mod 8 = 0.
Proof.
  unfold mapped. rewrite !andb_true_iff, !Z.leb_le, Z.eqb_eq. tauto.
Qed.

Lemma lookup_insert_eq' (m : gmap Z Z) a b v : a = b -> <[a:=v]> m !! b = Some v.
Proof. intros ->. apply lookup_insert_eq. Qed.

Lemma SET_FREE_even x : 0 <= x < Word.modulus -> x mod 2 = 0 -> SET_FREE x = x.
Proof.
  intros Hx He. unfold SET_FREE.
  change (Word.not 1) with (Z.ones 64 - 1).
  apply Z.bits_inj'. intros n Hn. rewrite Z.land_spec.
  destruct (Z.eq_dec n 0) as [->|Hn0].
  - rewrite Z.bit0_odd. rewrite <- Z.negb_even.
    assert (Z.even x = true) as -> by (rewrite Zeven_mod, He; reflexivity).
    reflexivity.
  - destruct (Z_lt_le_dec n 64).
    + replace (Z.testbit (Z.ones 64 - 1) n) with true; [apply andb_true_r|].
      symmetry. change (Z.ones 64 - 1) with (Z.shiftl (Z.ones 63) 1).
      rewrite Z.shiftl_spec by lia. apply Z.ones_spec_low. lia.
    + replace (Z.testbit x n) with false; [reflexivity|].
      symmetry. apply Z.bits_above_log2; [lia|].
      destruct (Z.eq_dec x 0) as [->|]; [simpl; lia|].
      apply Z.log2_lt_pow2; [lia|].
      eapply Z.lt_le_trans; [apply Hx|].
      change Word.modulus with (2 ^ 64). apply Z.pow_le_mono_r; lia.
Qed.


Ltac wsimpl :=
  unfold fld, FENCE_BACKWARD, OFF_SIZE, OFF_PREV, OFF_NEXT,
    FENCE_OVERHEAD, NODE_OVERHEAD, NODE_SIZE, FENCE_SIZE, SIZE_T_SIZE, NULL in *.

Ltac mapped_tac :=
  apply mapped_iff; cbn [brk_lo brk set_mem set_brk set_flist set_PAGE_SIZE
                         set_HEAP_START set_errno];
  repeat split; [lia | lia | Z.div_mod_to_equations; lia].

Ltac lookup_tac :=
  repeat first [ rewrite lookup_insert_eq' by lia
               | rewrite lookup_insert_ne by lia
               | rewrite lookup_empty ];
  cbn [default from_option id].

Ltac modarith := Z.div_mod_to_equations; lia.

Ltac wrewrite :=
  repeat match goal with
    | |- context [Word.add ?a ?b] => rewrite (add_small a b) by lia
    | |- context [Word.sub ?a ?b] => rewrite (sub_small a b) by lia
    | |- context [SET_FREE ?x] =>
        rewrite (SET_FREE_even x) by (first [lia | modarith])
    | |- context [?a + 0] => rewrite (Z.add_0_r a)
    end.

#[local] Arguments set_mem _ !_ /.
#[local] Arguments set_brk _ !_ /.
#[local] Arguments set_flist _ !_ /.
#[local] Arguments set_PAGE_SIZE _ !_ /.
#[local] Arguments set_HEAP_START _ !_ /.
#[local] Arguments set_errno _ !_ /.

Ltac state_simpl :=
  cbn [mem flist PAGE_SIZE HEAP_START errno os_pagesize brk_lo brk brk_max
       set_mem set_brk set_flist set_PAGE_SIZE set_HEAP_START set_errno].

Ltac step :=
  first
    [ rewrite exec_assoc
    | rewrite exec_ret
    | rewrite exec_get
    | rewrite exec_modify
    | rewrite exec_load by mapped_tac
    | rewrite exec_store by mapped_tac
    | rewrite store_ok by mapped_tac
    | rewrite load_ok by mapped_tac ];
  state_simpl; lookup_tac; wrewrite.

Ltac branch :=
  match goal with
  | |- context [ ?x =? ?y ] =>
      let E := fresh "E" in
      destruct (x =? y) eqn:E;
      [apply Z.eqb_eq in E | apply Z.eqb_neq in E]; try (exfalso; lia)
  | |- context [ ?x <=? ?y ] =>
      let E := fresh "E" in
      destruct (x <=? y) eqn:E;
      [apply Z.leb_le in E | apply Z.leb_gt in E]; try (exfalso; lia)
  | |- context [ ?x <? ?y ] =>
      let E := fresh "E" in
      destruct (x <? y) eqn:E;
      [apply Z.ltb_lt in E | apply Z.ltb_ge in E]; try (exfalso; lia)
  end;
  cbn [negb andb orb].


Lemma ROUNDUP_CHUNK_0 : ROUNDUP_CHUNK 0 = 32.
Proof. reflexivity. Qed.

Lemma ROUNDUP_PAGE_48 ps :
  0 < ps < Word.modulus - 48 -> ps mod 16 = 0 ->
  exists R, ROUNDUP_PAGE ps 48 = R /\ 48 <= R <= 47 + ps /\ R mod 16 = 0.
Proof.
  intros Hps Hal. eexists. split; [reflexivity|].
  unfold ROUNDUP_PAGE. rewrite sub_small by lia.
  change (48 - 1) with 47.
  pose proof (Z.div_mod 47 ps ltac:(lia)) as Hdm.
  pose proof (Z.mod_pos_bound 47 ps ltac:(lia)) as Hmb.
  assert (0 <= 47 / ps) by (apply Z.div_pos; lia).
  rewrite add_small by nia.
  unfold Word.mul. rewrite wrap_small by nia.
  split; [nia|].
  rewrite Z.mul_mod by lia. rewrite Hal, Z.mul_0_r. reflexivity.
Qed.

Lemma wrap_range z : 0 <= Word.wrap z < Word.modulus.
Proof. unfold Word.wrap. apply Z.mod_pos_bound. reflexivity. Qed.

Lemma modulus_eq : Word.modulus = 18446744073709551616.
Proof. reflexivity. Qed.

Section Inversion.
Context {A B : Type}.

Lemma bind_inv (m : M A) (k : A -> M B) s b s' :
  bind m k s = Some (b, s') ->
  exists a s1, m s = Some (a, s1) /\ k a s1 = Some (b, s').
Proof.
  unfold bind. destruct (m s) as [[a s1]|]; [|discriminate].
  intros H. exists a, s1. split; [reflexivity|exact H].
Qed.

Lemma ret_inv (a a' : A) s s' : ret a s = Some (a', s') -> a = a' /\ s' = s.
Proof. unfold ret. intros H. injection H as <- <-. split; reflexivity. Qed.

Lemma get_inv (f : state -> A) s a s' :
  get f s = Some (a, s') -> a = f s /\ s' = s.
Proof. unfold get. intros H. injection H as <- <-. split; reflexivity. Qed.
End Inversion.

Lemma modify_inv f s u s' : modify f s = Some (u, s') -> s' = f s.
Proof. unfold modify. intros H. injection H as _ <-. reflexivity. Qed.

Lemma load_inv a s v s' :
  load a s = Some (v, s') ->
  s' = s /\ mapped s a = true /\ v = default 0 (mem s !! a).
Proof.
  unfold load. destruct (mapped s a); [|discriminate].
  intros H. injection H as <- <-. repeat split.
Qed.

Lemma store_inv a v s u s' :
  store a v s = Some (u, s') ->
  mapped s a = true /\ s' = set_mem (<[a := v]> (mem s)) s.
Proof.
  unfold store. destruct (mapped s a); [|discriminate].
  intros H. injection H as _ <-. split; reflexivity.
Qed.

Lemma get_memory_inv n s a s' :
  get_memory n s = Some (a, s') ->
  (a = NULL /\ s' = s) \/
  (a = brk s /\ s' = set_brk (brk s + n) s /\ brk s + n <= brk_max s).
Proof.
  unfold get_memory. destruct (brk s + n <=? brk_max s) eqn:E; intros H;
    injection H as <- <-; [right|left]; repeat split. apply Z.leb_le, E.
Qed.

Ltac minv1 :=
  match goal with
  | H : bind _ _ _ = Some _ |- _ =>
      let a := fresh "a" in let s := fresh "s" in let E := fresh "E" in
      apply bind_inv in H; destruct H as (a & s & E & H); cbv beta in H
  | H : ret _ _ = Some _ |- _ => apply ret_inv in H; destruct H; subst
  | H : get _ _ = Some _ |- _ => apply get_inv in H; destruct H; subst
  | H : modify _ _ = Some _ |- _ => apply modify_inv in H; subst
  | H : load _ _ = Some _ |- _ =>
      let M := fresh "Hmap" in
      apply load_inv in H; destruct H as (? & M & ?); subst
  | H : store _ _ _ = Some _ |- _ =>
      let M := fresh "Hmap" in
      apply store_inv in H; destruct H as (M & ?); subst
  | H : fail _ = Some _ |- _ => discriminate H
  | H : (let '(_, _) := ?p in _) _ = Some _ |- _ => destruct p
  | H : (if ?b then _ else _) _ = Some _ |- _ => destruct b eqn:?
  end.
Ltac minv := repeat minv1.

(* the walk of the free list reads, and writes nothing *)
Lemma malloc_find_fit_state fuel : forall target size s r s',
  malloc_find_fit fuel target size s = Some (r, s') -> s' = s.
Proof.
  induction fuel as [|fuel IH]; intros target size s r s' H; simpl in H.
  - discriminate H.
  - minv; try reflexivity. eapply IH; eassumption.
Qed.

Lemma mapped_bounds s a :
  mapped s a = true -> brk_lo s <= a /\ a + 8 <= brk s.
Proof.
  unfold mapped. intros H. apply andb_prop in H as [H _].
  apply andb_prop in H as [H1 H2]. apply Z.leb_le in H1, H2. lia.
Qed.

Lemma keeps_os_bind {A B} (m : M A) (k : A -> M B) :
  keeps_os m -> (forall a, keeps_os (k a)) -> keeps_os (bind m k).
Proof.
  intros Hm Hk s b s' Hok H. apply bind_inv in H as (a & s1 & E & H).
  eapply Hk; [eapply Hm|]; eassumption.
Qed.

Lemma keeps_os_ret {A} (a : A) : keeps_os (ret a).
Proof. intros s b s' Hok H. minv. exact Hok. Qed.

Lemma keeps_os_get {A} (f : state -> A) : keeps_os (get f).
Proof. intros s b s' Hok H. minv. exact Hok. Qed.

Lemma keeps_os_load a : keeps_os (load a).
Proof. intros s b s' Hok H. minv. exact Hok. Qed.

Lemma keeps_os_store a v : keeps_os (store a v).
Proof. intros s b s' Hok H. minv. exact Hok. Qed.

Lemma keeps_os_if {A} (b : bool) (m1 m2 : M A) :
  keeps_os m1 -> keeps_os m2 -> keeps_os (if b then m1 else m2).
Proof. destruct b; auto. Qed.

Lemma keeps_os_set_flist v : keeps_os (modify (set_flist v)).
Proof. intros s b s' Hok H. minv. exact Hok. Qed.

Lemma keeps_os_set_PAGE_SIZE v : keeps_os (modify (set_PAGE_SIZE v)).
Proof. intros s b s' Hok H. minv. exact Hok. Qed.

Lemma keeps_os_set_HEAP_START v : keeps_os (modify (set_HEAP_START v)).
Proof. intros s b s' Hok H. minv. exact Hok. Qed.

Lemma keeps_os_get_memory n : 0 <= n -> keeps_os (get_memory n).
Proof.
  intros Hn s a s' Hok H.
  apply get_memory_inv in H as [[-> ->]|(-> & -> & Hle)]; [exact Hok|].
  unfold os_ok in *. simpl. lia.
Qed.

Create HintDb keeps_os.
#[local] Hint Resolve keeps_os_ret keeps_os_get keeps_os_load keeps_os_store
  keeps_os_set_flist keeps_os_set_PAGE_SIZE keeps_os_set_HEAP_START : keeps_os.

Ltac keeps_os_tac :=
  repeat first
    [ apply keeps_os_bind; [|intros ?]
    | apply keeps_os_if
    | solve [auto with keeps_os] ].

Lemma keeps_os_assign_free start size : keeps_os (malloc_fnode_assign_free start size).
Proof. unfold malloc_fnode_assign_free. keeps_os_tac. Qed.

Lemma keeps_os_walk fuel : forall front item, keeps_os (addr_insert_walk fuel front item).
Proof.
  induction fuel as [|fuel IH]; intros front item; simpl.
  - intros s a s' _ H. discriminate H.
  - keeps_os_tac.
Qed.

Lemma keeps_os_insert fuel item : keeps_os (malloc_list_addr_insert fuel item).
Proof.
  unfold malloc_list_addr_insert. keeps_os_tac. apply keeps_os_walk.
Qed.

Ltac consts :=
  unfold NODE_OVERHEAD, NODE_SIZE, FENCE_SIZE, OFF_PREV, OFF_NEXT, OFF_SIZE,
    NULL in *.

Lemma load_mk ps fl hs er op lo br bm m a v s' :
  load a (mkState ps fl hs er op lo br bm m) = Some (v, s') ->
  default 0 (m !! a) = v /\ lo <= a /\ a + 8 <= br /\ a mod 8 = 0.
Proof.
  intros H. apply load_inv in H as (_ & Hmap & ->).
  apply mapped_iff in Hmap. simpl in Hmap. tauto.
Qed.

Lemma load_mk_intro ps fl hs er op lo br bm m a v :
  default 0 (m !! a) = v -> lo <= a -> a + 8 <= br -> a mod 8 = 0 ->
  load a (mkState ps fl hs er op lo br bm m) =
  Some (v, mkState ps fl hs er op lo br bm m).
Proof.
  intros <- H1 H2 H3. apply load_ok. apply mapped_iff. simpl. tauto.
Qed.

Lemma load_intro s a v :
  mapped s a = true -> default 0 (mem s !! a) = v -> load a s = Some (v, s).
Proof. intros Hm <-. apply load_ok. exact Hm. Qed.

(* closed arithmetic facts about literals *)
Ltac by_compute :=
  vm_compute; repeat split;
  first [ reflexivity | discriminate | (intros ?; discriminate) ].

(** ** Out of memory *)

Lemma ROUNDUP_PAGE_nonneg ps x : 0 <= ROUNDUP_PAGE ps x.
Proof. unfold ROUNDUP_PAGE, Word.mul. apply wrap_range. Qed.

Lemma assign_free_node start size s r s' :
  malloc_fnode_assign_free start size s = Some (r, s') ->
  r = start /\ mapped s (fld start OFF_SIZE) = true.
Proof.
  unfold malloc_fnode_assign_free. intros H. minv. split; [reflexivity|assumption].
Qed.

Lemma fld_null_unmapped s off :
  os_ok s -> off = OFF_SIZE -> mapped s (fld NULL off) = true -> False.
Proof.
  intros (Hlo & _) -> Hm. apply mapped_bounds in Hm as [Hm _].
  change (fld NULL OFF_SIZE) with 0 in Hm. lia.
Qed.

Lemma same_heap_refl s : same_heap s s.
Proof. repeat split. Qed.

Lemma same_heap_load s s' a v :
  same_heap s s' -> load a s = Some (v, s) -> load a s' = Some (v, s').
Proof.
  intros (Hm & _ & _ & Hlo & Hbrk & _) H.
  apply load_inv in H as (_ & Hmap & ->).
  unfold load, mapped in *. rewrite Hlo, Hbrk, Hmap, Hm. reflexivity.
Qed.

(* a null result of malloc_expand means the kernel refused the pages *)
Lemma malloc_expand_inv size s r s' :
  os_ok s -> malloc_expand size s = Some (r, s') ->
  os_ok s' /\
  (r = NULL ->
   same_heap s s' /\ errno s' = errno s /\
   brk_max s < brk s + grow_request s size).
Proof.
  intros Hok H. unfold malloc_expand, sysconf_pagesize in H.
  apply bind_inv in H as (ps & s1 & E1 & H). apply get_inv in E1 as [-> ->].
  apply bind_inv in H as ([init sz] & s2 & E2 & H).
  assert (Hs2 : os_ok s2 /\ same_heap s s2 /\ errno s2 = errno s /\
                sz = grow_request s size /\ 0 <= sz).
  { clear H. unfold grow_request. destruct (PAGE_SIZE s =? 0); minv;
      match goal with H : (_, _) = (_, _) |- _ => injection H as <- <- end;
      repeat split; try apply Hok; apply ROUNDUP_PAGE_nonneg. }
  clear E2. destruct Hs2 as (Hok2 & Hsame & Herr & Hreq & Hsz).
  apply bind_inv in H as (start & s3 & E3 & H).
  assert (Hok3 : os_ok s3) by (eapply keeps_os_get_memory; eassumption).
  unfold get_memory in E3.
  destruct (brk s2 + sz <=? brk_max s2) eqn:Hgrant; injection E3 as <- <-.
  - destruct (brk s2 =? NULL) eqn:Hnull.
    + apply Z.eqb_eq in Hnull. destruct Hok2 as (? & ? & _).
      unfold NULL in Hnull. lia.
    + assert (Hnode : os_ok s' /\ (r = NULL -> False)).
      { destruct init; minv;
          match goal with H : malloc_fnode_assign_free _ _ ?st = _ |- _ =>
            assert (Hok4 : os_ok st) by exact Hok3;
            pose proof (keeps_os_assign_free _ _ _ _ _ Hok4 H) as Hok5;
            apply assign_free_node in H as [-> Hnode]
          end;
          (split; [exact Hok5|]); intros Hr; rewrite Hr in Hnode;
          (eapply fld_null_unmapped; [|reflexivity|exact Hnode]); exact Hok3. }
      destruct Hnode as [Hok' Hne]. split; [exact Hok'|].
      intros Hr. destruct (Hne Hr).
  - change (NULL =? NULL) with true in H. apply ret_inv in H as [<- ->].
    split; [exact Hok2|]. intros _. split; [exact Hsame|]. split; [exact Herr|].
    apply Z.leb_gt in Hgrant. destruct Hsame as (_ & _ & _ & _ & Hb & Hm).
    rewrite Hb, Hm, Hreq in Hgrant. lia.
Qed.

Lemma split_nonnull fuel node size s r s' :
  os_ok s -> malloc_fnode_split fuel node size s = Some (r, s') -> r <> NULL.
Proof.
  intros (Hlo & _ & Hle & Hmax) H. unfold malloc_fnode_split in H.
  apply bind_inv in H as (ns & s1 & E1 & H).
  apply load_inv in E1 as (-> & Hmap & _).
  apply bind_inv in H as (u & s2 & _ & H).
  apply bind_inv in H as (ns2 & s3 & _ & H).
  apply bind_inv in H as (u2 & s4 & _ & H). minv.
  apply mapped_bounds in Hmap as [Hm1 Hm2].
  unfold fld, OFF_SIZE, Word.add in Hm1, Hm2. rewrite Z.add_0_r in Hm1, Hm2.
  unfold Word.add, FENCE_SIZE, NULL, Word.wrap in *.
  rewrite <- Zplus_mod_idemp_l. rewrite Z.mod_small; lia.
Qed.

(* malloc returns null only when the free list holds no fit and the
   kernel refuses to move the break; the heap is then as it was *)
Lemma malloc_null_inv fuel size s s' :
  os_ok s -> malloc fuel size s = Some (NULL, s') ->
  malloc_find_fit fuel (flist s) (ROUNDUP_CHUNK size) s = Some (NULL, s) /\
  brk_max s < brk s + grow_request s (ROUNDUP_CHUNK size) /\
  same_heap s s' /\ errno s' = ENOMEM.
Proof.
  intros Hok H. unfold malloc in H.
  apply bind_inv in H as (head & s1 & E1 & H). apply get_inv in E1 as [-> ->].
  apply bind_inv in H as (fit & s2 & E2 & H).
  pose proof (malloc_find_fit_state _ _ _ _ _ _ E2) as ->.
  destruct (fit =? NULL) eqn:Hfit.
  - apply Z.eqb_eq in Hfit. subst fit. split; [exact E2|].
    apply bind_inv in H as (fit2 & s3 & E3 & H).
    apply malloc_expand_inv in E3 as [Hok3 Hnull]; [|exact Hok].
    destruct (fit2 =? NULL) eqn:Hfit2; simpl in H.
    + apply Z.eqb_eq in Hfit2. destruct (Hnull Hfit2) as (Hsame & Herr & Hreq).
      minv. split; [exact Hreq|]. split; [exact Hsame|reflexivity].
    + apply bind_inv in H as (u & s4 & E4 & H).
      apply keeps_os_insert in E4; [|exact Hok3].
      exfalso. eapply split_nonnull; [exact E4|exact H|reflexivity].
  - exfalso. eapply split_nonnull; [exact Hok|exact H|reflexivity].
Qed.

(* malloc as a whole leaves the kernel's view sane *)
Lemma keeps_os_set_errno v : keeps_os (modify (set_errno v)).
Proof. intros s b s' Hok H. minv. exact Hok. Qed.

Lemma keeps_os_remove_walk fuel : forall front node, keeps_os (remove_walk fuel front node).
Proof.
  induction fuel as [|fuel IH]; intros front node; simpl.
  - intros s a s' _ H. discriminate H.
  - keeps_os_tac.
Qed.

Lemma keeps_os_remove fuel node : keeps_os (malloc_list_remove fuel node).
Proof.
  unfold malloc_list_remove. keeps_os_tac. apply keeps_os_remove_walk.
Qed.

Lemma keeps_os_assign_used start size : keeps_os (malloc_fnode_assign_used start size).
Proof. unfold malloc_fnode_assign_used. keeps_os_tac. Qed.

Lemma keeps_os_split fuel node size : keeps_os (malloc_fnode_split fuel node size).
Proof.
  unfold malloc_fnode_split. keeps_os_tac.
  all: first [ apply keeps_os_assign_free | apply keeps_os_remove_walk
             | apply keeps_os_assign_used ].
Qed.

Lemma keeps_os_find_fit fuel target size : keeps_os (malloc_find_fit fuel target size).
Proof.
  intros s a s' Hok H. apply malloc_find_fit_state in H as ->. exact Hok.
Qed.

Lemma keeps_os_malloc fuel size : keeps_os (malloc fuel size).
Proof.
  intros s r s' Hok H. unfold malloc in H.
  apply bind_inv in H as (head & s1 & E1 & H). apply get_inv in E1 as [-> ->].
  apply bind_inv in H as (fit & s2 & E2 & H).
  apply malloc_find_fit_state in E2 as ->.
  destruct (fit =? NULL).
  - apply bind_inv in H as (fit2 & s3 & E3 & H).
    apply malloc_expand_inv in E3 as [Hok3 _]; [|exact Hok].
    destruct (negb (fit2 =? NULL)).
    + apply bind_inv in H as (u & s4 & E4 & H).
      apply keeps_os_insert in E4; [|exact Hok3].
      eapply keeps_os_split; eassumption.
    + minv. exact Hok3.
  - eapply keeps_os_split; eassumption.
Qed.

Lemma split_result fuel node size s r s' :
  malloc_fnode_split fuel node size s = Some (r, s') -> r = Word.add node FENCE_SIZE.
Proof.
  intros H. unfold malloc_fnode_split in H.
  apply bind_inv in H as (ns & s1 & _ & H).
  apply bind_inv in H as (u & s2 & _ & H).
  apply bind_inv in H as (ns2 & s3 & _ & H).
  apply bind_inv in H as (u2 & s4 & _ & H).
  apply ret_inv in H as [<- _]. reflexivity.
Qed.

Lemma malloc_result_range fuel size s r s' :
  malloc fuel size s = Some (r, s') -> 0 <= r < Word.modulus.
Proof.
  intros H. unfold malloc in H.
  apply bind_inv in H as (head & s1 & _ & H).
  apply bind_inv in H as (fit & s2 & _ & H).
  assert (Hsplit : forall f st, malloc_fnode_split fuel f (ROUNDUP_CHUNK size) st =
                                Some (r, s') -> 0 <= r < Word.modulus).
  { intros f st Hs. apply split_result in Hs as ->. apply wrap_range. }
  destruct (fit =? NULL); [|eauto].
  apply bind_inv in H as (fit2 & s3 & _ & H).
  destruct (negb (fit2 =? NULL)).
  - apply bind_inv in H as (u & s4 & _ & H). eauto.
  - apply bind_inv in H as (u & s4 & _ & H). apply ret_inv in H as [<- _].
    by_compute.
Qed.

(** C9 (a failed resize keeps the original).  When the old capacity is
    too small and the allocation made inside [realloc] returns null,
    [realloc] returns null with ENOMEM set, and the heap is the one it
    started from: every word (so the chunk's fences, still marked used,
    and its payload), the free list and the break are unchanged. *)
Theorem realloc_failure_keeps_original fuel ptr size s h s' :
  os_ok s -> ptr <> NULL -> size <> 0 ->
  load (FENCE_BACKWARD ptr) s = Some (h, s) ->
  Word.sub (GETSIZE h) FENCE_OVERHEAD < size ->
  malloc fuel size s = Some (NULL, s') ->
  realloc fuel ptr size s = Some (NULL, s') /\
  errno s' = ENOMEM /\
  same_heap s s' /\
  load (FENCE_BACKWARD ptr) s' = Some (h, s') /\
  forall a v, load a s = Some (v, s) -> load a s' = Some (v, s').
Proof.
  intros Hok Hp Hn Hh Hold Hm.
  destruct (malloc_null_inv _ _ _ _ Hok Hm) as (_ & _ & Hsame & Herr).
  split; [|split; [exact Herr|split; [exact Hsame|split]]].
  - unfold realloc.
    apply Z.eqb_neq in Hp, Hn. unfold NULL in *. rewrite Hp, Hn.
    unfold bind at 1. rewrite Hh.
    destruct (size <=? _) eqn:E; [apply Z.leb_le in E; lia|].
    unfold bind at 1. rewrite Hm. reflexivity.
  - eapply same_heap_load; eassumption.
  - intros a v. apply same_heap_load. exact Hsame.
Qed.

Lemma realloc_failure_witness :
  exists s',
    realloc FUEL (BRK0 + 16) 5000 full_page = Some (NULL, s') /\
    errno s' = ENOMEM /\
    same_heap full_page s' /\
    load (FENCE_BACKWARD (BRK0 + 16)) s' = Some (4081, s') /\
    forall a v, load a full_page = Some (v, full_page) ->
                load a s' = Some (v, s').
Proof.
  eexists.
  apply (realloc_failure_keeps_original FUEL (BRK0 + 16) 5000 full_page 4081).
  - by_compute.
  - discriminate.
  - discriminate.
  - vm_compute. reflexivity.
  - reflexivity.
  - vm_compute. reflexivity.
Defined.

(** ** calloc: the overflow guard and the clearing loop *)

Lemma highest_loop_ok (k : nat) :
  forall inp nb fuel,
    0 <= inp < 2 ^ Z.of_nat k -> 0 <= nb -> nb + Z.of_nat k < Word.modulus ->
    (k < fuel)%nat ->
    exists h, highest_loop fuel inp nb = Some (nb + h) /\
              0 <= h <= Z.of_nat k /\ inp < 2 ^ h.
Proof.
  induction k as [|k IH]; intros inp nb fuel Hin Hnb Hsum Hfuel;
    destruct fuel as [|fuel]; try lia; simpl highest_loop.
  - assert (inp = 0) by (simpl in Hin; lia). subst inp. simpl.
    exists 0. rewrite Z.add_0_r. repeat split; lia.
  - destruct (inp =? 0) eqn:E; simpl.
    + apply Z.eqb_eq in E. subst inp. exists 0. rewrite Z.add_0_r.
      repeat split; lia.
    + apply Z.eqb_neq in E.
      assert (Hhalf : 0 <= Word.shr inp 1 < 2 ^ Z.of_nat k).
      { unfold Word.shr. rewrite Z.shiftr_div_pow2 by lia.
        replace (2 ^ 1) with 2 by reflexivity.
        rewrite Nat2Z.inj_succ, Z.pow_succ_r in Hin by lia.
        split; [apply Z.div_pos; lia|apply Z.div_lt_upper_bound; lia]. }
      assert (Hadd : Word.add nb 1 = nb + 1).
      { unfold Word.add. apply wrap_small. lia. }
      rewrite Hadd.
      destruct (IH (Word.shr inp 1) (nb + 1) fuel Hhalf) as (h & Hh & Hr & Hlt);
        try lia.
      exists (h + 1). rewrite Hh. split; [f_equal; lia|]. split; [lia|].
      unfold Word.shr in Hlt. rewrite Z.shiftr_div_pow2 in Hlt by lia.
      replace (2 ^ 1) with 2 in Hlt by reflexivity.
      rewrite Z.pow_add_r, Z.pow_1_r by lia.
      pose proof (Z.div_mod inp 2 ltac:(lia)) as Hdm.
      pose proof (Z.mod_pos_bound inp 2 ltac:(lia)). lia.
Qed.

Lemma highest_ok fuel inp s :
  (64 < fuel)%nat -> 0 <= inp < Word.modulus ->
  exists h, highest fuel inp s = Some (h, s) /\ 0 <= h <= 64 /\ inp < 2 ^ h.
Proof.
  intros Hf Hin.
  destruct (highest_loop_ok 64 inp 0 fuel) as (h & Hh & Hr & Hlt);
    try (rewrite ?modulus_eq in *; simpl; lia).
  exists h. unfold highest. rewrite Hh. simpl. repeat split; lia.
Qed.

(** C6 (overflow guard).  With [hn] and [hs] the bit lengths that
    [highest] computes for the two arguments: whenever [hn + hs] exceeds
    64, calloc returns null and the only change to the state is errno
    set to ENOMEM, so the break has not moved; every pair whose product
    does not fit the size word has [hn + hs] above 64 and is rejected;
    and calloc(SIZE_MAX, 2) is rejected. *)
Theorem calloc_overflow_guard fuel number size s :
  (64 < fuel)%nat ->
  0 <= number < Word.modulus -> 0 <= size < Word.modulus ->
  exists hn hs,
    highest fuel number s = Some (hn, s) /\
    highest fuel size s = Some (hs, s) /\
    (SIZE_T_SIZE * CHAR_BIT < hn + hs ->
     calloc fuel number size s = Some (NULL, set_errno ENOMEM s)) /\
    (Word.modulus <= number * size ->
     SIZE_T_SIZE * CHAR_BIT < hn + hs /\
     calloc fuel number size s = Some (NULL, set_errno ENOMEM s)) /\
    calloc fuel Word.SIZE_MAX 2 s = Some (NULL, set_errno ENOMEM s).
Proof.
  intros Hf Hn Hs.
  destruct (highest_ok fuel number s Hf Hn) as (hn & Hhn & Hrn & Hln).
  destruct (highest_ok fuel size s Hf Hs) as (hs & Hhs & Hrs & Hls).
  exists hn, hs. split; [exact Hhn|]. split; [exact Hhs|].
  assert (Hguard : forall a b ha hb,
             highest fuel a s = Some (ha, s) -> highest fuel b s = Some (hb, s) ->
             0 <= ha <= 64 -> 0 <= hb <= 64 ->
             SIZE_T_SIZE * CHAR_BIT < ha + hb ->
             calloc fuel a b s = Some (NULL, set_errno ENOMEM s)).
  { intros a b ha hb Ha Hb Hra Hrb Hgt. unfold calloc, bind.
    rewrite Ha, Hb. unfold Word.add. rewrite wrap_small by (rewrite modulus_eq; lia).
    apply Z.ltb_lt in Hgt. rewrite Hgt. reflexivity. }
  assert (Hover : Word.modulus <= number * size ->
                  SIZE_T_SIZE * CHAR_BIT < hn + hs).
  { intros Hov. unfold SIZE_T_SIZE, CHAR_BIT.
    destruct (Z_lt_le_dec 64 (hn + hs)) as [|Hle]; [lia|exfalso].
    assert (Hprod : number * size < 2 ^ hn * 2 ^ hs) by nia.
    rewrite <- Z.pow_add_r in Hprod by lia.
    assert (2 ^ (hn + hs) <= 2 ^ 64) by (apply Z.pow_le_mono_r; lia).
    rewrite modulus_eq in Hov. change (2 ^ 64) with 18446744073709551616 in *.
    lia. }
  split; [intros; eapply Hguard; eauto|]. split.
  - intros Hov. split; [auto|]. eapply Hguard; eauto.
  - assert (Hmax : 0 <= Word.SIZE_MAX < Word.modulus) by by_compute.
    assert (Htwo : 0 <= 2 < Word.modulus) by by_compute.
    destruct (highest_ok fuel Word.SIZE_MAX s Hf Hmax) as (ha & Ha & Hra & Hla).
    destruct (highest_ok fuel 2 s Hf Htwo) as (hb & Hb & Hrb & Hlb).
    apply (Hguard _ _ ha hb Ha Hb Hra Hrb).
    assert (64 <= ha).
    { destruct (Z_lt_le_dec ha 64) as [Hlt|]; [exfalso|lia].
      assert (2 ^ ha <= 2 ^ 63) by (apply Z.pow_le_mono_r; lia).
      change (2 ^ 63) with 9223372036854775808 in *.
      change Word.SIZE_MAX with 18446744073709551615 in Hla. lia. }
    assert (2 <= hb).
    { destruct (Z_lt_le_dec hb 2) as [Hlt|]; [exfalso|lia].
      assert (2 ^ hb <= 2 ^ 1) by (apply Z.pow_le_mono_r; lia).
      change (2 ^ 1) with 2 in *. lia. }
    unfold SIZE_T_SIZE, CHAR_BIT. lia.
Qed.

(* 2^32 * 2^32 overflows the size word and is turned away *)
Lemma calloc_overflow_guard_witness :
  calloc 65 4294967296 4294967296 virgin = Some (NULL, set_errno ENOMEM virgin).
Proof.
  destruct (calloc_overflow_guard 65 4294967296 4294967296 virgin)
    as (hn & hs & _ & _ & _ & Hov & _);
    [lia | by_compute | by_compute |].
  apply Hov. by_compute.
Defined.

(* the clearing loop of calloc: when it returns, [end_] lies a whole
   number of words above [target], those words hold zero, and no other
   word has changed *)
Lemma calloc_loop_spec fuel : forall target end_ s s',
  os_ok s -> calloc_loop fuel target end_ s = Some (tt, s') ->
  exists k : nat,
    end_ = target + 8 * Z.of_nat k /\
    (forall i, (i < k)%nat -> mem s' !! (target + 8 * Z.of_nat i) = Some 0) /\
    (forall a, a < target \/ end_ <= a -> mem s' !! a = mem s !! a) /\
    flist s' = flist s /\ brk s' = brk s /\ brk_lo s' = brk_lo s.
Proof.
  induction fuel as [|fuel IH]; intros target end_ s s' Hok H; simpl in H;
    [discriminate|].
  destruct (target =? end_) eqn:E; simpl in H.
  - apply Z.eqb_eq in E. subst end_. apply ret_inv in H as [_ ->].
    exists 0%nat. repeat split; try lia.
  - apply Z.eqb_neq in E.
    apply bind_inv in H as (u & s1 & Hst & H).
    apply store_inv in Hst as (Hmap & ->).
    pose proof Hmap as Hb. apply mapped_iff in Hb. destruct Hb as (Hb1 & Hb2 & Hb3).
    destruct Hok as (Hlo & Hlb & Hbm & Hmod).
    unfold SIZE_T_SIZE in H. rewrite add_small in H by lia.
    apply IH in H; [|repeat split; assumption].
    destruct H as (k & Hend & Hz & Hfr & Hfl & Hbrk & Hblo).
    exists (S k). split; [lia|]. split; [|split].
    + intros i Hi. destruct i as [|i].
      * rewrite Hfr by lia. simpl. rewrite Z.add_0_r. apply lookup_insert_eq.
      * replace (target + 8 * Z.of_nat (S i)) with (target + 8 + 8 * Z.of_nat i) by lia.
        apply Hz. lia.
    + intros a Ha. rewrite Hfr by lia. simpl. apply lookup_insert_ne. lia.
    + simpl in *. repeat split; assumption.
Qed.

Lemma highest_state fuel inp s h s' : highest fuel inp s = Some (h, s') -> s' = s.
Proof.
  unfold highest. destruct (highest_loop fuel inp 0); [|discriminate].
  intros H. injection H as _ <-. reflexivity.
Qed.

(** X1 (what calloc clears).  A call of calloc that returns a block has
    run malloc on the product of its arguments and then cleared the
    whole words of the request, [n / 8] of them for a product [n], and
    nothing else: every word at or past [r + 8 * (n / 8)], where the
    last [n mod 8] bytes of the request live, is as malloc left it. *)
Lemma calloc_clears_whole_words_only fuel number size s r s' :
  os_ok s -> calloc fuel number size s = Some (r, s') -> r <> NULL ->
  exists s1,
    malloc fuel (Word.mul number size) s = Some (r, s1) /\
    (forall i, 0 <= i < Word.mul number size / 8 ->
               mem s' !! (r + 8 * i) = Some 0) /\
    (forall a, a < r \/ r + 8 * (Word.mul number size / 8) <= a ->
               mem s' !! a = mem s1 !! a).
Proof.
  intros Hok H Hr. unfold calloc in H.
  apply bind_inv in H as (hn & s0 & E1 & H). apply highest_state in E1 as ->.
  apply bind_inv in H as (hs & s0 & E2 & H). apply highest_state in E2 as ->.
  destruct (_ <? _).
  { apply bind_inv in H as (u & s0 & _ & H). apply ret_inv in H as [<- _].
    destruct (Hr eq_refl). }
  apply bind_inv in H as (r0 & s1 & Hm & H).
  apply bind_inv in H as (u & s2 & Hloop & H).
  apply ret_inv in H as [-> ->].
  exists s1. split; [exact Hm|].
  apply Z.eqb_neq in Hr. rewrite Hr in Hloop. simpl in Hloop.
  pose proof (malloc_result_range _ _ _ _ _ Hm) as Hrange.
  pose proof (keeps_os_malloc _ _ _ _ _ Hok Hm) as Hok1.
  destruct u.
  apply calloc_loop_spec in Hloop as (k & Hend & Hz & Hfr & _); [|exact Hok1].
  rewrite Hend in Hfr.
  set (n := Word.mul number size) in *.
  assert (Hn : 0 <= n < Word.modulus) by apply wrap_range.
  assert (Hq : 0 <= n / 8 * 8 <= n).
  { pose proof (Z.div_mod n 8 ltac:(lia)). pose proof (Z.mod_pos_bound n 8 ltac:(lia)).
    lia. }
  unfold SIZE_T_SIZE, Word.mul in Hend. rewrite wrap_small in Hend by lia.
  assert (Hk : 8 * Z.of_nat k = n / 8 * 8).
  { unfold Word.add, Word.wrap in Hend.
    destruct (Z_lt_le_dec (r + n / 8 * 8) Word.modulus) as [Hlt|Hge].
    - rewrite Z.mod_small in Hend by lia. lia.
    - exfalso.
      assert (Hm2 : (r + n / 8 * 8) mod Word.modulus = r + n / 8 * 8 - Word.modulus).
      { symmetry. apply Z.mod_unique with (q := 1); lia. }
      lia. }
  split.
  - intros i Hi. replace i with (Z.of_nat (Z.to_nat i)) by lia. apply Hz. lia.
  - intros a Ha. apply Hfr. lia.
Qed.

Lemma calloc_clears_whole_words_only_witness :
  exists r s' s1,
    calloc FUEL 1 17 dirty_block = Some (r, s') /\
    malloc FUEL (Word.mul 1 17) dirty_block = Some (r, s1) /\
    (forall i, 0 <= i < Word.mul 1 17 / 8 -> mem s' !! (r + 8 * i) = Some 0) /\
    (forall a, a < r \/ r + 8 * (Word.mul 1 17 / 8) <= a ->
               mem s' !! a = mem s1 !! a).
Proof.
  assert (Hrun : exists r s', calloc FUEL 1 17 dirty_block = Some (r, s') /\
                              r <> NULL).
  { do 2 eexists. split; [vm_compute; reflexivity|discriminate]. }
  destruct Hrun as (r & s' & Hrun & Hr).
  destruct (calloc_clears_whole_words_only FUEL 1 17 dirty_block r s')
    as (s1 & H); [by_compute|exact Hrun|exact Hr|].
  exists r, s', s1. split; [exact Hrun|exact H].
Defined.

(** C7 (zero_allocate zeroes k*s bytes).  A 24-byte block whose third
    word the caller filled with ones is released; calloc(1, 17) then
    gets the same block and clears two words only, so of the 17 bytes
    asked for the last one still reads 255. *)
Theorem calloc_leaves_tail_bytes :
  result_of test_calloc_tail virgin =
  Some (BRK0 + 16, BRK0 + 16,
        [0; 0; 0; 0; 0; 0; 0; 0; 0; 0; 0; 0; 0; 0; 0; 0; 255]).
Proof. vm_compute. reflexivity. Qed.

(** ** realloc: the copying loop *)




(** C8 (resize copies min(n, old) bytes).  A block of capacity 4064
    (its chunk is the whole first page) is resized to 4072.  The new
    block, on fresh zeroed pages, ends up holding 4081 in the word at
    offset 4064: the copy ran for 4072 / 8 = 509 words where the old
    payload has 508, and the last word copied is the old chunk's
    footer. *)
Theorem realloc_copies_past_old_payload :
  result_of test_realloc_copy virgin =
  Some {| cv_old := BRK0 + 16;
          cv_capacity := 4064;
          cv_past_old := 4081;
          cv_new := BRK0 + 4096;
          cv_new_at_4056 := 0;
          cv_new_at_4064 := 4081 |}.
Proof. vm_compute. reflexivity. Qed.

(** ** Splitting a fit *)

(** X3 (a fit that is split).  Let the fit [node], of [ns] bytes, lie
    inside the heap with neighbours on the free list clear of it, and
    let the request [size] leave at least [NODE_OVERHEAD] bytes.  Then
    [malloc_fnode_split] returns the address just above the header; the
    remainder, [size] bytes up, gets the header [ns - size] and takes
    the fit's place as head of the list when the fit was the head.  The
    header of the block handed out, and the footer at the end of the
    whole fit, record [ns] with the used bit: the size of the fit, not
    of the request; the word where a chunk of [size] bytes would have
    its footer is not written. *)
Lemma split_marks_used_with_node_size fuel s node size ns p n :
  os_ok s -> node_ok s node ->
  load (fld node OFF_SIZE) s = Some (ns, s) ->
  load (fld node OFF_PREV) s = Some (p, s) ->
  load (fld node OFF_NEXT) s = Some (n, s) ->
  NODE_OVERHEAD <= size -> size mod 8 = 0 -> ns mod 8 = 0 ->
  size + NODE_OVERHEAD <= ns -> node + ns <= brk s ->
  p = NULL \/ (node_ok s p /\ p + NODE_OVERHEAD <= node) ->
  n = NULL \/ (node_ok s n /\ node + ns <= n) ->
  exists s',
    malloc_fnode_split fuel node size s = Some (node + FENCE_SIZE, s') /\
    load node s' = Some (SET_USED ns, s') /\
    load (node + ns - FENCE_SIZE) s' = Some (SET_USED ns, s') /\
    load (node + size) s' = Some (ns - size, s') /\
    mem s' !! (node + size - FENCE_SIZE) = mem s !! (node + size - FENCE_SIZE) /\
    flist s' = (if flist s =? node then node + size else flist s).
Proof.
  intros Hos (Hn1 & Hn2 & Hn3) Hns Hp Hn Hsz Hsz8 Hns8 Hrem Hend Hprev Hnext.
  destruct s as [ps fl hs er op lo br bm m].
  destruct Hos as (Hlo & Hlb & Hbm & Hmod).
  simpl in Hlo, Hlb, Hbm, Hmod, Hn1, Hn2, Hend. consts.
  unfold fld in Hns, Hp, Hn.
  rewrite add_small in Hns by lia. rewrite Z.add_0_r in Hns.
  rewrite add_small in Hp by lia. rewrite add_small in Hn by lia.
  apply load_mk in Hns as (Hnsv & _).
  apply load_mk in Hp as (Hpv & _).
  apply load_mk in Hn as (Hnv & _).
  assert (Hp' : p = 0 \/ (lo <= p /\ p + 24 <= br /\ p mod 8 = 0 /\ p + 32 <= node)).
  { destruct Hprev as [->|((H1 & H2 & H3) & H4)]; [left; reflexivity|right].
    simpl in H1, H2. consts. lia. }
  assert (Hn' : n = 0 \/ (lo <= n /\ n + 24 <= br /\ n mod 8 = 0 /\ node + ns <= n)).
  { destruct Hnext as [->|((H1 & H2 & H3) & H4)]; [left; reflexivity|right].
    simpl in H1, H2. consts. lia. }
  clear Hprev Hnext.
  unfold malloc_fnode_split. consts. wsimpl. wrewrite.
  repeat step. rewrite Hnsv. wrewrite. 
  assert (Hbr : (24 + 8 <=? ns - size) = true) by (apply Z.leb_le; lia).
  rewrite Hbr. cbv iota.
  unfold malloc_fnode_assign_free. consts. wsimpl. wrewrite. repeat step.
  rewrite Hpv. repeat step.
  destruct Hp' as [->|(Hp1 & Hp2 & Hp3 & Hp4)];
    destruct Hn' as [->|(Hq1 & Hq2 & Hq3 & Hq4)];
    destruct (fl =? node) eqn:Hfl;
    repeat first [ step | rewrite Hnv | rewrite Hfl | rewrite Hnsv | branch ];
    cbv iota; repeat step;
    unfold malloc_fnode_assign_used; consts; wsimpl; wrewrite; repeat step;
    (eexists; split; [reflexivity|]); state_simpl;
    (split; [apply load_mk_intro; [lookup_tac; reflexivity|lia|lia|modarith]|]);
    (split; [apply load_mk_intro; [lookup_tac; reflexivity|lia|lia|modarith]|]);
    (split; [apply load_mk_intro; [lookup_tac; reflexivity|lia|lia|modarith]|]);
    (split; [lookup_tac; reflexivity|reflexivity]).
Qed.

Lemma split_marks_used_with_node_size_witness :
  exists s',
    malloc_fnode_split FUEL (BRK0 + 8) 32 both_released =
      Some (BRK0 + 8 + FENCE_SIZE, s') /\
    load (BRK0 + 8) s' = Some (SET_USED 4080, s') /\
    load (BRK0 + 8 + 4080 - FENCE_SIZE) s' = Some (SET_USED 4080, s') /\
    load (BRK0 + 8 + 32) s' = Some (4080 - 32, s') /\
    mem s' !! (BRK0 + 8 + 32 - FENCE_SIZE) =
      mem both_released !! (BRK0 + 8 + 32 - FENCE_SIZE) /\
    flist s' = (if flist both_released =? BRK0 + 8 then BRK0 + 8 + 32
                else flist both_released).
Proof.
  apply (split_marks_used_with_node_size FUEL both_released (BRK0 + 8) 32 4080
           NULL (BRK0 + 4088));
    [by_compute|by_compute|vm_compute; reflexivity|vm_compute; reflexivity
    |vm_compute; reflexivity|by_compute|reflexivity|reflexivity|by_compute
    |by_compute|left; reflexivity|right; by_compute].
Defined.

(** C1 (split and mark used).  First allocation on an untouched heap:
    the request rounds to 32 and the first fit is the 4080-byte interior
    of the first page, so the remainder 4048 is at least [NODE_OVERHEAD]
    and the split branch runs.  The payload is chunk start + FENCE_SIZE
    and the remainder (32 bytes up, header 4048) becomes the head of the
    free list.  But the caller's header records the whole fit, 4080 with
    the used bit, not 32; no footer is written at the end of the 32-byte
    chunk; and the used footer lands on the remainder's footer. *)
Theorem split_marks_whole_fit_used :
  result_of test_split virgin =
  Some {| sv_request := 32;
          sv_payload := FENCE_SIZE;
          sv_remainder := 32;
          sv_header := SET_USED 4080;
          sv_request_footer := 0;
          sv_rem_header := 4048;
          sv_rem_footer := SET_USED 4080 |}.
Proof. vm_compute. reflexivity. Qed.

(** C2 (header equals footer).  After two allocations on an untouched
    heap the chunk at the heap start has header 4081 (size 4080, used)
    while the word in its footer position is 4049 (size 4048, used):
    the fence invariant does not survive the sequence
    allocate(1); allocate(1). *)
Theorem fences_disagree_after_two_allocs :
  exists p q fs,
    result_of test_two_allocs virgin = Some (p, q, fs) /\
    fs = [(BRK0 + 8, 4081, 4049)] /\
    fences_agree fs = false.
Proof. do 3 eexists. split; [vm_compute; reflexivity|]. split; reflexivity. Qed.

(* a node that is its own successor: the walk never reaches null *)
Lemma flist_walk_cycle s a :
  a <> NULL -> load (fld a OFF_NEXT) s = Some (a, s) ->
  forall fuel, flist_walk fuel a s = None.
Proof.
  intros Ha Hl fuel. induction fuel as [|fuel IH]; simpl; [reflexivity|].
  apply Z.eqb_neq in Ha. rewrite Ha. unfold bind at 1. rewrite Hl.
  unfold bind. rewrite IH. reflexivity.
Qed.

(** C3 (free list: once each, ascending).  allocate(1); release it;
    allocate(1) again on an untouched heap.  The second allocation
    returns the first pointer, and leaves a free list whose head, the
    node 32 bytes above the heap start, is its own successor: the list
    is not strictly ascending, the node occurs in it without end, and
    no amount of fuel lets a walk of the list finish. *)
Theorem free_list_cycles_after_reuse :
  exists q head next,
    result_of test_reuse virgin = Some (q, head, next) /\
    q = BRK0 + 16 /\ head = BRK0 + 8 + 32 /\
    next = head /\
    forall fuel,
      result_of (free_list fuel) (state_after test_reuse virgin) = None.
Proof.
  do 3 eexists. split; [vm_compute; reflexivity|]. do 3 (split; [reflexivity|]).
  intros fuel. unfold result_of, free_list. rewrite exec_get.
  replace (flist (state_after test_reuse virgin)) with (BRK0 + 40)
    by (vm_compute; reflexivity).
  rewrite flist_walk_cycle; [reflexivity|discriminate|].
  vm_compute. reflexivity.
Qed.

(** C5 (returned pointers are aligned chunk payloads).  allocate(1)
    twice on an untouched heap, then release the first block and
    allocate(100).  The second pointer [q] is 16-byte aligned, but
    [q - FENCE_SIZE] is not a chunk start of the heap: forward fence
    traversal from the heap start meets one chunk only, the first, whose
    header says 4080 bytes in use, and [q - FENCE_SIZE] lies inside it.
    The third allocation returns the first pointer again, and its 100
    bytes cover [q], which is still in use. *)
Theorem second_chunk_inside_first :
  exists p q r cs,
    result_of test_overlap virgin = Some (p, q, r, cs) /\
    q mod ALIGN_SIZE = 0 /\
    cs = [(p - FENCE_SIZE, SET_USED 4080)] /\
    p - FENCE_SIZE < q - FENCE_SIZE < p - FENCE_SIZE + 4080 /\
    ~ In (q - FENCE_SIZE) (map fst cs) /\
    r = p /\ r <= q < r + 100.
Proof.
  do 4 eexists. split; [vm_compute; reflexivity|].
  split; [reflexivity|]. split; [reflexivity|]. split; [by_compute|].
  split; [|by_compute].
  vm_compute. intros [H|[]]. discriminate H.
Qed.

(** ** A zero-byte request *)

(* the first allocation of a process, of zero bytes, for any page size
   and any 16-byte aligned break *)
Lemma malloc_zero_virgin ps lo hi fuel :
  (0 < fuel)%nat ->
  0 < ps < Word.modulus - 48 -> ps mod 16 = 0 ->
  0 < lo -> lo mod 16 = 0 ->
  lo + ROUNDUP_PAGE ps 48 <= hi -> hi < Word.modulus ->
  result_of (malloc fuel 0) (initial ps lo hi) = Some (lo + 16).
Proof.
  intros Hfuel Hps Hpal Hlo Hlal Hhi Hmax.
  destruct (ROUNDUP_PAGE_48 ps Hps Hpal) as (R & HR & HRr & HRal).
  rewrite HR in Hhi.
  destruct fuel as [|fuel]; [lia|].
  unfold result_of, malloc. rewrite ROUNDUP_CHUNK_0.
  unfold initial. step. cbn [malloc_find_fit].
  change (NULL =? NULL) with true. cbv iota. step.
  change (NULL =? NULL) with true. cbv iota.
  unfold malloc_expand, sysconf_pagesize.
  do 2 step. change (0 =? 0) with true. cbv iota.
  repeat step. change (Word.add 32 FENCE_OVERHEAD) with 48. rewrite HR.
  unfold get_memory at 1. unfold bind at 1. state_simpl.
  assert (Hgm : (lo + R <=? hi) = true) by (apply Z.leb_le; lia).
  rewrite Hgm. state_simpl.
  wsimpl. wrewrite. branch.
  assert (HRm : exists k, R = 16 * k).
  { exists (R / 16). pose proof (Z.div_mod R 16 ltac:(lia)). lia. }
  destruct HRm as (k & ->).
  assert (Hlm : exists j, lo = 16 * j).
  { exists (lo / 16). pose proof (Z.div_mod lo 16 ltac:(lia)). lia. }
  destruct Hlm as (j & ->).
  repeat step.
  unfold malloc_fnode_assign_free. wsimpl.
  repeat step.
  branch.
  unfold malloc_list_addr_insert. wsimpl. repeat step.
  branch. repeat step. branch. repeat step. branch. repeat step.
  unfold malloc_fnode_split. wsimpl. wrewrite. repeat step.
  change (24 + 8) with 32. branch.
  - unfold malloc_fnode_assign_free. wsimpl. wrewrite. repeat step.
    branch. repeat step. branch. repeat step. branch. repeat step.
    unfold malloc_fnode_assign_used. wsimpl. wrewrite. repeat step.
    unfold ret. f_equal. lia.
  - unfold malloc_list_remove. wsimpl. wrewrite. repeat step.
    branch. repeat step. branch. repeat step.
    unfold malloc_fnode_assign_used. wsimpl. wrewrite. repeat step.
    unfold ret. f_equal. lia.
Qed.

Lemma ROUNDUP_CHUNK_small n : 0 <= n <= DIFF_OVERHEAD -> ROUNDUP_CHUNK n = ROUNDUP_CHUNK 0.
Proof.
  intros Hn. unfold ROUNDUP_CHUNK, MAX, DIFF_OVERHEAD, NODE_SIZE, FENCE_SIZE in *.
  assert ((24 - 8 <? n) = false) as -> by (apply Z.ltb_ge; lia).
  reflexivity.
Qed.

(* a zero-byte request is an ordinary request: it rounds to 32 bytes,
   which is [NODE_OVERHEAD], and runs the very computation of any request
   of up to 16 bytes; on a process that has not allocated yet, whose
   kernel grants the first pages, it returns a pointer that is not null
   and is 16-byte aligned; and when it returns null, the free list held
   no chunk of 32 bytes and the kernel refused to move the break *)
Lemma malloc_zero_is_ordinary_request ps lo hi fuel :
  (0 < fuel)%nat ->
  0 < ps < Word.modulus - 48 -> ps mod 16 = 0 ->
  0 < lo -> lo mod 16 = 0 ->
  lo + ROUNDUP_PAGE ps 48 <= hi -> hi < Word.modulus ->
  ROUNDUP_CHUNK 0 = NODE_OVERHEAD /\
  (forall n s, 0 <= n <= DIFF_OVERHEAD -> malloc fuel 0 s = malloc fuel n s) /\
  (exists p, result_of (malloc fuel 0) (initial ps lo hi) = Some p /\
             p <> NULL /\ p mod ALIGN_SIZE = 0) /\
  (forall s s', os_ok s -> malloc fuel 0 s = Some (NULL, s') ->
     malloc_find_fit fuel (flist s) NODE_OVERHEAD s = Some (NULL, s) /\
     brk_max s < brk s + grow_request s NODE_OVERHEAD /\
     same_heap s s' /\ errno s' = ENOMEM).
Proof.
  intros Hfuel Hps Hpal Hlo Hlal Hhi Hmax.
  split; [reflexivity|]. split; [|split].
  - intros n s Hn. unfold malloc. rewrite (ROUNDUP_CHUNK_small n Hn). reflexivity.
  - exists (lo + 16). split; [apply malloc_zero_virgin; assumption|].
    unfold NULL, ALIGN_SIZE, SIZE_T_SIZE. split; [lia|].
    change (2 * 8) with 16. modarith.
  - intros s s' Hok Hm. apply (malloc_null_inv _ _ _ _ Hok Hm).
Qed.

(** C10 (allocate(0)), the claim fails after a refused first request.
    A zero-byte request rounds to 32 bytes and, on a process that has
    not allocated yet, returns a block.  But let the first request of
    the process be one the kernel refuses.  The heap is then as it was:
    nothing allocated, the break where it started, and the page a
    zero-byte request needs still to be had.  Yet [malloc 0] hands out
    no block, whatever the fuel: the free list is empty, [malloc_expand]
    finds the page size already stored, takes the path for a heap that
    exists, is granted the page, writes the end sentinel, and then
    writes the chunk header one word below the heap, at an address that
    is not part of it. *)
Theorem malloc_zero_after_refused_start :
  ROUNDUP_CHUNK 0 = NODE_OVERHEAD /\
  result_of (malloc FUEL 0) virgin_one_page = Some (BRK0 + ALIGN_SIZE) /\
  malloc FUEL 8192 virgin_one_page = Some (NULL, refused_start) /\
  same_heap virgin_one_page refused_start /\
  PAGE_SIZE refused_start = 4096 /\ HEAP_START refused_start = NULL /\
  brk refused_start + grow_request refused_start (ROUNDUP_CHUNK 0)
    <= brk_max refused_start /\
  (forall fuel, malloc fuel 0 refused_start = None) /\
  malloc_find_fit FUEL (flist refused_start) (ROUNDUP_CHUNK 0) refused_start =
    Some (NULL, refused_start) /\
  malloc_expand (ROUNDUP_CHUNK 0) refused_start = None /\
  exists s1 s2,
    get_memory (grow_request refused_start (ROUNDUP_CHUNK 0)) refused_start =
      Some (BRK0, s1) /\
    store (FENCE_BACKWARD (BRK0 + 4096)) 1 s1 = Some (tt, s2) /\
    brk_lo s2 = BRK0 /\ brk s2 = BRK0 + 4096 /\
    malloc_fnode_assign_free (BRK0 - FENCE_SIZE) 4096 s2 = None /\
    store (BRK0 - FENCE_SIZE) 4096 s2 = None.
Proof.
  split; [reflexivity|]. split; [vm_compute; reflexivity|].
  split; [vm_compute; reflexivity|]. split; [by_compute|].
  split; [reflexivity|]. split; [reflexivity|]. split; [by_compute|].
  assert (Hexp : malloc_expand (ROUNDUP_CHUNK 0) refused_start = None)
    by (vm_compute; reflexivity).
  split; [|split; [vm_compute; reflexivity|split; [exact Hexp|]]].
  - intros [|fuel]; [reflexivity|].
    unfold malloc. rewrite exec_get.
    change (flist refused_start) with NULL. cbn [malloc_find_fit].
    change (NULL =? NULL) with true. cbv iota.
    rewrite exec_ret. change (NULL =? NULL) with true. cbv iota.
    unfold bind at 1. rewrite Hexp. reflexivity.
  - do 2 eexists. split; [vm_compute; reflexivity|].
    split; [vm_compute; reflexivity|].
    split; [reflexivity|]. split; [reflexivity|].
    split; vm_compute; reflexivity.
Qed.

(** ** Release: insertion in address order, and nothing else *)

Lemma flist_walk_lseg fuel : forall a s l s',
  flist_walk fuel a s = Some (l, s') ->
  s' = s /\ lseg s a l NULL /\ (length l < fuel)%nat.
Proof.
  induction fuel as [|fuel IH]; intros a s l s' H; simpl in H; [discriminate|].
  destruct (a =? NULL) eqn:E.
  - injection H as <- <-. apply Z.eqb_eq in E. simpl. repeat split; [exact E|lia].
  - apply Z.eqb_neq in E. unfold bind in H.
    destruct (load (fld a OFF_NEXT) s) as [[nx s1]|] eqn:Hl; [|discriminate].
    assert (s1 = s) as ->.
    { unfold load in Hl. destruct (mapped s _); [|discriminate]. congruence. }
    destruct (flist_walk fuel nx s) as [[rest s2]|] eqn:Hw; [|discriminate].
    injection H as <- <-.
    destruct (IH _ _ _ _ Hw) as (-> & Hseg & Hlen).
    split; [reflexivity|]. split; [|simpl; lia].
    simpl. split; [reflexivity|]. split; [exact E|]. exists nx. split; assumption.
Qed.

Lemma lseg_flist_walk s : forall l a fuel,
  lseg s a l NULL -> (length l < fuel)%nat -> flist_walk fuel a s = Some (l, s).
Proof.
  induction l as [|n l IH]; intros a fuel H Hlen; destruct fuel as [|fuel];
    simpl in Hlen; try lia; simpl in *.
  - subst a. reflexivity.
  - destruct H as (-> & Hn & nx & Hl & Hseg).
    apply Z.eqb_neq in Hn. rewrite Hn. unfold bind. rewrite Hl.
    rewrite (IH nx fuel Hseg) by lia. reflexivity.
Qed.

Lemma lseg_app s : forall l1 a b l2 c,
  lseg s a l1 b -> lseg s b l2 c -> lseg s a (l1 ++ l2) c.
Proof.
  induction l1 as [|n l1 IH]; intros a b l2 c H1 H2; simpl in *.
  - subst. exact H2.
  - destruct H1 as (-> & Hn & nx & Hl & Hseg). repeat split; try assumption.
    exists nx. split; [exact Hl|]. eapply IH; eassumption.
Qed.

Lemma lseg_split s : forall l1 a l2 c,
  lseg s a (l1 ++ l2) c -> exists b, lseg s a l1 b /\ lseg s b l2 c.
Proof.
  induction l1 as [|n l1 IH]; intros a l2 c H; simpl in *.
  - exists a. split; [reflexivity|exact H].
  - destruct H as (-> & Hn & nx & Hl & Hseg).
    destruct (IH _ _ _ Hseg) as (b & H1 & H2).
    exists b. split; [|exact H2]. repeat split; try assumption.
    exists nx. split; assumption.
Qed.

Lemma lseg_frame s s' : forall l a b,
  lseg s a l b ->
  (forall n v, n ∈ l -> load (fld n OFF_NEXT) s = Some (v, s) ->
               load (fld n OFF_NEXT) s' = Some (v, s')) ->
  lseg s' a l b.
Proof.
  induction l as [|n l IH]; intros a b H Hfr; simpl in *; [exact H|].
  destruct H as (-> & Hn & nx & Hl & Hseg). repeat split; try assumption.
  exists nx. split.
  - apply Hfr; [left|exact Hl].
  - apply IH; [exact Hseg|]. intros m v Hm. apply Hfr. right. exact Hm.
Qed.

(* the walk of malloc_list_addr_insert stops at the last node below the item *)
Lemma addr_insert_walk_spec s item : forall l1 a fr nxt fuel,
  lseg s a (l1 ++ [fr]) nxt ->
  Forall (fun n => n < item) (tail (l1 ++ [fr])) ->
  nxt = NULL \/ item <= nxt ->
  (length l1 < fuel)%nat ->
  addr_insert_walk fuel a item s = Some (fr, s).
Proof.
  induction l1 as [|n l1 IH]; intros a fr nxt fuel Hseg Hlt Hnxt Hfuel;
    destruct fuel as [|fuel]; simpl in Hfuel; try lia; simpl in *.
  - destruct Hseg as (-> & Hn & nx & Hl & ->).
    unfold bind. rewrite Hl.
    destruct Hnxt as [->|Hge].
    + reflexivity.
    + destruct (nxt =? NULL); simpl; [reflexivity|].
      apply Z.ltb_ge in Hge. rewrite Hge. reflexivity.
  - destruct Hseg as (-> & Hn & nx & Hl & Hseg).
    unfold bind. rewrite Hl.
    assert (Hnx : nx <> NULL /\ nx < item).
    { destruct l1 as [|m l1]; simpl in *.
      - destruct Hseg as (-> & Hm & _). split; [exact Hm|].
        apply Forall_cons in Hlt as [Hlt _]. exact Hlt.
      - destruct Hseg as (-> & Hm & _). split; [exact Hm|].
        apply Forall_cons in Hlt as [Hlt _]. exact Hlt. }
    destruct Hnx as [Hnz Hnlt].
    apply Z.eqb_neq in Hnz. apply Z.ltb_lt in Hnlt. rewrite Hnz, Hnlt. simpl.
    apply (IH nx fr nxt fuel Hseg); [|exact Hnxt|lia].
    destruct l1 as [|m l1]; simpl in *.
    + constructor.
    + apply Forall_cons in Hlt as [_ Hlt]. exact Hlt.
Qed.

Lemma spaced_lower n : forall l,
  spaced (n :: l) = true -> Forall (fun m => n + NODE_OVERHEAD <= m) l.
Proof.
  intros l. revert n. induction l as [|m l IH]; intros n H; [constructor|].
  simpl in H. apply andb_prop in H as [H1 H2]. apply Z.leb_le in H1.
  constructor; [exact H1|].
  eapply Forall_impl; [apply IH; exact H2|].
  unfold NODE_OVERHEAD, NODE_SIZE, FENCE_SIZE in *. intros; simpl in *; lia.
Qed.

Lemma spaced_tail n l : spaced (n :: l) = true -> spaced l = true.
Proof.
  destruct l as [|m l]; [reflexivity|]. simpl. intros H.
  apply andb_prop in H as [_ H]. exact H.
Qed.

Lemma spaced_app_r : forall l1 l2, spaced (l1 ++ l2) = true -> spaced l2 = true.
Proof.
  induction l1 as [|n l1 IH]; intros l2 H; [exact H|].
  apply IH. eapply spaced_tail. exact H.
Qed.

Lemma spaced_before : forall l1 x l2,
  spaced (l1 ++ x :: l2) = true -> Forall (fun n => n + NODE_OVERHEAD <= x) l1.
Proof.
  induction l1 as [|n l1 IH]; intros x l2 H; [constructor|].
  constructor.
  - apply spaced_lower in H. rewrite Forall_app in H. destruct H as [_ H].
    apply Forall_cons in H as [H _]. exact H.
  - eapply IH. eapply spaced_tail. exact H.
Qed.

Lemma addr_insert_split c sz : forall l,
  0 <= sz -> spaced l = true -> forallb (clear_of c sz) l = true ->
  exists l1 l2,
    l = l1 ++ l2 /\ addr_insert c l = l1 ++ c :: l2 /\
    Forall (fun n => n + NODE_OVERHEAD <= c) l1 /\
    Forall (fun n => c + sz <= n) l2.
Proof.
  intros l Hsz. induction l as [|n l IH]; intros Hsp Hcl.
  - exists [], []. repeat split; constructor.
  - simpl in Hcl. apply andb_prop in Hcl as [Hn Hcl].
    unfold clear_of in Hn. apply orb_prop in Hn as [Hn|Hn]; apply Z.leb_le in Hn.
    + destruct (IH (spaced_tail _ _ Hsp) Hcl) as (l1 & l2 & -> & Hins & H1 & H2).
      exists (n :: l1), l2. split; [reflexivity|]. split.
      * simpl. assert ((n <? c) = true) as ->.
        { apply Z.ltb_lt. unfold NODE_OVERHEAD, NODE_SIZE, FENCE_SIZE in Hn. lia. }
        rewrite Hins. reflexivity.
      * split; [constructor; assumption|exact H2].
    + exists [], (n :: l). split; [reflexivity|]. split.
      * simpl. assert ((n <? c) = false) as -> by (apply Z.ltb_ge; lia). reflexivity.
      * split; [constructor|]. constructor; [exact Hn|].
        eapply Forall_impl; [apply spaced_lower; exact Hsp|].
        unfold NODE_OVERHEAD, NODE_SIZE, FENCE_SIZE. intros; simpl in *; lia.
Qed.

Lemma spaced_head_or_above n l :
  spaced (n :: l) = true ->
  Forall (fun m => m = n \/ n + NODE_OVERHEAD <= m) (n :: l).
Proof.
  intros H. constructor; [left; reflexivity|].
  eapply Forall_impl; [apply spaced_lower; exact H|]. intros; right; assumption.
Qed.

(* the next-field of a node reads the same after stores elsewhere *)
Lemma lseg_frame_mk ps fl hs er op lo br bm m fl' m' : forall l a b,
  0 < lo -> br <= bm -> bm < Word.modulus ->
  lseg (mkState ps fl hs er op lo br bm m) a l b ->
  Forall (node_ok (mkState ps fl hs er op lo br bm m)) l ->
  (forall n, n ∈ l -> m' !! (n + 16) = m !! (n + 16)) ->
  lseg (mkState ps fl' hs er op lo br bm m') a l b.
Proof.
  intros l a b Hlo Hbr Hbm Hseg Hok Hfr.
  eapply lseg_frame; [exact Hseg|].
  intros n v Hin Hl.
  rewrite Forall_forall in Hok. destruct (Hok n Hin) as (Hn1 & Hn2 & Hn3).
  simpl in Hn1, Hn2. consts.
  consts. unfold fld in *. rewrite add_small in * by lia.
  apply load_mk in Hl as (Hv & H1 & H2 & H3).
  apply load_mk_intro; try assumption. rewrite Hfr by exact Hin. exact Hv.
Qed.

Lemma insert_spec fuel s c sz l :
  os_ok s -> NODE_OVERHEAD <= sz -> node_ok s c ->
  lseg s (flist s) l NULL -> (length l < fuel)%nat ->
  Forall (node_ok s) l ->
  forallb (clear_of c sz) l = true -> spaced l = true ->
  exists s',
    malloc_list_addr_insert fuel c s = Some (tt, s') /\
    lseg s' (flist s') (addr_insert c l) NULL /\
    (PAGE_SIZE s', HEAP_START s', errno s', os_pagesize s') =
    (PAGE_SIZE s, HEAP_START s, errno s, os_pagesize s) /\
    (brk_lo s', brk s', brk_max s') = (brk_lo s, brk s, brk_max s) /\
    (forall a, a <> c + OFF_PREV -> a <> c + OFF_NEXT ->
               (forall n, n ∈ l -> a <> n + OFF_PREV /\ a <> n + OFF_NEXT) ->
               mem s' !! a = mem s !! a).
Proof.
  intros Hos Hsz Hc Hseg Hfuel Hnodes Hclear Hsp.
  destruct s as [ps fl hs er op lo br bm m].
  destruct Hos as (Hlo & Hlb & Hbm & Hmod). destruct Hc as (Hc1 & Hc2 & Hc3).
  simpl in Hlo, Hlb, Hbm, Hmod, Hc1, Hc2, Hseg. 
  destruct (addr_insert_split c sz l ltac:(consts; lia) Hsp Hclear)
    as (l1 & l2 & -> & Hins & H1 & H2).
  rewrite Hins.
  apply lseg_split in Hseg as (b & Hs1 & Hs2).
  apply Forall_app in Hnodes as [Hn1 Hn2].
  destruct (decide (l1 = [])) as [->|Hne].
  - (* the item becomes the head *)
    simpl in Hs1. subst b. simpl app in *.
    unfold malloc_list_addr_insert. consts. wsimpl. wrewrite. step.
    destruct l2 as [|n l2]; simpl in Hs2.
    + subst fl. change (0 =? 0) with true. cbn [orb negb]. repeat step.
      change (0 =? 0) with true. cbn [negb]. repeat step.
      eexists. split; [reflexivity|]. state_simpl.
      split; [|split; [reflexivity|split; [reflexivity|]]].
      * simpl. split; [reflexivity|]. split; [consts; lia|]. exists 0.
        split; [|reflexivity]. consts. unfold fld. rewrite add_small by lia.
        apply load_mk_intro; [lookup_tac; reflexivity|lia|lia|modarith].
      * intros a Ha1 Ha2 _. lookup_tac. reflexivity.
    + destruct Hs2 as (-> & Hnz & nx & Hl & Hs2).
      apply Forall_cons in H2 as [H2 H2'].
      apply Forall_cons in Hn2 as [(Hnf1 & Hnf2 & Hnf3) Hn2'].
      simpl in Hnf1, Hnf2. consts.
      assert (Hcond : (n =? 0) || (c <? n) = true).
      { apply orb_true_iff. right. apply Z.ltb_lt. lia. }
      rewrite Hcond. cbv iota. repeat step.
      branch. repeat step. branch. repeat step.
      eexists. split; [reflexivity|]. state_simpl.
      split; [|split; [reflexivity|split; [reflexivity|]]].
      * simpl. split; [reflexivity|]. split; [consts; lia|]. exists n. split.
        { consts. unfold fld. rewrite add_small by lia.
          apply load_mk_intro; [lookup_tac; reflexivity|lia|lia|modarith]. }
        split; [reflexivity|]. split; [consts; lia|]. exists nx. split.
        { consts. unfold fld in *. rewrite add_small in * by lia.
          apply load_mk in Hl as (Hv & _).
          apply load_mk_intro; [lookup_tac; exact Hv|lia|lia|modarith]. }
        eapply lseg_frame_mk; try eassumption; try lia.
        intros k Hk. pose proof (spaced_lower _ _ Hsp) as Hlow.
        rewrite Forall_forall in Hlow. specialize (Hlow k Hk). consts.
        lookup_tac. reflexivity.
      * intros a Ha1 Ha2 Ha3. destruct (Ha3 n ltac:(left)) as [Ha4 Ha5].
        lookup_tac. reflexivity.
  - (* the item goes after [fr], the last node below it *)
    destruct (exists_last Hne) as (l1' & fr & ->).
    apply lseg_split in Hs1 as (b' & Hs1 & Hfr).
    simpl in Hfr. destruct Hfr as (-> & Hfrz & nx & Hfrl & ->).
    apply Forall_app in Hn1 as [Hn1 Hnfr].
    apply Forall_cons in Hnfr as [(Hf1 & Hf2 & Hf3) _]. simpl in Hf1, Hf2.
    apply Forall_app in H1 as [H1 H1fr].
    apply Forall_cons in H1fr as [H1fr _].
    assert (Hwalk : addr_insert_walk fuel fl c
              (mkState ps fl hs er op lo br bm m) =
            Some (fr, mkState ps fl hs er op lo br bm m)).
    { apply (addr_insert_walk_spec _ _ l1' fl fr b).
      - eapply lseg_app; [exact Hs1|]. simpl. split; [reflexivity|].
        split; [exact Hfrz|]. exists b. split; [exact Hfrl|reflexivity].
      - assert (Hall : Forall (fun n => n < c) (l1' ++ [fr])).
        { apply Forall_app. split.
          - eapply Forall_impl; [exact H1|]. consts. intros; simpl in *; lia.
          - constructor; [consts; lia|constructor]. }
        destruct (l1' ++ [fr]) as [|x xs]; simpl; [constructor|].
        apply Forall_cons in Hall as [_ Hall]. exact Hall.
      - destruct l2 as [|n l2]; simpl in Hs2; [left; exact Hs2|right].
        destruct Hs2 as (-> & _). apply Forall_cons in H2 as [H2 _].
        consts. lia.
      - rewrite !length_app in Hfuel. simpl in Hfuel. lia. }
    assert (Hfl : fl <> 0 /\ fl + 32 <= c).
    { destruct l1' as [|x xs]; simpl in Hs1.
      - subst fl. consts. lia.
      - destruct Hs1 as (-> & Hx & _). apply Forall_cons in H1 as [H1 _].
        consts. lia. }
    pose proof (spaced_before _ _ _ ltac:(rewrite <- app_assoc in Hsp; exact Hsp))
      as Hbefore.
    pose proof (spaced_app_r _ _ Hsp) as Hsp2.
    consts. unfold fld in Hfrl. rewrite add_small in Hfrl by lia.
    apply load_mk in Hfrl as (Hfrv & _).
    unfold malloc_list_addr_insert. consts. wsimpl. wrewrite. step.
    assert (Hcond : (fl =? 0) || (c <? fl) = false).
    { apply orb_false_iff. split; [apply Z.eqb_neq|apply Z.ltb_ge]; lia. }
    rewrite Hcond. cbv iota. rewrite !exec_assoc.
    rewrite (exec_bind_Some _ _ _ _ _ Hwalk). repeat step.
    rewrite ?Hfrv. repeat step. rewrite ?Hfrv. branch. repeat step. rewrite ?Hfrv.
    destruct l2 as [|n l2]; simpl in Hs2.
    + rewrite Hs2 in *. clear Hs2. rewrite ?Hfrv.
      change (0 =? 0) with true. cbn [negb]. repeat step.
      eexists. split; [reflexivity|]. state_simpl.
      split; [|split; [reflexivity|split; [reflexivity|]]].
      * rewrite <- app_assoc. eapply lseg_app.
        { eapply lseg_frame_mk; try eassumption; try lia.
          intros k Hk. rewrite Forall_forall in H1, Hbefore.
          specialize (H1 k Hk). specialize (Hbefore k Hk). simpl in *.
          lookup_tac. reflexivity. }
        simpl. split; [reflexivity|]. split; [consts; lia|]. exists c. split.
        { consts. unfold fld. rewrite add_small by lia.
          apply load_mk_intro; [lookup_tac; reflexivity|lia|lia|modarith]. }
        split; [reflexivity|]. split; [consts; lia|]. exists 0. split; [|reflexivity].
        consts. unfold fld. rewrite add_small by lia.
        apply load_mk_intro; [lookup_tac; reflexivity|lia|lia|modarith].
      * intros a Ha1 Ha2 Ha3.
        destruct (Ha3 fr ltac:(rewrite !elem_of_app; left; right; left))
          as [Ha4 Ha5].
        lookup_tac. reflexivity.
    + destruct Hs2 as (-> & Hnz & nx & Hnl & Hs2).
      apply Forall_cons in H2 as [H2 H2'].
      apply Forall_cons in Hn2 as [(Hg1 & Hg2 & Hg3) Hn2'].
      simpl in Hg1, Hg2. consts.
      pose proof (spaced_lower _ _ Hsp2) as Hlow.
      branch. wrewrite. repeat step.
      eexists. split; [reflexivity|]. state_simpl.
      split; [|split; [reflexivity|split; [reflexivity|]]].
      * rewrite <- app_assoc. eapply lseg_app.
        { eapply lseg_frame_mk; try eassumption; try lia.
          intros k Hk. rewrite Forall_forall in H1, Hbefore.
          specialize (H1 k Hk). specialize (Hbefore k Hk). simpl in *.
          lookup_tac. reflexivity. }
        simpl. split; [reflexivity|]. split; [consts; lia|]. exists c. split.
        { consts. unfold fld. rewrite add_small by lia.
          apply load_mk_intro; [lookup_tac; reflexivity|lia|lia|modarith]. }
        split; [reflexivity|]. split; [consts; lia|]. exists n. split.
        { consts. unfold fld. rewrite add_small by lia.
          apply load_mk_intro; [lookup_tac; reflexivity|lia|lia|modarith]. }
        split; [reflexivity|]. split; [consts; lia|]. exists nx. split.
        { consts. unfold fld in *. rewrite add_small in * by lia.
          apply load_mk in Hnl as (Hv & _).
          apply load_mk_intro; [lookup_tac; exact Hv|lia|lia|modarith]. }
        eapply lseg_frame_mk; try eassumption; try lia.
        intros k Hk. rewrite Forall_forall in H2', Hlow.
        specialize (H2' k Hk). specialize (Hlow k Hk). simpl in *. consts.
        lookup_tac. reflexivity.
      * intros a Ha1 Ha2 Ha3.
        destruct (Ha3 fr ltac:(rewrite !elem_of_app; left; right; left))
          as [Ha4 Ha5].
        destruct (Ha3 n ltac:(rewrite !elem_of_app; right; left))
          as [Ha6 Ha7].
        lookup_tac. reflexivity.
Qed.

Lemma node_okb_spec s n : node_okb s n = true <-> node_ok s n.
Proof.
  unfold node_okb, node_ok.
  rewrite !andb_true_iff, !Z.leb_le, Z.eqb_eq. tauto.
Qed.

Lemma forallb_Forall {A} (f : A -> bool) (P : A -> Prop) (l : list A) :
  (forall x, f x = true -> P x) -> forallb f l = true -> Forall P l.
Proof.
  intros Hf. induction l as [|x l IH]; simpl; intros H; constructor;
    apply andb_prop in H as [H1 H2]; auto.
Qed.

Lemma length_addr_insert c l : length (addr_insert c l) = S (length l).
Proof.
  induction l as [|n l IH]; simpl; [reflexivity|].
  destruct (n <? c); simpl; [rewrite IH|]; reflexivity.
Qed.

Lemma SET_FREE_idem x : SET_FREE (SET_FREE x) = SET_FREE x.
Proof. unfold SET_FREE. rewrite <- Z.land_assoc, Z.land_diag. reflexivity. Qed.

Lemma list_prev_split c fr : forall l1 l2 p,
  Forall (fun n => n < c) l1 -> fr < c -> Forall (fun n => c <= n) l2 ->
  list_prev c (l1 ++ fr :: l2) p = fr.
Proof.
  induction l1 as [|n l1 IH]; intros l2 p H1 Hfr H2; simpl.
  - apply Z.ltb_lt in Hfr. rewrite Hfr.
    destruct l2 as [|m l2]; [reflexivity|]. simpl.
    apply Forall_cons in H2 as [Hm _]. apply Z.ltb_ge in Hm. rewrite Hm.
    reflexivity.
  - apply Forall_cons in H1 as [Hn H1]. apply Z.ltb_lt in Hn. rewrite Hn.
    apply IH; assumption.
Qed.

Lemma list_prev_none c p l :
  Forall (fun n => c <= n) l -> list_prev c l p = p.
Proof.
  destruct l as [|m l]; [reflexivity|]. intros H. simpl.
  apply Forall_cons in H as [Hm _]. apply Z.ltb_ge in Hm. rewrite Hm.
  reflexivity.
Qed.

Lemma list_next_split c : forall l1 l2,
  Forall (fun n => n < c) l1 -> list_next c (l1 ++ l2) = list_next c l2.
Proof.
  induction l1 as [|n l1 IH]; intros l2 H1; [reflexivity|]. simpl.
  apply Forall_cons in H1 as [Hn H1]. apply Z.ltb_lt in Hn. rewrite Hn.
  apply IH. exact H1.
Qed.

Lemma list_next_head c n l : c <= n -> list_next c (n :: l) = n.
Proof. intros H. simpl. apply Z.ltb_ge in H. rewrite H. reflexivity. Qed.

(* the links that malloc_list_addr_insert leaves behind: the item
   points to its two neighbours in the list, and they point back *)
Lemma insert_links fuel s c l :
  os_ok s -> node_ok s c ->
  lseg s (flist s) l NULL -> (length l < fuel)%nat ->
  Forall (node_ok s) l ->
  forallb (clear_of c NODE_OVERHEAD) l = true -> spaced l = true ->
  exists s',
    malloc_list_addr_insert fuel c s = Some (tt, s') /\
    mem s' !! (c + OFF_PREV) = Some (list_prev c l NULL) /\
    mem s' !! (c + OFF_NEXT) = Some (list_next c l) /\
    (list_prev c l NULL <> NULL ->
     node_ok s (list_prev c l NULL) /\
     mem s' !! (list_prev c l NULL + OFF_NEXT) = Some c) /\
    (list_next c l <> NULL ->
     node_ok s (list_next c l) /\
     mem s' !! (list_next c l + OFF_PREV) = Some c).
Proof.
  intros Hos Hc Hseg Hfuel Hnodes Hclear Hsp.
  destruct s as [ps fl hs er op lo br bm m].
  destruct Hos as (Hlo & Hlb & Hbm & Hmod). destruct Hc as (Hc1 & Hc2 & Hc3).
  simpl in Hlo, Hlb, Hbm, Hmod, Hc1, Hc2, Hseg.
  destruct (addr_insert_split c NODE_OVERHEAD l ltac:(consts; lia) Hsp Hclear)
    as (l1 & l2 & -> & Hins & H1 & H2).
  assert (H1lt : Forall (fun n => n < c) l1).
  { eapply Forall_impl; [exact H1|]. consts. intros; simpl in *; lia. }
  assert (H2ge : Forall (fun n => c <= n) l2).
  { eapply Forall_impl; [exact H2|]. consts. intros; simpl in *; lia. }
  apply lseg_split in Hseg as (b & Hs1 & Hs2).
  pose proof Hnodes as Hnodes0.
  apply Forall_app in Hnodes as [Hn1 Hn2].
  destruct (decide (l1 = [])) as [->|Hne].
  - (* the item becomes the head *)
    simpl in Hs1. subst b. simpl app in *.
    rewrite (list_prev_none c NULL l2 H2ge).
    unfold malloc_list_addr_insert. consts. wsimpl. wrewrite. step.
    destruct l2 as [|n l2]; simpl in Hs2.
    + subst fl. change (0 =? 0) with true. cbn [orb negb]. repeat step.
      change (0 =? 0) with true. cbn [negb]. repeat step.
      eexists. split; [reflexivity|]. state_simpl. cbn [list_next]. consts.
      split; [lookup_tac; reflexivity|]. split; [lookup_tac; reflexivity|].
      split; intros H; exfalso; apply H; reflexivity.
    + destruct Hs2 as (-> & Hnz & nx & Hl & Hs2).
      pose proof H2 as H2all.
      apply Forall_cons in H2 as [H2 H2'].
      pose proof Hn2 as Hn2all.
      apply Forall_cons in Hn2 as [(Hnf1 & Hnf2 & Hnf3) Hn2'].
      simpl in Hnf1, Hnf2. consts.
      rewrite (list_next_head c n l2 ltac:(lia)).
      assert (Hcond : (n =? 0) || (c <? n) = true).
      { apply orb_true_iff. right. apply Z.ltb_lt. lia. }
      rewrite Hcond. cbv iota. repeat step.
      branch. repeat step. branch. repeat step.
      eexists. split; [reflexivity|]. state_simpl.
      split; [lookup_tac; reflexivity|]. split; [lookup_tac; reflexivity|].
      split; [intros H; exfalso; apply H; reflexivity|].
      intros _. split; [unfold node_ok; simpl; consts; repeat split; first [lia|assumption]|].
      lookup_tac. reflexivity.
  - (* the item goes after [fr], the last node below it *)
    destruct (exists_last Hne) as (l1' & fr & ->).
    apply lseg_split in Hs1 as (b' & Hs1 & Hfr).
    simpl in Hfr. destruct Hfr as (-> & Hfrz & nx & Hfrl & ->).
    apply Forall_app in Hn1 as [Hn1 Hnfr].
    apply Forall_cons in Hnfr as [(Hf1 & Hf2 & Hf3) _]. simpl in Hf1, Hf2.
    apply Forall_app in H1 as [H1 H1fr].
    apply Forall_cons in H1fr as [H1fr _].
    apply Forall_app in H1lt as [H1lt H1ltfr].
    rewrite <- app_assoc. simpl app.
    rewrite (list_prev_split c fr l1' l2 NULL H1lt ltac:(consts; lia) H2ge).
    rewrite (list_next_split c l1' (fr :: l2) H1lt).
    assert (Hnfr : list_next c (fr :: l2) = list_next c l2).
    { simpl. assert ((fr <? c) = true) as -> by (apply Z.ltb_lt; consts; lia).
      reflexivity. }
    rewrite Hnfr.
    assert (Hwalk : addr_insert_walk fuel fl c
              (mkState ps fl hs er op lo br bm m) =
            Some (fr, mkState ps fl hs er op lo br bm m)).
    { apply (addr_insert_walk_spec _ _ l1' fl fr b).
      - eapply lseg_app; [exact Hs1|]. simpl. split; [reflexivity|].
        split; [exact Hfrz|]. exists b. split; [exact Hfrl|reflexivity].
      - assert (Hall : Forall (fun n => n < c) (l1' ++ [fr])).
        { apply Forall_app. split; [exact H1lt|].
          constructor; [consts; lia|constructor]. }
        destruct (l1' ++ [fr]) as [|x xs]; simpl; [constructor|].
        apply Forall_cons in Hall as [_ Hall]. exact Hall.
      - destruct l2 as [|n l2]; simpl in Hs2; [left; exact Hs2|right].
        destruct Hs2 as (-> & _). apply Forall_cons in H2 as [H2 _].
        consts. lia.
      - rewrite !length_app in Hfuel. simpl in Hfuel. lia. }
    assert (Hfl : fl <> 0 /\ fl + 32 <= c).
    { destruct l1' as [|x xs]; simpl in Hs1.
      - subst fl. consts. lia.
      - destruct Hs1 as (-> & Hx & _). apply Forall_cons in H1 as [H1 _].
        consts. lia. }
    consts. unfold fld in Hfrl. rewrite add_small in Hfrl by lia.
    apply load_mk in Hfrl as (Hfrv & _).
    unfold malloc_list_addr_insert. consts. wsimpl. wrewrite. step.
    assert (Hcond : (fl =? 0) || (c <? fl) = false).
    { apply orb_false_iff. split; [apply Z.eqb_neq|apply Z.ltb_ge]; lia. }
    rewrite Hcond. cbv iota. rewrite !exec_assoc.
    rewrite (exec_bind_Some _ _ _ _ _ Hwalk). repeat step.
    rewrite ?Hfrv. repeat step. rewrite ?Hfrv. branch. repeat step. rewrite ?Hfrv.
    destruct l2 as [|n l2]; simpl in Hs2.
    + rewrite Hs2 in *. clear Hs2. rewrite ?Hfrv.
      change (0 =? 0) with true. cbn [negb]. repeat step.
      eexists. split; [reflexivity|]. state_simpl. cbn [list_next].
      split; [lookup_tac; reflexivity|]. split; [lookup_tac; reflexivity|].
      split; [|intros H; exfalso; apply H; reflexivity].
      intros _. split; [unfold node_ok; simpl; consts; repeat split; first [lia|assumption]|].
      lookup_tac. reflexivity.
    + destruct Hs2 as (-> & Hnz & nx & Hnl & Hs2).
      apply Forall_cons in H2 as [H2 H2'].
      apply Forall_cons in Hn2 as [(Hg1 & Hg2 & Hg3) Hn2'].
      simpl in Hg1, Hg2. consts.
      rewrite (list_next_head c n l2 ltac:(lia)).
      branch. wrewrite. repeat step.
      eexists. split; [reflexivity|]. state_simpl.
      split; [lookup_tac; reflexivity|]. split; [lookup_tac; reflexivity|].
      split; intros _; (split; [unfold node_ok; simpl; consts; repeat split; first [lia|assumption]|]);
        lookup_tac; reflexivity.
Qed.

Lemma apart_spec c sz n :
  NODE_OVERHEAD <= sz -> apart c sz n = true ->
  clear_of c NODE_OVERHEAD n = true /\
  (n + NODE_OVERHEAD <= c \/
   (c + NODE_OVERHEAD <= n /\ n + NODE_SIZE <= c + sz - FENCE_SIZE) \/
   c + sz <= n).
Proof.
  intros Hsz H. unfold apart in H. unfold clear_of. consts.
  rewrite orb_true_iff, andb_true_iff, orb_true_iff, !Z.leb_le in H.
  rewrite orb_true_iff, !Z.leb_le. lia.
Qed.

(** C4, as amended (release inserts, it does not fuse).  Let the free
    list be a chain of nodes inside the heap that ends in null, in
    ascending order and at least [NODE_OVERHEAD] bytes apart, and let
    every node of it lie [apart] from the chunk at [c], whose header
    records [sz] bytes: below it, above it, or inside it clear of its
    first [NODE_OVERHEAD] bytes and of its footer.  Then releasing that
    chunk returns, and: header
    and footer hold [sz] with the used bit clear, so the chunk keeps its
    own size; the free list is the old one with [c] inserted in address
    order; the links of [c] point to its two neighbours in the list, or
    are null, and the neighbours point back; and the footer word just
    below the chunk and the header word just above it are what they
    were.  A free neighbour therefore stays a separate free chunk. *)
Theorem release_inserts_without_fusion fuel s c h sz l :
  os_ok s ->
  load c s = Some (h, s) -> SET_FREE h = sz ->
  NODE_OVERHEAD <= sz -> sz mod 8 = 0 -> c + sz <= brk s ->
  free_list fuel s = Some (l, s) ->
  forallb (node_okb s) l = true ->
  forallb (apart c sz) l = true ->
  spaced l = true ->
  exists s',
    free fuel (c + FENCE_SIZE) s = Some (tt, s') /\
    load c s' = Some (sz, s') /\
    load (c + sz - FENCE_SIZE) s' = Some (sz, s') /\
    ISUSED sz = 0 /\
    free_list (S fuel) s' = Some (addr_insert c l, s') /\
    load (c + OFF_PREV) s' = Some (list_prev c l NULL, s') /\
    load (c + OFF_NEXT) s' = Some (list_next c l, s') /\
    (list_prev c l NULL <> NULL ->
     load (list_prev c l NULL + OFF_NEXT) s' = Some (c, s')) /\
    (list_next c l <> NULL ->
     load (list_next c l + OFF_PREV) s' = Some (c, s')) /\
    mem s' !! (c - FENCE_SIZE) = mem s !! (c - FENCE_SIZE) /\
    mem s' !! (c + sz) = mem s !! (c + sz).
Proof.
  intros Hos Hh Hsz Hmin Hal Hend Hfl Hnodes Hapart Hsp.
  unfold free_list in Hfl. rewrite exec_get in Hfl.
  apply flist_walk_lseg in Hfl as (_ & Hseg & Hlen).
  pose proof (forallb_Forall _ _ _ (fun n => proj1 (node_okb_spec s n)) Hnodes)
    as Hok.
  assert (Hclear : forallb (clear_of c NODE_OVERHEAD) l = true).
  { apply forallb_forall. intros n Hn.
    rewrite forallb_forall in Hapart.
    apply (apart_spec c sz n Hmin (Hapart n Hn)). }
  assert (Hcl : Forall (fun n => n + NODE_OVERHEAD <= c \/
                  (c + NODE_OVERHEAD <= n /\ n + NODE_SIZE <= c + sz - FENCE_SIZE) \/
                  c + sz <= n) l).
  { eapply forallb_Forall; [|exact Hapart]. intros n Hn.
    apply (apart_spec c sz n Hmin Hn). }
  destruct s as [ps fl hs er op lo br bm m].
  destruct Hos as (Hlo & Hlb & Hbm & Hmod).
  apply load_mk in Hh as (Hhv & Hc1 & Hc2 & Hc3).
  simpl in Hlo, Hlb, Hbm, Hmod, Hend, Hseg. consts.
  set (m1 := <[c + 16 := 0]> (<[c + 8 := 0]> (<[c + sz - 8 := sz]>
               (<[c := sz]> (<[c := sz]> (<[c := sz]> m)))))).
  set (s1 := mkState ps fl hs er op lo br bm m1).
  assert (Hframe : forall n, n ∈ l -> m1 !! (n + 16) = m !! (n + 16)).
  { intros n Hn. rewrite Forall_forall in Hcl. specialize (Hcl n Hn).
    simpl in Hcl. unfold m1. lookup_tac. reflexivity. }
  assert (Hos1 : os_ok s1) by (unfold s1, os_ok; simpl; lia).
  assert (Hc : node_ok s1 c).
  { unfold s1, node_ok. simpl. consts. repeat split; lia. }
  assert (Hseg1 : lseg s1 (flist s1) l NULL).
  { unfold s1. simpl. eapply lseg_frame_mk; try eassumption; lia. }
  assert (Hok1 : Forall (node_ok s1) l) by exact Hok.
  destruct (insert_spec fuel s1 c NODE_OVERHEAD l Hos1 ltac:(lia) Hc Hseg1 Hlen
              Hok1 Hclear Hsp) as (s' & Hins & Hseg' & Hglob & Hbnd & Hfr).
  destruct (insert_links fuel s1 c l Hos1 Hc Hseg1 Hlen Hok1 Hclear Hsp)
    as (s2 & Hins2 & Hlp & Hln & Hpn & Hnp).
  assert (s2 = s') by congruence. subst s2. clear Hins2.
  simpl in Hbnd. injection Hbnd as Hb1 Hb2 Hb3. consts.
  assert (Hmapped : forall a, lo <= a -> a + 8 <= br -> a mod 8 = 0 ->
                              mapped s' a = true).
  { intros a H1 H2 H3. apply mapped_iff. rewrite Hb1, Hb2. tauto. }
  assert (Hnear : forall a, a = c - 8 \/ a = c \/ a = c + sz - 8 \/ a = c + sz ->
                            mem s' !! a = m1 !! a).
  { intros a Ha. apply Hfr; [lia|lia|].
    intros n Hn. rewrite Forall_forall in Hcl. specialize (Hcl n Hn).
    simpl in Hcl. lia. }
  exists s'. split; [|split; [|split; [|split; [|split]]]].
  - unfold free. consts.
    assert (Hp : (c + 8 =? 0) = false) by (apply Z.eqb_neq; lia).
    rewrite Hp. cbn [negb].
    unfold malloc_fnode_release. consts. wsimpl. wrewrite.
    replace (c + 8 - 8) with c by lia.
    repeat step. rewrite Hhv, Hsz. repeat step.
    unfold malloc_fnode_assign_free. consts. wsimpl. wrewrite.
    rewrite !exec_assoc. repeat step.
    exact Hins.
  - apply load_intro; [apply Hmapped; lia|].
    rewrite Hnear by lia. unfold m1. lookup_tac. reflexivity.
  - apply load_intro; [apply Hmapped; try lia; modarith|].
    rewrite Hnear by lia. unfold m1. lookup_tac. reflexivity.
  - unfold ISUSED. change 1 with (Z.ones 1). rewrite Z.land_ones by lia.
    change (2 ^ 1) with 2. modarith.
  - unfold free_list. rewrite exec_get.
    apply lseg_flist_walk; [exact Hseg'|]. rewrite length_addr_insert. lia.
  - split; [apply load_intro; [apply Hmapped; try lia; modarith|];
            rewrite Hlp; reflexivity|].
    split; [apply load_intro; [apply Hmapped; try lia; modarith|];
            rewrite Hln; reflexivity|].
    split; [|split; [|split]].
    + intros Hp. destruct (Hpn Hp) as ((Hp1 & Hp2 & Hp3) & Hpv).
      simpl in Hp1, Hp2. consts.
      apply load_intro; [apply Hmapped; try lia; modarith|].
      rewrite Hpv. reflexivity.
    + intros Hn. destruct (Hnp Hn) as ((Hn1 & Hn2 & Hn3) & Hnv).
      simpl in Hn1, Hn2. consts.
      apply load_intro; [apply Hmapped; try lia; modarith|].
      rewrite Hnv. reflexivity.
    + rewrite Hnear by lia. unfold m1. lookup_tac. reflexivity.
    + rewrite Hnear by lia. unfold m1. lookup_tac. reflexivity.
Qed.

Lemma release_inserts_without_fusion_witness :
  (exists s',
    free FUEL (BRK0 + 8 + FENCE_SIZE) small_block = Some (tt, s') /\
    load (BRK0 + 8) s' = Some (4080, s') /\
    load (BRK0 + 8 + 4080 - FENCE_SIZE) s' = Some (4080, s') /\
    ISUSED 4080 = 0 /\
    free_list (S FUEL) s' = Some (addr_insert (BRK0 + 8) [BRK0 + 40], s') /\
    load (BRK0 + 8 + OFF_PREV) s' =
      Some (list_prev (BRK0 + 8) [BRK0 + 40] NULL, s') /\
    load (BRK0 + 8 + OFF_NEXT) s' = Some (list_next (BRK0 + 8) [BRK0 + 40], s') /\
    (list_prev (BRK0 + 8) [BRK0 + 40] NULL <> NULL ->
     load (list_prev (BRK0 + 8) [BRK0 + 40] NULL + OFF_NEXT) s' =
       Some (BRK0 + 8, s')) /\
    (list_next (BRK0 + 8) [BRK0 + 40] <> NULL ->
     load (list_next (BRK0 + 8) [BRK0 + 40] + OFF_PREV) s' =
       Some (BRK0 + 8, s')) /\
    mem s' !! (BRK0 + 8 - FENCE_SIZE) = mem small_block !! (BRK0 + 8 - FENCE_SIZE) /\
    mem s' !! (BRK0 + 8 + 4080) = mem small_block !! (BRK0 + 8 + 4080)) /\
  (exists s',
    free FUEL (BRK0 + 4088 + FENCE_SIZE) first_released = Some (tt, s') /\
    load (BRK0 + 4088) s' = Some (4096, s') /\
    load (BRK0 + 4088 + 4096 - FENCE_SIZE) s' = Some (4096, s') /\
    ISUSED 4096 = 0 /\
    free_list (S FUEL) s' = Some (addr_insert (BRK0 + 4088) [BRK0 + 8], s') /\
    load (BRK0 + 4088 + OFF_PREV) s' =
      Some (list_prev (BRK0 + 4088) [BRK0 + 8] NULL, s') /\
    load (BRK0 + 4088 + OFF_NEXT) s' =
      Some (list_next (BRK0 + 4088) [BRK0 + 8], s') /\
    (list_prev (BRK0 + 4088) [BRK0 + 8] NULL <> NULL ->
     load (list_prev (BRK0 + 4088) [BRK0 + 8] NULL + OFF_NEXT) s' =
       Some (BRK0 + 4088, s')) /\
    (list_next (BRK0 + 4088) [BRK0 + 8] <> NULL ->
     load (list_next (BRK0 + 4088) [BRK0 + 8] + OFF_PREV) s' =
       Some (BRK0 + 4088, s')) /\
    mem s' !! (BRK0 + 4088 - FENCE_SIZE) =
      mem first_released !! (BRK0 + 4088 - FENCE_SIZE) /\
    mem s' !! (BRK0 + 4088 + 4096) = mem first_released !! (BRK0 + 4088 + 4096)).
Proof.
  split.
  - apply (release_inserts_without_fusion FUEL small_block (BRK0 + 8) 4081
             4080 [BRK0 + 40]).
    + by_compute.
    + vm_compute. reflexivity.
    + reflexivity.
    + by_compute.
    + reflexivity.
    + by_compute.
    + vm_compute. reflexivity.
    + vm_compute. reflexivity.
    + reflexivity.
    + reflexivity.
  - apply (release_inserts_without_fusion FUEL first_released (BRK0 + 4088) 4097
             4096 [BRK0 + 8]).
    + by_compute.
    + vm_compute. reflexivity.
    + reflexivity.
    + by_compute.
    + reflexivity.
    + by_compute.
    + vm_compute. reflexivity.
    + vm_compute. reflexivity.
    + reflexivity.
    + reflexivity.
Defined.

(** C4, the claim as stated fails.  Two whole-page blocks are allocated
    and both released.  Forward fence traversal then meets two chunks,
    the second starting where the first ends, both with the used bit
    clear and both on the free list: adjacent free chunks that were not
    coalesced. *)
Lemma adjacent_free_chunks_remain :
  exists a b cs fl,
    result_of test_no_fusion virgin = Some (a, b, cs, fl) /\
    cs = [(BRK0 + 8, 4080); (BRK0 + 8 + 4080, 4096)] /\
    fl = cs.*1 /\
    coalesced cs = false.
Proof.
  do 4 eexists. split; [vm_compute; reflexivity|]. repeat split.
Qed.
(** ** The macros: tag bit and roundings *)

Lemma land_1_mod x : Z.land x 1 = x mod 2.
Proof. change 1 with (Z.ones 1). rewrite Z.land_ones by lia. reflexivity. Qed.

Lemma lor_1_even_part x : Z.lor x 1 = x - x mod 2 + 1.
Proof.
  rewrite <- (Z.add_0_r (Z.lor x 1)).
  replace 0 with (Z.land x 1 - x mod 2) at 1 by (rewrite land_1_mod; lia).
  pose proof (Z.add_lor_land x 1). lia.
Qed.

Lemma GETSIZE_even_part x : 0 <= x < Word.modulus -> GETSIZE x = x - x mod 2.
Proof.
  intros Hx. unfold GETSIZE, Word.shl, Word.shr.
  rewrite Z.shiftr_div_pow2, Z.shiftl_mul_pow2 by lia.
  change (2 ^ 1) with 2.
  pose proof (Z.div_mod x 2 ltac:(lia)). pose proof (Z.mod_pos_bound x 2 ltac:(lia)).
  unfold Word.wrap. rewrite Z.mod_small by lia. lia.
Qed.

Lemma SET_FREE_even_part x : 0 <= x < Word.modulus -> SET_FREE x = x - x mod 2.
Proof.
  intros Hx.
  pose proof (Z.div_mod x 2 ltac:(lia)) as Hdm.
  pose proof (Z.mod_pos_bound x 2 ltac:(lia)) as Hmb.
  assert (He : SET_FREE (x - x mod 2) = x - x mod 2).
  { apply SET_FREE_even; [lia|]. replace (x - x mod 2) with (x / 2 * 2) by lia.
    apply Z.mod_mul. lia. }
  rewrite <- He. unfold SET_FREE.
  apply Z.bits_inj'. intros n Hn. rewrite !Z.land_spec.
  destruct (Z.eq_dec n 0) as [->|Hn0].
  - change (Z.testbit (Word.not 1) 0) with false. rewrite !andb_false_r. reflexivity.
  - f_equal. replace (x - x mod 2) with (2 * (x / 2)) by lia.
    replace x with (2 * (x / 2) + x mod 2) at 1 by lia.
    replace n with (Z.succ (n - 1)) by lia.
    destruct (Z.eq_dec (x mod 2) 0) as [->|H1].
    + rewrite Z.add_0_r. reflexivity.
    + replace (x mod 2) with 1 by lia.
      rewrite Z.testbit_odd_succ, Z.testbit_even_succ by lia. reflexivity.
Qed.

(** X4 (tag bit).  On every 64-bit word the four macros split the word
    into an even size and a used bit and put them together again:
    [GETSIZE] and [SET_FREE] both clear bit 0 and nothing else,
    [SET_USED] sets it and nothing else, [ISUSED] reads it.  Marking a
    word used or free leaves its size, and a word is its size plus its
    used bit. *)
Theorem tag_bit_round_trip x :
  0 <= x < Word.modulus ->
  x = GETSIZE x + ISUSED x /\
  SET_FREE x = GETSIZE x /\
  GETSIZE (SET_USED x) = GETSIZE x /\ ISUSED (SET_USED x) = 1 /\
  GETSIZE (SET_FREE x) = GETSIZE x /\ ISUSED (SET_FREE x) = 0 /\
  SET_FREE (SET_USED x) = GETSIZE x /\ SET_USED (SET_FREE x) = SET_USED x.
Proof.
  intros Hx.
  pose proof (Z.div_mod x 2 ltac:(lia)) as Hdm.
  pose proof (Z.mod_pos_bound x 2 ltac:(lia)) as Hmb.
  assert (Hev : (x - x mod 2) mod 2 = 0).
  { replace (x - x mod 2) with (x / 2 * 2) by lia. apply Z.mod_mul. lia. }
  assert (Hod : (x - x mod 2 + 1) mod 2 = 1).
  { replace (x - x mod 2 + 1) with (1 + x / 2 * 2) by lia.
    rewrite Z.mod_add by lia. reflexivity. }
  assert (Hup : 0 <= x - x mod 2 + 1 < Word.modulus).
  { split; [lia|]. rewrite modulus_eq in *.
    destruct (Z.eq_dec (x mod 2) 1); [lia|].
    assert (x mod 2 = 0) by lia.
    assert (x <> 18446744073709551615); [|lia].
    intros ->. vm_compute in H. discriminate. }
  unfold ISUSED, SET_USED. rewrite !land_1_mod, !lor_1_even_part.
  rewrite ?SET_FREE_even_part, ?GETSIZE_even_part by lia.
  rewrite ?SET_FREE_even_part, ?GETSIZE_even_part by lia.
  rewrite Hev, Hod. repeat split; lia.
Qed.

Lemma tag_bit_round_trip_witness :
  4081 = GETSIZE 4081 + ISUSED 4081 /\
  SET_FREE 4081 = GETSIZE 4081 /\
  GETSIZE (SET_USED 4081) = GETSIZE 4081 /\ ISUSED (SET_USED 4081) = 1 /\
  GETSIZE (SET_FREE 4081) = GETSIZE 4081 /\ ISUSED (SET_FREE 4081) = 0 /\
  SET_FREE (SET_USED 4081) = GETSIZE 4081 /\
  SET_USED (SET_FREE 4081) = SET_USED 4081.
Proof. apply (tag_bit_round_trip 4081). by_compute. Defined.

(* the rounding idiom of ROUNDUP_8 and ROUNDUP_16, for a granule of
   [2 ^ k] bytes *)
Lemma roundup_shift k x :
  0 < k < 64 -> 0 <= x < Word.modulus ->
  let r := Word.shl (Word.add (Word.shr (Word.sub x 1) k) 1) k in
  (0 < x <= Word.modulus - 2 ^ k -> r mod 2 ^ k = 0 /\ x <= r < x + 2 ^ k) /\
  (x = 0 \/ Word.modulus - 2 ^ k < x -> r = 0).
Proof.
  intros Hk Hx r. subst r.
  assert (Hp : 0 < 2 ^ k) by (apply Z.pow_pos_nonneg; lia).
  assert (Hm : Word.modulus = 2 ^ (64 - k) * 2 ^ k).
  { rewrite <- Z.pow_add_r by lia. replace (64 - k + k) with 64 by lia. reflexivity. }
  assert (Hq : 0 < 2 ^ (64 - k)) by (apply Z.pow_pos_nonneg; lia).
  assert (Hle : 2 ^ k <= Word.modulus) by nia.
  unfold Word.shl, Word.shr. rewrite Z.shiftr_div_pow2, Z.shiftl_mul_pow2 by lia.
  split.
  - intros Hr. rewrite sub_small by lia.
    pose proof (Z.div_mod (x - 1) (2 ^ k) ltac:(lia)) as Hdm.
    pose proof (Z.mod_pos_bound (x - 1) (2 ^ k) ltac:(lia)) as Hmb.
    assert (0 <= (x - 1) / 2 ^ k) by (apply Z.div_pos; lia).
    rewrite add_small by nia. rewrite wrap_small by nia.
    split; [apply Z.mod_mul; lia|nia].
  - intros Hr.
    assert (Hd : Word.sub x 1 / 2 ^ k = 2 ^ (64 - k) - 1).
    { destruct Hr as [->|Hr].
      - change (Word.sub 0 1) with (Word.modulus - 1).
        symmetry. apply Z.div_unique with (r := 2 ^ k - 1); [lia|]. rewrite Hm. lia.
      - rewrite sub_small by lia.
        symmetry. apply Z.div_unique with (r := x - 1 - (Word.modulus - 2 ^ k)); [lia|].
        rewrite Hm. lia. }
    assert (H2k : 2 <= 2 ^ k).
    { change 2 with (2 ^ 1) at 1. apply Z.pow_le_mono_r; lia. }
    rewrite Hd. rewrite add_small by nia.
    replace (2 ^ (64 - k) - 1 + 1) with (2 ^ (64 - k)) by lia.
    rewrite <- Hm. unfold Word.wrap. apply Z.mod_same. rewrite modulus_eq. lia.
Qed.

(** X5 (rounding to 8 and 16).  On 64-bit words, [ROUNDUP_16 x] is the
    least multiple of 16 that is at least [x], as long as that multiple
    fits the word: for [0 < x <= 2^64 - 16].  For [x = 0], and for [x]
    above [2^64 - 16], the shift wraps and the result is 0.  The same
    holds of [ROUNDUP_8] with 8 in place of 16. *)
Theorem shift_roundings x :
  0 <= x < Word.modulus ->
  (0 < x <= Word.modulus - 16 ->
   ROUNDUP_16 x mod 16 = 0 /\ x <= ROUNDUP_16 x < x + 16) /\
  (x = 0 \/ Word.modulus - 16 < x -> ROUNDUP_16 x = 0) /\
  (0 < x <= Word.modulus - 8 ->
   ROUNDUP_8 x mod 8 = 0 /\ x <= ROUNDUP_8 x < x + 8) /\
  (x = 0 \/ Word.modulus - 8 < x -> ROUNDUP_8 x = 0).
Proof.
  intros Hx.
  destruct (roundup_shift 4 x ltac:(lia) Hx) as [H16 H16'].
  destruct (roundup_shift 3 x ltac:(lia) Hx) as [H8 H8'].
  change (2 ^ 4) with 16 in *. change (2 ^ 3) with 8 in *.
  repeat split; intros; first [apply H16|apply H16'|apply H8|apply H8']; assumption.
Qed.

Lemma shift_roundings_witness :
  (0 < 17 <= Word.modulus - 16 ->
   ROUNDUP_16 17 mod 16 = 0 /\ 17 <= ROUNDUP_16 17 < 17 + 16) /\
  (17 = 0 \/ Word.modulus - 16 < 17 -> ROUNDUP_16 17 = 0) /\
  (0 < 17 <= Word.modulus - 8 ->
   ROUNDUP_8 17 mod 8 = 0 /\ 17 <= ROUNDUP_8 17 < 17 + 8) /\
  (17 = 0 \/ Word.modulus - 8 < 17 -> ROUNDUP_8 17 = 0).
Proof. apply (shift_roundings 17). by_compute. Defined.

(* requests that do not wrap *)
Lemma ROUNDUP_CHUNK_facts n :
  0 <= n <= Word.modulus - 32 ->
  ROUNDUP_CHUNK n mod 16 = 0 /\ 32 <= ROUNDUP_CHUNK n /\
  n + 16 <= ROUNDUP_CHUNK n /\ ROUNDUP_CHUNK n < MAX n 16 + 32.
Proof.
  intros Hn. unfold ROUNDUP_CHUNK, MAX, DIFF_OVERHEAD, FENCE_OVERHEAD,
    NODE_SIZE, FENCE_SIZE.
  change (24 - 8) with 16. change (2 * 8) with 16.
  rewrite modulus_eq in *.
  destruct (16 <? n) eqn:E; [apply Z.ltb_lt in E|apply Z.ltb_ge in E].
  - rewrite add_small by (rewrite modulus_eq; lia).
    destruct (roundup_shift 4 (n + 16)) as [H _]; [lia|rewrite modulus_eq; lia|].
    change (2 ^ 4) with 16 in H. rewrite modulus_eq in H.
    specialize (H ltac:(lia)). fold (ROUNDUP_16 (n + 16)) in H. lia.
  - change (ROUNDUP_16 (Word.add 16 16)) with 32. repeat split; lia.
Qed.

(* requests so large that adding the fences wraps the size word *)
Lemma ROUNDUP_CHUNK_wraps n :
  (Word.modulus - 32 < n <= Word.modulus - 16 -> ROUNDUP_CHUNK n = 0) /\
  (Word.modulus - 16 < n < Word.modulus -> ROUNDUP_CHUNK n = 16).
Proof.
  unfold ROUNDUP_CHUNK, MAX, DIFF_OVERHEAD, FENCE_OVERHEAD, NODE_SIZE, FENCE_SIZE.
  change (24 - 8) with 16. change (2 * 8) with 16.
  pose proof modulus_eq as HM. split; intros Hn.
  - assert ((16 <? n) = true) as -> by (apply Z.ltb_lt; lia).
    destruct (Z.eq_dec n (Word.modulus - 16)) as [->|Hne].
    + reflexivity.
    + rewrite add_small by lia.
      destruct (roundup_shift 4 (n + 16)) as [_ H]; [lia|lia|].
      apply H. right. change (2 ^ 4) with 16. lia.
  - assert ((16 <? n) = true) as -> by (apply Z.ltb_lt; lia).
    assert (Hw : Word.add n 16 = n + 16 - Word.modulus).
    { unfold Word.add, Word.wrap. symmetry.
      apply Z.mod_unique with (q := 1); lia. }
    rewrite Hw.
    destruct (roundup_shift 4 (n + 16 - Word.modulus)) as [H1 _]; [lia|lia|].
    change (2 ^ 4) with 16 in *.
    specialize (H1 ltac:(lia)).
    fold (ROUNDUP_16 (n + 16 - Word.modulus)) in H1.
    destruct H1 as [Hmod Hr].
    set (r := ROUNDUP_16 (n + 16 - Word.modulus)) in *.
    pose proof (Z.div_mod r 16 ltac:(lia)).
    assert (r / 16 = 1) by lia. lia.
Qed.

(** X6 (chunk size of a request).  For a request of [n] bytes with
    [n <= 2^64 - 32], [ROUNDUP_CHUNK n] is a multiple of 16, at least
    [NODE_OVERHEAD] (so a released chunk can hold a free node) and at
    least [n + FENCE_OVERHEAD] (so the payload holds [n] bytes), and it
    wastes less than 16 bytes beyond that.  For larger [n] the sum wraps:
    the chunk size comes out as 0 or 16, smaller than any chunk. *)
Theorem ROUNDUP_CHUNK_spec n :
  0 <= n < Word.modulus ->
  (n <= Word.modulus - 32 ->
   ROUNDUP_CHUNK n mod ALIGN_SIZE = 0 /\
   NODE_OVERHEAD <= ROUNDUP_CHUNK n /\
   n + FENCE_OVERHEAD <= ROUNDUP_CHUNK n /\
   ROUNDUP_CHUNK n < MAX n DIFF_OVERHEAD + FENCE_OVERHEAD + ALIGN_SIZE) /\
  (Word.modulus - 32 < n <= Word.modulus - 16 -> ROUNDUP_CHUNK n = 0) /\
  (Word.modulus - 16 < n -> ROUNDUP_CHUNK n = FENCE_OVERHEAD).
Proof.
  intros Hn. split; [|split].
  - intros Hle. destruct (ROUNDUP_CHUNK_facts n) as (H1 & H2 & H3 & H4); [lia|].
    unfold ALIGN_SIZE, SIZE_T_SIZE, NODE_OVERHEAD, FENCE_OVERHEAD, DIFF_OVERHEAD,
      NODE_SIZE, FENCE_SIZE.
    change (2 * 8) with 16. change (24 + 8) with 32. change (24 - 8) with 16.
    repeat split; lia.
  - apply ROUNDUP_CHUNK_wraps.
  - intros Hgt. apply ROUNDUP_CHUNK_wraps. lia.
Qed.

Lemma ROUNDUP_CHUNK_spec_witness :
  (100 <= Word.modulus - 32 ->
   ROUNDUP_CHUNK 100 mod ALIGN_SIZE = 0 /\
   NODE_OVERHEAD <= ROUNDUP_CHUNK 100 /\
   100 + FENCE_OVERHEAD <= ROUNDUP_CHUNK 100 /\
   ROUNDUP_CHUNK 100 < MAX 100 DIFF_OVERHEAD + FENCE_OVERHEAD + ALIGN_SIZE) /\
  (Word.modulus - 32 < 100 <= Word.modulus - 16 -> ROUNDUP_CHUNK 100 = 0) /\
  (Word.modulus - 16 < 100 -> ROUNDUP_CHUNK 100 = FENCE_OVERHEAD).
Proof. apply (ROUNDUP_CHUNK_spec 100). by_compute. Defined.

(* no wrap-around: the quotient form of ROUNDUP_PAGE *)
Lemma ROUNDUP_PAGE_exact ps x :
  0 < ps -> 0 < x -> x + ps <= Word.modulus ->
  ROUNDUP_PAGE ps x = ((x - 1) / ps + 1) * ps /\
  x <= ((x - 1) / ps + 1) * ps < x + ps.
Proof.
  intros Hps Hx Hfit. unfold ROUNDUP_PAGE.
  rewrite sub_small by lia.
  pose proof (Z.div_mod (x - 1) ps ltac:(lia)) as Hdm.
  pose proof (Z.mod_pos_bound (x - 1) ps ltac:(lia)) as Hmb.
  assert (0 <= (x - 1) / ps) by (apply Z.div_pos; lia).
  rewrite add_small by nia. unfold Word.mul. rewrite wrap_small by nia.
  split; [reflexivity|nia].
Qed.

(** X7 (rounding to pages).  With a page size [ps > 0], [ROUNDUP_PAGE]
    takes a byte count [x > 0] to the least multiple of [ps] that is at
    least [x], provided that multiple fits the size word; a byte count
    that is a multiple of [ps] already is left as it is. *)
Theorem ROUNDUP_PAGE_spec ps x :
  0 < ps -> 0 < x -> x + ps <= Word.modulus ->
  ROUNDUP_PAGE ps x mod ps = 0 /\
  x <= ROUNDUP_PAGE ps x < x + ps /\
  (forall y, y mod ps = 0 -> x <= y -> ROUNDUP_PAGE ps x <= y) /\
  (x mod ps = 0 -> ROUNDUP_PAGE ps x = x).
Proof.
  intros Hps Hx Hfit.
  destruct (ROUNDUP_PAGE_exact ps x Hps Hx Hfit) as [-> Hr].
  set (q := (x - 1) / ps + 1) in *.
  split; [apply Z.mod_mul; lia|]. split; [exact Hr|]. split.
  - intros y Hy Hxy.
    pose proof (Z.div_mod y ps ltac:(lia)) as Hdm. rewrite Hy in Hdm.
    assert (q <= y / ps); [|nia].
    destruct (Z_lt_le_dec (y / ps) q) as [Hlt|]; [exfalso|lia]. nia.
  - intros Hxm.
    pose proof (Z.div_mod x ps ltac:(lia)) as Hdm. rewrite Hxm in Hdm.
    assert (q = x / ps); [|nia].
    assert (q <= x / ps) by (destruct (Z_lt_le_dec (x / ps) q); [exfalso; nia|lia]).
    assert (x / ps <= q) by (destruct (Z_lt_le_dec q (x / ps)); [exfalso; nia|lia]).
    lia.
Qed.

Lemma ROUNDUP_PAGE_spec_witness :
  ROUNDUP_PAGE 4096 5000 mod 4096 = 0 /\
  5000 <= ROUNDUP_PAGE 4096 5000 < 5000 + 4096 /\
  (forall y, y mod 4096 = 0 -> 5000 <= y -> ROUNDUP_PAGE 4096 5000 <= y) /\
  (5000 mod 4096 = 0 -> ROUNDUP_PAGE 4096 5000 = 5000).
Proof. apply (ROUNDUP_PAGE_spec 4096 5000); by_compute. Defined.

(** ** highest and the guard of calloc, exactly *)

(* number of binary digits *)
Lemma bit_length_half x :
  0 < x ->
  Z.log2 x + 1 = (if Word.shr x 1 =? 0 then 0 else Z.log2 (Word.shr x 1) + 1) + 1.
Proof.
  intros Hx. unfold Word.shr.
  destruct (Z.shiftr x 1 =? 0) eqn:E.
  - apply Z.eqb_eq in E. rewrite Z.shiftr_div_pow2 in E by lia.
    change (2 ^ 1) with 2 in E.
    pose proof (Z.div_mod x 2 ltac:(lia)). pose proof (Z.mod_pos_bound x 2 ltac:(lia)).
    assert (x = 1) as -> by lia. reflexivity.
  - apply Z.eqb_neq in E. rewrite Z.log2_shiftr by lia.
    assert (0 < Z.shiftr x 1).
    { pose proof (Z.shiftr_nonneg x 1). lia. }
    assert (1 <= Z.log2 x); [|lia].
    destruct (Z_lt_le_dec (Z.log2 x) 1) as [Hl|]; [exfalso|lia].
    pose proof (Z.log2_nonneg x).
    assert (Z.log2 x = 0) as Hz by lia.
    apply Z.log2_null in Hz. assert (x = 1) as -> by lia. apply E. reflexivity.
Qed.

Lemma highest_loop_exact (k : nat) :
  forall inp nb fuel,
    0 <= inp < 2 ^ Z.of_nat k -> 0 <= nb -> nb + Z.of_nat k < Word.modulus ->
    (k < fuel)%nat ->
    highest_loop fuel inp nb =
    Some (nb + (if inp =? 0 then 0 else Z.log2 inp + 1)).
Proof.
  induction k as [|k IH]; intros inp nb fuel Hin Hnb Hsum Hfuel;
    destruct fuel as [|fuel]; try lia; simpl highest_loop.
  - assert (inp = 0) by (simpl in Hin; lia). subst inp. simpl.
    rewrite Z.add_0_r. reflexivity.
  - destruct (inp =? 0) eqn:E; simpl.
    + rewrite Z.add_0_r. reflexivity.
    + apply Z.eqb_neq in E.
      assert (Hhalf : 0 <= Word.shr inp 1 < 2 ^ Z.of_nat k).
      { unfold Word.shr. rewrite Z.shiftr_div_pow2 by lia.
        replace (2 ^ 1) with 2 by reflexivity.
        rewrite Nat2Z.inj_succ, Z.pow_succ_r in Hin by lia.
        split; [apply Z.div_pos; lia|apply Z.div_lt_upper_bound; lia]. }
      rewrite add_small by lia.
      rewrite (IH (Word.shr inp 1) (nb + 1) fuel Hhalf) by lia.
      rewrite (bit_length_half inp) by lia. f_equal. lia.
Qed.

(* on a 64-bit word the loop of [highest] ends within 65 rounds *)
Lemma highest_exact fuel x s :
  (64 < fuel)%nat -> 0 <= x < Word.modulus ->
  highest fuel x s = Some ((if x =? 0 then 0 else Z.log2 x + 1), s).
Proof.
  intros Hf Hx. unfold highest.
  rewrite (highest_loop_exact 64 x 0 fuel);
    [reflexivity| |lia|rewrite modulus_eq; simpl; lia|exact Hf].
  rewrite modulus_eq in Hx. simpl. lia.
Qed.

Lemma bit_length_bounds x :
  0 <= x < Word.modulus ->
  0 <= (if x =? 0 then 0 else Z.log2 x + 1) <= 64.
Proof.
  intros Hx. destruct (x =? 0) eqn:E; [lia|]. apply Z.eqb_neq in E.
  pose proof (Z.log2_nonneg x).
  assert (Z.log2 x < 64); [|lia].
  apply Z.log2_lt_pow2; [lia|]. rewrite modulus_eq in Hx. simpl. lia.
Qed.

(** X8 (bit length).  [highest x] returns, without touching the state,
    the number [h] of binary digits of [x]: the least [h] with
    [x < 2^h], which is 0 exactly for [x = 0] and at most 64. *)
Theorem highest_is_bit_length fuel x s :
  (64 < fuel)%nat -> 0 <= x < Word.modulus ->
  exists h,
    highest fuel x s = Some (h, s) /\
    0 <= h <= 64 /\ x < 2 ^ h /\
    (forall i, 0 <= i < h -> 2 ^ i <= x) /\
    (h = 0 <-> x = 0).
Proof.
  intros Hf Hx. eexists. split; [apply highest_exact; assumption|].
  split; [apply bit_length_bounds; exact Hx|].
  destruct (x =? 0) eqn:E; [apply Z.eqb_eq in E|apply Z.eqb_neq in E].
  - subst x. repeat split; try reflexivity; intros; lia.
  - destruct (Z.log2_spec x ltac:(lia)) as [Hlo Hhi].
    pose proof (Z.log2_nonneg x).
    replace (Z.succ (Z.log2 x)) with (Z.log2 x + 1) in Hhi by lia.
    split; [exact Hhi|]. split; [|split; intros; lia].
    intros h' Hh'. eapply Z.le_trans; [|exact Hlo].
    apply Z.pow_le_mono_r; lia.
Qed.

Lemma highest_is_bit_length_witness :
  exists h,
    highest 65 4096 virgin = Some (h, virgin) /\
    0 <= h <= 64 /\ 4096 < 2 ^ h /\
    (forall i, 0 <= i < h -> 2 ^ i <= 4096) /\
    (h = 0 <-> 4096 = 0).
Proof. apply (highest_is_bit_length 65 4096 virgin); [lia|by_compute]. Defined.

(** X9 (what the guard of calloc lets through).  Every pair whose product
    is below [2^63] passes the guard: calloc then is malloc of the exact
    product followed by the clearing loop.  The bound is sharp, the guard
    being a test on bit lengths: [2^32 * 2^31 = 2^63] fits the size word
    and is turned away all the same. *)
Theorem calloc_accepts_products_below_2_63 fuel number size s :
  (64 < fuel)%nat ->
  0 <= number < Word.modulus -> 0 <= size < Word.modulus ->
  number * size < 2 ^ 63 ->
  calloc fuel number size s =
    (r <- malloc fuel (number * size) ;;
     (if negb (r =? NULL)
      then calloc_loop fuel r
             (Word.add r (Word.mul (number * size / SIZE_T_SIZE) SIZE_T_SIZE))
      else ret tt) ;;
     ret r) s /\
  calloc fuel (2 ^ 32) (2 ^ 31) s = Some (NULL, set_errno ENOMEM s).
Proof.
  intros Hf Hn Hs Hprod. split.
  - unfold calloc. unfold bind at 1.
    rewrite (highest_exact fuel number s Hf Hn).
    unfold bind at 1.
    rewrite (highest_exact fuel size s Hf Hs).
    pose proof (bit_length_bounds number Hn) as Hbn.
    pose proof (bit_length_bounds size Hs) as Hbs.
    rewrite add_small by (rewrite modulus_eq; lia).
    assert (Hsum : (if number =? 0 then 0 else Z.log2 number + 1) +
                   (if size =? 0 then 0 else Z.log2 size + 1) <= 64).
    { destruct (number =? 0) eqn:En; [lia|]. destruct (size =? 0) eqn:Es; [lia|].
      apply Z.eqb_neq in En, Es.
      destruct (Z.log2_spec number ltac:(lia)) as [Hln _].
      destruct (Z.log2_spec size ltac:(lia)) as [Hls _].
      pose proof (Z.log2_nonneg number). pose proof (Z.log2_nonneg size).
      assert (Hpow : 2 ^ (Z.log2 number + Z.log2 size) <= number * size).
      { rewrite Z.pow_add_r by lia.
        assert (0 < 2 ^ Z.log2 number) by (apply Z.pow_pos_nonneg; lia).
        assert (0 < 2 ^ Z.log2 size) by (apply Z.pow_pos_nonneg; lia). nia. }
      assert (Z.log2 number + Z.log2 size < 63); [|lia].
      apply (Z.pow_lt_mono_r_iff 2); lia. }
    assert (Hg : (SIZE_T_SIZE * CHAR_BIT <?
                  (if number =? 0 then 0 else Z.log2 number + 1) +
                  (if size =? 0 then 0 else Z.log2 size + 1)) = false).
    { apply Z.ltb_ge. exact Hsum. }
    rewrite Hg.
    assert (Hmul : Word.mul number size = number * size).
    { apply wrap_small. rewrite modulus_eq.
      change (2 ^ 63) with 9223372036854775808 in Hprod. nia. }
    rewrite Hmul. reflexivity.
  - unfold calloc. unfold bind at 1.
    rewrite (highest_exact fuel (2 ^ 32) s Hf) by by_compute.
    unfold bind at 1.
    rewrite (highest_exact fuel (2 ^ 31) s Hf) by by_compute.
    reflexivity.
Qed.

Lemma calloc_accepts_products_below_2_63_witness :
  calloc 65 3 5 virgin =
    (r <- malloc 65 (3 * 5) ;;
     (if negb (r =? NULL)
      then calloc_loop 65 r (Word.add r (Word.mul (3 * 5 / SIZE_T_SIZE) SIZE_T_SIZE))
      else ret tt) ;;
     ret r) virgin /\
  calloc 65 (2 ^ 32) (2 ^ 31) virgin = Some (NULL, set_errno ENOMEM virgin).
Proof.
  apply (calloc_accepts_products_below_2_63 65 3 5 virgin);
    [lia|by_compute|by_compute|reflexivity].
Defined.

(** ** Fencing a chunk, and growing the heap *)

(* a chunk of at least NODE_OVERHEAD bytes inside the heap *)
Lemma assign_free_run start size s :
  os_ok s ->
  brk_lo s <= start -> start mod 8 = 0 ->
  NODE_OVERHEAD <= size -> size mod 8 = 0 -> start + size <= brk s ->
  malloc_fnode_assign_free start size s =
  Some (start,
        set_mem (<[start + 16 := 0]> (<[start + 8 := 0]>
                   (<[start + size - 8 := size]> (<[start := size]> (mem s))))) s).
Proof.
  intros Hos Hlo Hal Hsz Hsz8 Hend.
  destruct s as [ps fl hs er op lo br bm m].
  destruct Hos as (Hlo0 & Hlb & Hbm & Hmod).
  simpl in Hlo0, Hlb, Hbm, Hmod, Hlo, Hend. consts.
  unfold malloc_fnode_assign_free. wsimpl. wrewrite. repeat step.
  rewrite !insert_insert_eq. reflexivity.
Qed.

Lemma assign_used_run start size s :
  os_ok s ->
  brk_lo s <= start -> start mod 8 = 0 ->
  NODE_OVERHEAD <= size -> size mod 8 = 0 -> start + size <= brk s ->
  malloc_fnode_assign_used start size s =
  Some (tt,
        set_mem (<[start + 16 := 0]> (<[start + 8 := 0]>
                   (<[start + size - 8 := SET_USED size]>
                      (<[start := SET_USED size]> (mem s))))) s).
Proof.
  intros Hos Hlo Hal Hsz Hsz8 Hend.
  destruct s as [ps fl hs er op lo br bm m].
  destruct Hos as (Hlo0 & Hlb & Hbm & Hmod).
  simpl in Hlo0, Hlb, Hbm, Hmod, Hlo, Hend. consts.
  unfold malloc_fnode_assign_used. wsimpl. wrewrite. repeat step.
  rewrite !insert_insert_eq. reflexivity.
Qed.

(* reading back the four words written by the two functions above *)
Lemma fenced_words s start size v m :
  os_ok s ->
  brk_lo s <= start -> start mod 8 = 0 ->
  NODE_OVERHEAD <= size -> size mod 8 = 0 -> start + size <= brk s ->
  m = <[start + 16 := 0]> (<[start + 8 := 0]>
        (<[start + size - 8 := v]> (<[start := v]> (mem s)))) ->
  let s' := set_mem m s in
  load start s' = Some (v, s') /\
  load (start + size - FENCE_SIZE) s' = Some (v, s') /\
  load (start + OFF_PREV) s' = Some (NULL, s') /\
  load (start + OFF_NEXT) s' = Some (NULL, s') /\
  (forall a, a <> start -> a <> start + size - FENCE_SIZE ->
             a <> start + OFF_PREV -> a <> start + OFF_NEXT ->
             mem s' !! a = mem s !! a).
Proof.
  intros Hos Hlo Hal Hsz Hsz8 Hend -> s'. subst s'.
  destruct s as [ps fl hs er op lo br bm m0].
  destruct Hos as (Hlo0 & Hlb & Hbm & Hmod).
  simpl in Hlo0, Hlb, Hbm, Hmod, Hlo, Hend. consts. state_simpl.
  repeat (split; [apply load_mk_intro; [lookup_tac; reflexivity|lia|lia|modarith]|]).
  intros a H1 H2 H3 H4. lookup_tac. reflexivity.
Qed.

(** X10 (fencing a free chunk).  For a chunk of at least [NODE_OVERHEAD]
    bytes that lies inside the heap, [malloc_fnode_assign_free] returns
    the chunk start and leaves header and footer holding the same word,
    the size with the used bit clear, and both links null.  It writes
    those four words and nothing else, and changes no global. *)
Theorem assign_free_fences_agree start size s :
  os_ok s ->
  brk_lo s <= start -> start mod 8 = 0 ->
  NODE_OVERHEAD <= size -> size mod 8 = 0 -> start + size <= brk s ->
  exists s',
    malloc_fnode_assign_free start size s = Some (start, s') /\
    load start s' = Some (size, s') /\
    load (start + size - FENCE_SIZE) s' = Some (size, s') /\
    ISUSED size = 0 /\
    load (start + OFF_PREV) s' = Some (NULL, s') /\
    load (start + OFF_NEXT) s' = Some (NULL, s') /\
    s' = set_mem (mem s') s /\
    (forall a, a <> start -> a <> start + size - FENCE_SIZE ->
               a <> start + OFF_PREV -> a <> start + OFF_NEXT ->
               mem s' !! a = mem s !! a).
Proof.
  intros Hos Hlo Hal Hsz Hsz8 Hend.
  eexists. split; [apply assign_free_run; assumption|].
  destruct (fenced_words s start size size _ Hos Hlo Hal Hsz Hsz8 Hend eq_refl)
    as (H1 & H2 & H3 & H4 & H5).
  split; [exact H1|]. split; [exact H2|].
  split; [unfold ISUSED; rewrite land_1_mod; modarith|].
  split; [exact H3|]. split; [exact H4|]. split; [reflexivity|exact H5].
Qed.

Lemma assign_free_fences_agree_witness :
  exists s',
    malloc_fnode_assign_free (BRK0 + 8) 64 full_page = Some (BRK0 + 8, s') /\
    load (BRK0 + 8) s' = Some (64, s') /\
    load (BRK0 + 8 + 64 - FENCE_SIZE) s' = Some (64, s') /\
    ISUSED 64 = 0 /\
    load (BRK0 + 8 + OFF_PREV) s' = Some (NULL, s') /\
    load (BRK0 + 8 + OFF_NEXT) s' = Some (NULL, s') /\
    s' = set_mem (mem s') full_page /\
    (forall a, a <> BRK0 + 8 -> a <> BRK0 + 8 + 64 - FENCE_SIZE ->
               a <> BRK0 + 8 + OFF_PREV -> a <> BRK0 + 8 + OFF_NEXT ->
               mem s' !! a = mem full_page !! a).
Proof.
  apply (assign_free_fences_agree (BRK0 + 8) 64 full_page); by_compute.
Defined.

(** X11 (fencing a used chunk).  For a chunk of at least [NODE_OVERHEAD]
    bytes inside the heap, [malloc_fnode_assign_used] leaves header and
    footer holding the same word, from which [GETSIZE] and [ISUSED] read
    the size and a set used bit, and it clears the first two payload
    words (where the links of a free node live).  It writes those four
    words and nothing else, and changes no global. *)
Theorem assign_used_fences_agree start size s :
  os_ok s ->
  brk_lo s <= start -> start mod 8 = 0 ->
  NODE_OVERHEAD <= size -> size mod 8 = 0 -> start + size <= brk s ->
  exists h s',
    malloc_fnode_assign_used start size s = Some (tt, s') /\
    load start s' = Some (h, s') /\
    load (start + size - FENCE_SIZE) s' = Some (h, s') /\
    GETSIZE h = size /\ ISUSED h = 1 /\
    load (start + OFF_PREV) s' = Some (NULL, s') /\
    load (start + OFF_NEXT) s' = Some (NULL, s') /\
    s' = set_mem (mem s') s /\
    (forall a, a <> start -> a <> start + size - FENCE_SIZE ->
               a <> start + OFF_PREV -> a <> start + OFF_NEXT ->
               mem s' !! a = mem s !! a).
Proof.
  intros Hos Hlo Hal Hsz Hsz8 Hend.
  exists (SET_USED size). eexists. split; [apply assign_used_run; assumption|].
  destruct (fenced_words s start size (SET_USED size) _ Hos Hlo Hal Hsz Hsz8 Hend
              eq_refl) as (H1 & H2 & H3 & H4 & H5).
  split; [exact H1|]. split; [exact H2|].
  assert (Hr : 0 <= size < Word.modulus).
  { destruct Hos as (? & ? & ? & ?). consts. lia. }
  assert (He : size mod 2 = 0) by modarith.
  assert (Hu : SET_USED size = size + 1).
  { unfold SET_USED. rewrite lor_1_even_part. lia. }
  split.
  { rewrite Hu. rewrite GETSIZE_even_part.
    - replace ((size + 1) mod 2) with 1 by modarith. lia.
    - destruct Hos as (? & ? & ? & ?). consts. lia. }
  split; [unfold ISUSED; rewrite land_1_mod, Hu; modarith|].
  split; [exact H3|]. split; [exact H4|]. split; [reflexivity|exact H5].
Qed.

Lemma assign_used_fences_agree_witness :
  exists h s',
    malloc_fnode_assign_used (BRK0 + 8) 64 full_page = Some (tt, s') /\
    load (BRK0 + 8) s' = Some (h, s') /\
    load (BRK0 + 8 + 64 - FENCE_SIZE) s' = Some (h, s') /\
    GETSIZE h = 64 /\ ISUSED h = 1 /\
    load (BRK0 + 8 + OFF_PREV) s' = Some (NULL, s') /\
    load (BRK0 + 8 + OFF_NEXT) s' = Some (NULL, s') /\
    s' = set_mem (mem s') full_page /\
    (forall a, a <> BRK0 + 8 -> a <> BRK0 + 8 + 64 - FENCE_SIZE ->
               a <> BRK0 + 8 + OFF_PREV -> a <> BRK0 + 8 + OFF_NEXT ->
               mem s' !! a = mem full_page !! a).
Proof.
  apply (assign_used_fences_agree (BRK0 + 8) 64 full_page); by_compute.
Defined.

Lemma ROUNDUP_PAGE_bounds ps x :
  0 < ps -> ps mod 8 = 0 -> 0 < x -> x + ps <= Word.modulus ->
  ROUNDUP_PAGE ps x mod 8 = 0 /\ x <= ROUNDUP_PAGE ps x < x + ps.
Proof.
  intros Hps Hal Hx Hfit.
  destruct (ROUNDUP_PAGE_exact ps x Hps Hx Hfit) as [-> Hr].
  split; [|exact Hr].
  rewrite Z.mul_mod by lia. rewrite Hal, Z.mul_0_r. reflexivity.
Qed.

(** X12 (the first pages).  The first time it runs, [malloc_expand] reads
    the page size from the system, asks for the request plus the two
    sentinel fences rounded up to whole pages, say [R] bytes, and lays
    the new memory out as: a sentinel word 1, one free chunk of
    [R - FENCE_OVERHEAD] bytes with agreeing header and footer and null
    links, a sentinel word 1.  It returns that chunk and records its
    address as the heap start; forward fence traversal from there meets
    exactly this chunk.  The free list and all memory below the old break
    are untouched. *)
Theorem expand_first_lays_out_heap size s :
  os_ok s -> PAGE_SIZE s = 0 ->
  0 < os_pagesize s -> os_pagesize s mod 8 = 0 -> brk s mod 8 = 0 ->
  NODE_OVERHEAD <= size ->
  size + FENCE_OVERHEAD + os_pagesize s <= Word.modulus ->
  brk s + grow_request s size <= brk_max s ->
  exists R s',
    R = ROUNDUP_PAGE (os_pagesize s) (size + FENCE_OVERHEAD) /\
    size + FENCE_OVERHEAD <= R < size + FENCE_OVERHEAD + os_pagesize s /\
    malloc_expand size s = Some (brk s + FENCE_SIZE, s') /\
    PAGE_SIZE s' = os_pagesize s /\
    HEAP_START s' = brk s + FENCE_SIZE /\
    brk s' = brk s + R /\
    flist s' = flist s /\
    load (brk s) s' = Some (1, s') /\
    load (brk s + FENCE_SIZE) s' = Some (R - FENCE_OVERHEAD, s') /\
    load (brk s + R - FENCE_OVERHEAD) s' = Some (R - FENCE_OVERHEAD, s') /\
    load (brk s + R - FENCE_SIZE) s' = Some (1, s') /\
    heap_chunks 2 s' = Some ([(brk s + FENCE_SIZE, R - FENCE_OVERHEAD)], s') /\
    (forall a, a < brk s -> mem s' !! a = mem s !! a).
Proof.
  intros Hos Hps0 Hps Hpal Hbal Hsz Hfit Hgrant.
  destruct s as [ps fl hs er op lo br bm m].
  destruct Hos as (Hlo0 & Hlb & Hbm & Hmod).
  unfold grow_request in Hgrant.
  simpl in Hlo0, Hlb, Hbm, Hmod, Hps0, Hps, Hpal, Hbal, Hfit, Hgrant.
  subst ps. change (0 =? 0) with true in Hgrant. cbv iota in Hgrant.
  unfold FENCE_OVERHEAD in *. consts.
  rewrite add_small in Hgrant by lia.
  destruct (ROUNDUP_PAGE_bounds op (size + 2 * 8) Hps Hpal ltac:(lia) ltac:(lia))
    as (HR8 & HRr).
  state_simpl.
  set (R := ROUNDUP_PAGE op (size + 2 * 8)) in *.
  exists R. eexists. split; [reflexivity|]. split; [lia|].
  assert (Hrun : forall A (k : Z -> M A) st,
            st = mkState 0 fl hs er op lo br bm m ->
            bind (malloc_expand size) k st =
            k (br + 8)
              (mkState op fl (br + 8) er op lo (br + R) bm
                 (<[br + 24 := 0]> (<[br + 16 := 0]> (<[br + R - 16 := R - 16]>
                    (<[br + 8 := R - 16]> (<[br + R - 8 := 1]>
                       (<[br := 1]> m)))))))).
  { intros A k st ->. unfold malloc_expand, sysconf_pagesize.
    rewrite !exec_assoc. do 2 step. change (0 =? 0) with true. cbv iota.
    repeat step. unfold FENCE_OVERHEAD. wsimpl. rewrite add_small by lia.
    fold R.
    unfold get_memory at 1. unfold bind at 1. state_simpl.
    assert (Hgm : (br + R <=? bm) = true) by (apply Z.leb_le; lia).
    rewrite Hgm. state_simpl. branch.
    repeat step.
    unfold malloc_fnode_assign_free. wsimpl. wrewrite. rewrite !exec_assoc.
    repeat step.
    replace (br + 8 + (R - 2 * 8) - 8) with (br + R - 16) by lia.
    replace (R - 2 * 8) with (R - 16) by lia.
    repeat step.
    f_equal. f_equal.
    apply map_eq. intros a.
    destruct (Z.eq_dec a (br + 24)) as [->|H1]; [lookup_tac; reflexivity|].
    destruct (Z.eq_dec a (br + 16)) as [->|H2]; [lookup_tac; reflexivity|].
    destruct (Z.eq_dec a (br + R - 16)) as [->|H3]; [lookup_tac; reflexivity|].
    destruct (Z.eq_dec a (br + 8)) as [->|H4]; [lookup_tac; reflexivity|].
    destruct (Z.eq_dec a (br + R - 8)) as [->|H5]; [lookup_tac; reflexivity|].
    destruct (Z.eq_dec a br) as [->|H6]; lookup_tac; reflexivity. }
  split.
  { specialize (Hrun Z ret _ eq_refl). unfold bind, ret in Hrun.
    destruct (malloc_expand size _) as [[r s1]|]; [|discriminate].
    rewrite Hrun. reflexivity. }
  state_simpl. replace (2 * 8) with 16 by reflexivity.
  do 4 (split; [reflexivity|]).
  do 4 (split; [apply load_mk_intro; [lookup_tac; reflexivity|lia|lia|modarith]|]).
  split.
  - unfold heap_chunks. step. cbn [chunk_walk]. wsimpl.
    repeat step. branch.
    rewrite (GETSIZE_even_part (R - 16)) by lia.
    replace ((R - 16) mod 2) with 0 by modarith. rewrite Z.sub_0_r.
    repeat step. replace (br + 8 + (R - 16)) with (br + R - 8) by lia.
    repeat step. reflexivity.
  - intros a Ha. lookup_tac. reflexivity.
Qed.

Lemma expand_first_lays_out_heap_witness :
  exists R s',
    R = ROUNDUP_PAGE (os_pagesize virgin) (32 + FENCE_OVERHEAD) /\
    32 + FENCE_OVERHEAD <= R < 32 + FENCE_OVERHEAD + os_pagesize virgin /\
    malloc_expand 32 virgin = Some (brk virgin + FENCE_SIZE, s') /\
    PAGE_SIZE s' = os_pagesize virgin /\
    HEAP_START s' = brk virgin + FENCE_SIZE /\
    brk s' = brk virgin + R /\
    flist s' = flist virgin /\
    load (brk virgin) s' = Some (1, s') /\
    load (brk virgin + FENCE_SIZE) s' = Some (R - FENCE_OVERHEAD, s') /\
    load (brk virgin + R - FENCE_OVERHEAD) s' = Some (R - FENCE_OVERHEAD, s') /\
    load (brk virgin + R - FENCE_SIZE) s' = Some (1, s') /\
    heap_chunks 2 s' =
      Some ([(brk virgin + FENCE_SIZE, R - FENCE_OVERHEAD)], s') /\
    (forall a, a < brk virgin -> mem s' !! a = mem virgin !! a).
Proof. apply (expand_first_lays_out_heap 32 virgin); by_compute. Defined.

(** X13 (more pages).  Once the page size is known, [malloc_expand] asks
    for the request rounded up to whole pages, say [R] bytes, and turns
    the word that ended the heap, the old end sentinel, into the header
    of a free chunk of exactly [R] bytes: header and footer agree, the
    links are null, and the last word below the new break is a sentinel
    again.  It returns that chunk.  The page size, the heap start, the
    free list and all memory below the old sentinel are untouched. *)
Theorem expand_again_extends_heap size s :
  os_ok s ->
  0 < PAGE_SIZE s -> PAGE_SIZE s mod 8 = 0 ->
  brk_lo s + FENCE_SIZE <= brk s -> brk s mod 8 = 0 ->
  NODE_OVERHEAD <= size -> size + PAGE_SIZE s <= Word.modulus ->
  brk s + grow_request s size <= brk_max s ->
  exists R s',
    R = ROUNDUP_PAGE (PAGE_SIZE s) size /\
    size <= R < size + PAGE_SIZE s /\
    malloc_expand size s = Some (brk s - FENCE_SIZE, s') /\
    brk s' = brk s + R /\
    load (brk s - FENCE_SIZE) s' = Some (R, s') /\
    load (brk s + R - FENCE_OVERHEAD) s' = Some (R, s') /\
    load (brk s - FENCE_SIZE + OFF_PREV) s' = Some (NULL, s') /\
    load (brk s - FENCE_SIZE + OFF_NEXT) s' = Some (NULL, s') /\
    load (brk s + R - FENCE_SIZE) s' = Some (1, s') /\
    (PAGE_SIZE s', HEAP_START s', flist s') =
      (PAGE_SIZE s, HEAP_START s, flist s) /\
    (forall a, a < brk s - FENCE_SIZE -> mem s' !! a = mem s !! a).
Proof.
  intros Hos Hps Hpal Hheap Hbal Hsz Hfit Hgrant.
  destruct s as [ps fl hs er op lo br bm m].
  destruct Hos as (Hlo0 & Hlb & Hbm & Hmod).
  unfold grow_request in Hgrant.
  simpl in Hlo0, Hlb, Hbm, Hmod, Hps, Hpal, Hheap, Hbal, Hfit, Hgrant.
  assert (Hne : (ps =? 0) = false) by (apply Z.eqb_neq; lia).
  rewrite Hne in Hgrant.
  unfold FENCE_OVERHEAD in *. consts.
  destruct (ROUNDUP_PAGE_bounds ps size Hps Hpal ltac:(lia) ltac:(lia))
    as (HR8 & HRr).
  state_simpl.
  set (R := ROUNDUP_PAGE ps size) in *.
  exists R. eexists. split; [reflexivity|]. split; [lia|].
  unfold malloc_expand.
  rewrite ?exec_assoc. step. rewrite Hne. cbv iota. repeat step. fold R.
  unfold get_memory at 1. unfold bind at 1. state_simpl.
  assert (Hgm : (br + R <=? bm) = true) by (apply Z.leb_le; lia).
  rewrite Hgm. state_simpl. wsimpl. branch.
  repeat step.
  unfold malloc_fnode_assign_free. wsimpl. wrewrite. repeat step.
  split; [reflexivity|]. state_simpl.
  split; [reflexivity|].
  replace (2 * 8) with 16 by reflexivity.
  do 5 (split; [apply load_mk_intro; [lookup_tac; reflexivity|lia|lia|modarith]|]).
  split; [reflexivity|].
  intros a Ha. lookup_tac. reflexivity.
Qed.

Lemma expand_again_extends_heap_witness :
  exists R s',
    R = ROUNDUP_PAGE (PAGE_SIZE first_released) 32 /\
    32 <= R < 32 + PAGE_SIZE first_released /\
    malloc_expand 32 first_released =
      Some (brk first_released - FENCE_SIZE, s') /\
    brk s' = brk first_released + R /\
    load (brk first_released - FENCE_SIZE) s' = Some (R, s') /\
    load (brk first_released + R - FENCE_OVERHEAD) s' = Some (R, s') /\
    load (brk first_released - FENCE_SIZE + OFF_PREV) s' = Some (NULL, s') /\
    load (brk first_released - FENCE_SIZE + OFF_NEXT) s' = Some (NULL, s') /\
    load (brk first_released + R - FENCE_SIZE) s' = Some (1, s') /\
    (PAGE_SIZE s', HEAP_START s', flist s') =
      (PAGE_SIZE first_released, HEAP_START first_released,
       flist first_released) /\
    (forall a, a < brk first_released - FENCE_SIZE ->
               mem s' !! a = mem first_released !! a).
Proof. apply (expand_again_extends_heap 32 first_released); by_compute. Defined.

(* the kernel refuses: null, and nothing but the cached page size moves *)
Lemma expand_refused size s :
  brk_max s < brk s + grow_request s size ->
  malloc_expand size s =
    Some (NULL, if PAGE_SIZE s =? 0 then set_PAGE_SIZE (os_pagesize s) s else s).
Proof.
  intros Hrefuse. destruct s as [ps fl hs er op lo br bm m].
  unfold grow_request in Hrefuse. simpl in Hrefuse. state_simpl.
  unfold malloc_expand, sysconf_pagesize. rewrite ?exec_assoc. step.
  destruct (ps =? 0) eqn:E; cbv iota.
  - repeat step.
    unfold get_memory at 1. unfold bind at 1. state_simpl.
    assert (Hgm : (br + ROUNDUP_PAGE op (Word.add size FENCE_OVERHEAD) <=? bm)
                  = false) by (apply Z.leb_gt; lia).
    rewrite Hgm. reflexivity.
  - repeat step.
    unfold get_memory at 1. unfold bind at 1. state_simpl.
    assert (Hgm : (br + ROUNDUP_PAGE ps size <=? bm) = false)
      by (apply Z.leb_gt; lia).
    rewrite Hgm. reflexivity.
Qed.

(* page size known, break still at its initial value: the path for an
   existing heap writes the chunk header below the heap *)
Lemma expand_below_heap size s :
  os_ok s -> 0 < PAGE_SIZE s -> brk s = brk_lo s ->
  brk s + grow_request s size <= brk_max s ->
  malloc_expand size s = None.
Proof.
  intros (Hlo0 & Hlb & Hbm & Hmod) Hps Hbrk Hgrant.
  destruct s as [ps fl hs er op lo br bm m].
  unfold grow_request in Hgrant.
  simpl in Hlo0, Hlb, Hbm, Hmod, Hps, Hbrk, Hgrant. subst br.
  assert (Hne : (ps =? 0) = false) by (apply Z.eqb_neq; lia).
  rewrite Hne in Hgrant.
  unfold malloc_expand. rewrite ?exec_assoc. step.
  rewrite Hne. cbv iota. repeat step.
  pose proof (ROUNDUP_PAGE_nonneg ps size) as HR.
  set (R := ROUNDUP_PAGE ps size) in *.
  unfold get_memory at 1. unfold bind at 1. state_simpl.
  assert (Hgm : (lo + R <=? bm) = true) by (apply Z.leb_le; lia).
  rewrite Hgm. state_simpl. wsimpl. branch.
  unfold bind at 1.
  destruct (store _ 1 _) as [[u s1]|] eqn:Hst; [|reflexivity].
  apply store_inv in Hst as (_ & ->).
  unfold malloc_fnode_assign_free. wsimpl.
  unfold bind at 1. unfold store at 1.
  match goal with |- context [mapped ?st ?a] =>
    assert (Hun : mapped st a = false)
  end.
  { unfold mapped. state_simpl. rewrite modulus_eq in Hmod.
    destruct (Z_lt_le_dec lo 8) as [Hl|Hl].
    - assert (Hw : Word.sub lo 8 = lo - 8 + 18446744073709551616).
      { unfold Word.sub, Word.wrap. symmetry.
        apply Z.mod_unique with (q := -1); rewrite modulus_eq; lia. }
      rewrite Hw. rewrite add_small by (rewrite modulus_eq; lia).
      assert ((lo - 8 + 18446744073709551616 + 0 + 8 <=? lo + R) = false) as ->
        by (apply Z.leb_gt; lia).
      rewrite andb_false_r. reflexivity.
    - rewrite sub_small by (rewrite modulus_eq; lia).
      rewrite add_small by (rewrite modulus_eq; lia).
      assert ((lo <=? lo - 8 + 0) = false) as -> by (apply Z.leb_gt; lia).
      reflexivity. }
  rewrite Hun. reflexivity.
Qed.

(** X14 (pages refused).  When the kernel refuses the bytes asked for,
    [malloc_expand] returns null and leaves the heap, the free list, the
    heap start and errno as they were.  A first call has by then stored
    the page size: the allocator is marked as initialised although it
    has no heap, and the next call that is granted memory takes the path
    for an existing heap, where the header of the new chunk goes to the
    word below the memory obtained.  With the break still at its initial
    value that word lies below the heap, and the call has no result. *)
Theorem expand_refused_keeps_heap size s :
  brk_max s < brk s + grow_request s size ->
  exists s',
    malloc_expand size s = Some (NULL, s') /\
    same_heap s s' /\ errno s' = errno s /\
    PAGE_SIZE s' = (if PAGE_SIZE s =? 0 then os_pagesize s else PAGE_SIZE s) /\
    (os_ok s -> PAGE_SIZE s = 0 -> 0 < os_pagesize s -> brk s = brk_lo s ->
     forall size2,
       brk s' + grow_request s' size2 <= brk_max s' ->
       malloc_expand size2 s' = None).
Proof.
  intros Hrefuse. eexists. split; [apply expand_refused; exact Hrefuse|].
  destruct (PAGE_SIZE s =? 0) eqn:E.
  - split; [repeat split|]. split; [reflexivity|]. split; [reflexivity|].
    intros Hos Hps0 Hop Hbrk size2 Hgrant.
    apply expand_below_heap; assumption.
  - split; [repeat split|]. split; [reflexivity|]. split; [reflexivity|].
    intros _ Hps0. apply Z.eqb_neq in E. contradiction.
Qed.

Lemma expand_refused_keeps_heap_witness :
  exists s',
    malloc_expand 8192 virgin_one_page = Some (NULL, s') /\
    same_heap virgin_one_page s' /\ errno s' = errno virgin_one_page /\
    PAGE_SIZE s' = 4096 /\
    malloc_expand 32 s' = None.
Proof.
  destruct (expand_refused_keeps_heap 8192 virgin_one_page)
    as (s' & Hrun & Hsame & Herr & Hps & Hnext); [by_compute|].
  exists s'. split; [exact Hrun|]. split; [exact Hsame|]. split; [exact Herr|].
  split; [exact Hps|].
  apply Hnext; [by_compute|reflexivity|by_compute|reflexivity|].
  destruct Hsame as (_ & _ & _ & Hlo & Hbrk & Hmax).
  unfold grow_request. rewrite Hps, Hbrk, Hmax. by_compute.
Defined.

(** X15 (a refused first request).  If the very first allocation of a
    process is refused by the kernel, malloc returns null having stored
    the page size and ENOMEM and nothing else.  From then on no request
    is ever served: one the kernel refuses again returns null, and one
    the kernel would grant has no result, because the break is moved and
    the chunk header is then written below the heap. *)
Theorem refused_start_disables_malloc fuel ps lo hi n1 s1 :
  (0 < fuel)%nat -> 0 < ps -> 0 < lo -> lo <= hi -> hi < Word.modulus ->
  malloc fuel n1 (initial ps lo hi) = Some (NULL, s1) ->
  s1 = set_errno ENOMEM (set_PAGE_SIZE ps (initial ps lo hi)) /\
  (forall n2 r s2, malloc fuel n2 s1 = Some (r, s2) -> r = NULL /\ s2 = s1) /\
  (forall n2, lo + ROUNDUP_PAGE ps (ROUNDUP_CHUNK n2) <= hi ->
              malloc fuel n2 s1 = None).
Proof.
  intros Hfuel Hps Hlo Hhi Hmax Hm.
  assert (Hos : os_ok (initial ps lo hi)) by (unfold os_ok, initial; state_simpl; lia).
  destruct (malloc_null_inv _ _ _ _ Hos Hm) as (_ & Hrefuse & _ & _).
  destruct fuel as [|fuel]; [lia|].
  assert (Hs1 : s1 = set_errno ENOMEM (set_PAGE_SIZE ps (initial ps lo hi))).
  { unfold malloc in Hm. rewrite exec_get in Hm. cbn [malloc_find_fit] in Hm.
    change (flist (initial ps lo hi)) with NULL in Hm.
    change (NULL =? NULL) with true in Hm. cbv iota in Hm.
    rewrite exec_ret in Hm. change (NULL =? NULL) with true in Hm. cbv iota in Hm.
    rewrite (exec_bind_Some _ _ _ _ _ (expand_refused _ _ Hrefuse)) in Hm.
    change (NULL =? NULL) with true in Hm. cbn [negb] in Hm.
    rewrite exec_modify in Hm. injection Hm as <-. reflexivity. }
  split; [exact Hs1|]. subst s1.
  assert (Hrun : forall n2,
            malloc (S fuel) n2
              (set_errno ENOMEM (set_PAGE_SIZE ps (initial ps lo hi))) =
            bind (malloc_expand (ROUNDUP_CHUNK n2))
              (fun fit =>
                 if negb (fit =? NULL)
                 then malloc_list_addr_insert (S fuel) fit ;;
                      malloc_fnode_split (S fuel) fit (ROUNDUP_CHUNK n2)
                 else modify (set_errno ENOMEM) ;; ret NULL)
              (set_errno ENOMEM (set_PAGE_SIZE ps (initial ps lo hi)))).
  { intros n2. unfold malloc. rewrite exec_get. cbn [malloc_find_fit].
    change (flist (set_errno ENOMEM (set_PAGE_SIZE ps (initial ps lo hi))))
      with NULL.
    change (NULL =? NULL) with true. cbv iota.
    rewrite exec_ret. change (NULL =? NULL) with true. cbv iota. reflexivity. }
  assert (Hne : (ps =? 0) = false) by (apply Z.eqb_neq; lia).
  assert (Hgr : forall n2,
            grow_request (set_errno ENOMEM (set_PAGE_SIZE ps (initial ps lo hi)))
              (ROUNDUP_CHUNK n2) = ROUNDUP_PAGE ps (ROUNDUP_CHUNK n2)).
  { intros n2. unfold grow_request, initial. state_simpl. rewrite Hne. reflexivity. }
  assert (Hos1 : os_ok (set_errno ENOMEM (set_PAGE_SIZE ps (initial ps lo hi))))
    by exact Hos.
  split.
  - intros n2 r s2 H2. rewrite Hrun in H2.
    destruct (Z_lt_le_dec hi (lo + ROUNDUP_PAGE ps (ROUNDUP_CHUNK n2))) as [Hr|Hg].
    + rewrite (exec_bind_Some _ _ _ _ _
                 (expand_refused (ROUNDUP_CHUNK n2) _
                    ltac:(rewrite Hgr; unfold initial; state_simpl; lia))) in H2.
      unfold initial in H2. cbn [PAGE_SIZE set_errno set_PAGE_SIZE] in H2.
      rewrite Hne in H2.
      change (NULL =? NULL) with true in H2. cbn [negb] in H2.
      rewrite exec_modify in H2. injection H2 as <- <-. split; reflexivity.
    + unfold bind in H2.
      rewrite expand_below_heap in H2;
        [discriminate|exact Hos1|unfold initial; state_simpl; lia|reflexivity|].
      rewrite Hgr. unfold initial. state_simpl. lia.
  - intros n2 Hg. rewrite Hrun. unfold bind.
    rewrite expand_below_heap;
      [reflexivity|exact Hos1|unfold initial; state_simpl; lia|reflexivity|].
    rewrite Hgr. unfold initial. state_simpl. lia.
Qed.

Lemma refused_start_disables_malloc_witness :
  exists s1,
    malloc 1 8192 virgin_one_page = Some (NULL, s1) /\
    s1 = set_errno ENOMEM (set_PAGE_SIZE 4096 virgin_one_page) /\
    (forall n2 r s2, malloc 1 n2 s1 = Some (r, s2) -> r = NULL /\ s2 = s1) /\
    (forall n2, BRK0 + ROUNDUP_PAGE 4096 (ROUNDUP_CHUNK n2) <= BRK0 + 4096 ->
                malloc 1 n2 s1 = None).
Proof.
  eexists. split; [vm_compute; reflexivity|].
  apply (refused_start_disables_malloc 1 4096 BRK0 (BRK0 + 4096) 8192);
    [lia|lia|by_compute|by_compute|by_compute|vm_compute; reflexivity].
Defined.

(** ** Searching the free list *)

Lemma node_ok_size_load s n :
  os_ok s -> node_ok s n ->
  fld n OFF_SIZE = n /\ load n s = Some (default 0 (mem s !! n), s).
Proof.
  intros (Hlo & Hlb & Hbm & Hmod) (H1 & H2 & H3). consts.
  unfold fld. rewrite add_small by lia. rewrite Z.add_0_r.
  split; [reflexivity|]. apply load_ok. apply mapped_iff. repeat split; lia.
Qed.

Lemma find_fit_lseg s size : forall l a fuel,
  os_ok s -> lseg s a l NULL -> Forall (node_ok s) l -> (length l < fuel)%nat ->
  exists r,
    malloc_find_fit fuel a size s = Some (r, s) /\
    ((r = NULL /\
      Forall (fun n => exists v, load n s = Some (v, s) /\ v < size) l) \/
     (exists l1 l2 v,
        l = l1 ++ r :: l2 /\
        Forall (fun n => exists v, load n s = Some (v, s) /\ v < size) l1 /\
        load r s = Some (v, s) /\ size <= v)).
Proof.
  induction l as [|n l IH]; intros a fuel Hos Hseg Hok Hlen;
    destruct fuel as [|fuel]; simpl in Hlen; try lia; simpl in Hseg.
  - subst a. exists NULL. split; [reflexivity|]. left. split; [reflexivity|constructor].
  - destruct Hseg as (-> & Hn & nx & Hnx & Hseg).
    apply Forall_cons in Hok as [Hnok Hok].
    destruct (node_ok_size_load s n Hos Hnok) as [Hfld Hld].
    cbn [malloc_find_fit]. apply Z.eqb_neq in Hn. rewrite Hn.
    unfold bind at 1. rewrite Hfld, Hld.
    destruct (size <=? default 0 (mem s !! n)) eqn:E;
      [apply Z.leb_le in E|apply Z.leb_gt in E].
    + exists n. split; [reflexivity|]. right.
      exists [], l, (default 0 (mem s !! n)). repeat split; [constructor|exact Hld|exact E].
    + unfold bind at 1. rewrite Hnx.
      destruct (IH nx fuel Hos Hseg Hok ltac:(lia)) as (r & Hr & Hcase).
      exists r. split; [exact Hr|].
      assert (Hhere : exists v, load n s = Some (v, s) /\ v < size).
      { eexists. split; [exact Hld|exact E]. }
      destruct Hcase as [(-> & Hall)|(l1 & l2 & v & -> & Hall & Hv & Hge)].
      * left. split; [reflexivity|]. constructor; assumption.
      * right. exists (n :: l1), l2, v. repeat split; try assumption.
        constructor; assumption.
Qed.

(** X16 (first fit).  Over a free list that [free_list] can walk, with
    every node inside the heap, [malloc_find_fit] returns without
    writing anything.  Its result is the first node of the list whose
    size word is at least the size asked for: every node before it is
    smaller.  When every node is smaller it returns null. *)
Theorem find_fit_is_first_fit fuel size s l :
  os_ok s ->
  free_list fuel s = Some (l, s) -> forallb (node_okb s) l = true ->
  exists r,
    malloc_find_fit fuel (flist s) size s = Some (r, s) /\
    ((r = NULL /\
      Forall (fun n => exists v, load n s = Some (v, s) /\ v < size) l) \/
     (exists l1 l2 v,
        l = l1 ++ r :: l2 /\
        Forall (fun n => exists v, load n s = Some (v, s) /\ v < size) l1 /\
        load r s = Some (v, s) /\ size <= v)).
Proof.
  intros Hos Hfl Hnodes.
  unfold free_list in Hfl. rewrite exec_get in Hfl.
  apply flist_walk_lseg in Hfl as (_ & Hseg & Hlen).
  apply find_fit_lseg; try assumption.
  eapply forallb_Forall; [|exact Hnodes]. intros n. apply node_okb_spec.
Qed.

Lemma find_fit_is_first_fit_witness :
  exists r,
    malloc_find_fit FUEL (flist both_released) 4090 both_released =
      Some (r, both_released) /\
    ((r = NULL /\
      Forall (fun n => exists v, load n both_released = Some (v, both_released) /\
                                 v < 4090)
        [BRK0 + 8; BRK0 + 4088]) \/
     (exists l1 l2 v,
        [BRK0 + 8; BRK0 + 4088] = l1 ++ r :: l2 /\
        Forall (fun n => exists v, load n both_released = Some (v, both_released) /\
                                   v < 4090) l1 /\
        load r both_released = Some (v, both_released) /\ 4090 <= v)).
Proof.
  apply (find_fit_is_first_fit FUEL 4090 both_released [BRK0 + 8; BRK0 + 4088]);
    [by_compute|vm_compute; reflexivity|vm_compute; reflexivity].
Defined.

(** ** Unlinking a node *)

(* the walk of malloc_list_remove stops at the node whose successor is
   the one to remove *)
Lemma remove_walk_spec s node : forall l1 a fr fuel,
  lseg s a (l1 ++ [fr]) node ->
  Forall (fun n => n <> node) (tail (l1 ++ [fr])) ->
  (length l1 < fuel)%nat ->
  remove_walk fuel a node s = Some (fr, s).
Proof.
  induction l1 as [|n l1 IH]; intros a fr fuel Hseg Hne Hfuel;
    destruct fuel as [|fuel]; simpl in Hfuel; try lia; simpl in *.
  - destruct Hseg as (-> & Hn & nx & Hl & ->).
    unfold bind. rewrite Hl. rewrite Z.eqb_refl. reflexivity.
  - destruct Hseg as (-> & Hn & nx & Hl & Hseg).
    unfold bind. rewrite Hl.
    assert (Hnx : nx <> node).
    { destruct l1 as [|m l1]; simpl in *;
        destruct Hseg as (-> & _); apply Forall_cons in Hne as [Hne _]; exact Hne. }
    apply Z.eqb_neq in Hnx. rewrite Hnx. simpl.
    apply (IH nx fr fuel Hseg); [|lia].
    destruct l1 as [|m l1]; simpl in *.
    + constructor.
    + apply Forall_cons in Hne as [_ Hne]. exact Hne.
Qed.

Lemma remove_spec fuel s node l1 l2 :
  os_ok s ->
  lseg s (flist s) (l1 ++ node :: l2) NULL ->
  (length (l1 ++ node :: l2) < fuel)%nat ->
  Forall (node_ok s) (l1 ++ node :: l2) ->
  spaced (l1 ++ node :: l2) = true ->
  exists s',
    malloc_list_remove fuel node s = Some (tt, s') /\
    lseg s' (flist s') (l1 ++ l2) NULL /\
    (PAGE_SIZE s', HEAP_START s', errno s', os_pagesize s') =
    (PAGE_SIZE s, HEAP_START s, errno s, os_pagesize s) /\
    (brk_lo s', brk s', brk_max s') = (brk_lo s, brk s, brk_max s) /\
    (forall a, (forall n, n ∈ l1 ++ l2 -> a <> n + OFF_PREV /\ a <> n + OFF_NEXT) ->
               mem s' !! a = mem s !! a).
Proof.
  intros Hos Hseg Hfuel Hnodes Hsp.
  destruct s as [ps fl hs er op lo br bm m].
  destruct Hos as (Hlo & Hlb & Hbm & Hmod).
  simpl in Hlo, Hlb, Hbm, Hmod, Hseg.
  apply lseg_split in Hseg as (b & Hs1 & Hs2).
  simpl in Hs2. destruct Hs2 as (-> & Hnz & nx & Hnl & Hs2).
  apply Forall_app in Hnodes as [Hn1 Hn2].
  apply Forall_cons in Hn2 as [(Hd1 & Hd2 & Hd3) Hn2].
  simpl in Hd1, Hd2.
  pose proof (spaced_before _ _ _ Hsp) as Hbefore.
  pose proof (spaced_app_r _ _ Hsp) as Hsp2.
  pose proof (spaced_lower _ _ Hsp2) as Hlow.
  pose proof (spaced_tail _ _ Hsp2) as Hsp3.
  consts. unfold fld in Hnl. rewrite add_small in Hnl by lia.
  apply load_mk in Hnl as (Hnv & _).
  destruct (decide (l1 = [])) as [->|Hne].
  - (* the node is the head *)
    simpl in Hs1. subst fl. simpl app in *.
    unfold malloc_list_remove. consts. wsimpl. wrewrite. step.
    rewrite Z.eqb_refl. cbv iota. repeat step. rewrite Hnv.
    destruct l2 as [|n l2]; simpl in Hs2.
    + rewrite Hs2. change (0 =? 0) with true. cbn [negb].
      eexists. split; [reflexivity|]. state_simpl.
      split; [reflexivity|]. split; [reflexivity|]. split; [reflexivity|].
      intros a _. reflexivity.
    + destruct Hs2 as (-> & Hnz' & nx' & Hl' & Hs2).
      apply Forall_cons in Hn2 as [(Hg1 & Hg2 & Hg3) Hn2']. simpl in Hg1, Hg2.
      apply Forall_cons in Hlow as [Hlow1 Hlow]. consts.
      branch. repeat step.
      eexists. split; [reflexivity|]. state_simpl.
      split; [|split; [reflexivity|split; [reflexivity|]]].
      * simpl. split; [reflexivity|]. split; [consts; lia|]. exists nx'. split.
        { consts. unfold fld in *. rewrite add_small in * by lia.
          apply load_mk in Hl' as (Hv & _).
          apply load_mk_intro; [lookup_tac; exact Hv|lia|lia|modarith]. }
        eapply lseg_frame_mk; try eassumption; try lia.
        intros k Hk. pose proof (spaced_lower _ _ Hsp3) as Hlow3.
        rewrite Forall_forall in Hlow3. specialize (Hlow3 k Hk). consts.
        lookup_tac. reflexivity.
      * intros a Ha. destruct (Ha n ltac:(left)) as [Ha1 Ha2].
        consts. lookup_tac. reflexivity.
  - (* the node follows [fr] *)
    destruct (exists_last Hne) as (l1' & fr & ->).
    apply lseg_split in Hs1 as (b' & Hs1 & Hfr).
    simpl in Hfr. destruct Hfr as (-> & Hfrz & nx0 & Hfrl & ->).
    apply Forall_app in Hn1 as [Hn1 Hnfr].
    apply Forall_cons in Hnfr as [(Hf1 & Hf2 & Hf3) _]. simpl in Hf1, Hf2.
    pose proof Hbefore as Hbefore'.
    apply Forall_app in Hbefore as [Hb1 Hbfr].
    apply Forall_cons in Hbfr as [Hbfr _].
    assert (Hwalk : remove_walk fuel fl node
              (mkState ps fl hs er op lo br bm m) =
            Some (fr, mkState ps fl hs er op lo br bm m)).
    { apply (remove_walk_spec _ _ l1' fl fr).
      - eapply lseg_app; [exact Hs1|]. simpl. split; [reflexivity|].
        split; [exact Hfrz|]. exists node. split; [exact Hfrl|reflexivity].
      - assert (Hall : Forall (fun n => n <> node) (l1' ++ [fr])).
        { eapply Forall_impl; [exact Hbefore'|]. consts. intros; simpl in *; lia. }
        destruct (l1' ++ [fr]) as [|x xs]; simpl; [constructor|].
        apply Forall_cons in Hall as [_ Hall]. exact Hall.
      - rewrite !length_app in Hfuel. simpl in Hfuel. lia. }
    assert (Hfl : fl <> node).
    { destruct l1' as [|x xs]; simpl in Hs1.
      - subst fl. consts. lia.
      - destruct Hs1 as (-> & Hx & _). apply Forall_cons in Hb1 as [Hb1 _].
        consts. lia. }
    pose proof (spaced_before _ _ _ ltac:(rewrite <- app_assoc in Hsp; exact Hsp))
      as Hbefore_fr.
    consts.
    unfold malloc_list_remove. consts. wsimpl. wrewrite. step.
    apply Z.eqb_neq in Hfl. rewrite Hfl. cbv iota. rewrite ?exec_assoc.
    rewrite (exec_bind_Some _ _ _ _ _ Hwalk). repeat step. rewrite Hnv.
    repeat step.
    destruct l2 as [|n l2]; simpl in Hs2.
    + rewrite Hs2. change (0 =? 0) with true. cbn [negb].
      eexists. split; [reflexivity|]. state_simpl.
      split; [|split; [reflexivity|split; [reflexivity|]]].
      * rewrite app_nil_r. eapply lseg_app.
        { eapply lseg_frame_mk; try eassumption; try lia.
          intros k Hk. rewrite Forall_forall in Hbefore_fr.
          specialize (Hbefore_fr k Hk). simpl in *.
          lookup_tac. reflexivity. }
        simpl. split; [reflexivity|]. split; [consts; lia|]. exists 0.
        split; [|reflexivity]. consts. unfold fld. rewrite add_small by lia.
        apply load_mk_intro; [lookup_tac; reflexivity|lia|lia|modarith].
      * intros a Ha.
        destruct (Ha fr ltac:(rewrite !elem_of_app; left; right; left))
          as [Ha1 Ha2].
        consts. lookup_tac. reflexivity.
    + destruct Hs2 as (-> & Hnz' & nx' & Hl' & Hs2).
      apply Forall_cons in Hn2 as [(Hg1 & Hg2 & Hg3) Hn2']. simpl in Hg1, Hg2.
      apply Forall_cons in Hlow as [Hlow1 Hlow]. consts.
      branch. repeat step.
      eexists. split; [reflexivity|]. state_simpl.
      split; [|split; [reflexivity|split; [reflexivity|]]].
      * rewrite <- app_assoc. eapply lseg_app.
        { eapply lseg_frame_mk; try eassumption; try lia.
          intros k Hk. rewrite Forall_forall in Hbefore_fr, Hb1.
          specialize (Hbefore_fr k Hk). specialize (Hb1 k Hk). simpl in *.
          lookup_tac. reflexivity. }
        simpl. split; [reflexivity|]. split; [consts; lia|]. exists n. split.
        { consts. unfold fld. rewrite add_small by lia.
          apply load_mk_intro; [lookup_tac; reflexivity|lia|lia|modarith]. }
        split; [reflexivity|]. split; [consts; lia|]. exists nx'. split.
        { consts. unfold fld in *. rewrite add_small in * by lia.
          apply load_mk in Hl' as (Hv & _).
          apply load_mk_intro; [lookup_tac; exact Hv|lia|lia|modarith]. }
        eapply lseg_frame_mk; try eassumption; try lia.
        intros k Hk. pose proof (spaced_lower _ _ Hsp3) as Hlow3.
        rewrite Forall_forall in Hlow3. specialize (Hlow3 k Hk).
        rewrite Forall_forall in Hlow. specialize (Hlow k Hk). simpl in *. consts.
        lookup_tac. reflexivity.
      * intros a Ha.
        destruct (Ha fr ltac:(rewrite !elem_of_app; left; right; left))
          as [Ha1 Ha2].
        destruct (Ha n ltac:(rewrite !elem_of_app; right; left))
          as [Ha3 Ha4].
        consts. lookup_tac. reflexivity.
Qed.

Lemma spaced_pairwise : forall l x y,
  spaced l = true -> x ∈ l -> y ∈ l ->
  x = y \/ x + NODE_OVERHEAD <= y \/ y + NODE_OVERHEAD <= x.
Proof.
  induction l as [|n l IH]; intros x y Hsp Hx Hy.
  - apply elem_of_nil in Hx. destruct Hx.
  - pose proof (spaced_lower _ _ Hsp) as Hlow. rewrite Forall_forall in Hlow.
    apply elem_of_cons in Hx as [->|Hx]; apply elem_of_cons in Hy as [->|Hy].
    + left. reflexivity.
    + right. left. apply Hlow. exact Hy.
    + right. right. apply Hlow. exact Hx.
    + apply IH; [eapply spaced_tail; exact Hsp|exact Hx|exact Hy].
Qed.

Lemma spaced_cons n l :
  Forall (fun m => n + NODE_OVERHEAD <= m) l -> spaced l = true ->
  spaced (n :: l) = true.
Proof.
  intros Hlow Hsp. destruct l as [|m l]; [reflexivity|].
  apply Forall_cons in Hlow as [Hm _]. simpl.
  apply andb_true_intro. split; [apply Z.leb_le; exact Hm|exact Hsp].
Qed.

Lemma spaced_insert c : forall l1 l2,
  spaced (l1 ++ l2) = true ->
  Forall (fun n => n + NODE_OVERHEAD <= c) l1 ->
  Forall (fun n => c + NODE_OVERHEAD <= n) l2 ->
  spaced (l1 ++ c :: l2) = true.
Proof.
  induction l1 as [|n l1 IH]; intros l2 Hsp H1 H2; simpl app in *.
  - apply spaced_cons; assumption.
  - apply Forall_cons in H1 as [Hn H1].
    apply spaced_cons.
    + apply Forall_app. split.
      * pose proof (spaced_lower _ _ Hsp) as Hlow.
        apply Forall_app in Hlow as [Hlow _]. exact Hlow.
      * constructor; [exact Hn|].
        eapply Forall_impl; [exact H2|]. consts. intros; simpl in *; lia.
    + apply IH; [eapply spaced_tail; exact Hsp|exact H1|exact H2].
Qed.

Lemma spaced_remove x : forall l1 l2,
  spaced (l1 ++ x :: l2) = true -> spaced (l1 ++ l2) = true.
Proof.
  induction l1 as [|n l1 IH]; intros l2 Hsp; simpl app in *.
  - eapply spaced_tail. exact Hsp.
  - apply spaced_cons.
    + pose proof (spaced_lower _ _ Hsp) as Hlow.
      apply Forall_app in Hlow as [Hl1 Hl2].
      apply Forall_cons in Hl2 as [_ Hl2]. apply Forall_app. split; assumption.
    + apply IH. eapply spaced_tail. exact Hsp.
Qed.

Lemma node_ok_same_bounds s s' l :
  (brk_lo s', brk s', brk_max s') = (brk_lo s, brk s, brk_max s) ->
  Forall (node_ok s) l -> Forall (node_ok s') l.
Proof.
  intros Hb Hl. injection Hb as H1 H2 H3.
  eapply Forall_impl; [exact Hl|].
  intros n. unfold node_ok. rewrite H1, H2. tauto.
Qed.

(** X17 (unlinking).  Let the free list be address-ordered, its nodes
    inside the heap and at least [NODE_OVERHEAD] bytes apart, and let
    [node] be one of them.  Then [malloc_list_remove] returns, and the
    free list is the old one without [node], in the same order.  The
    three words of [node] itself are not written (its links go stale),
    and neither is the size word of any node. *)
Theorem remove_unlinks_node fuel s node l1 l2 :
  os_ok s ->
  free_list fuel s = Some (l1 ++ node :: l2, s) ->
  forallb (node_okb s) (l1 ++ node :: l2) = true ->
  spaced (l1 ++ node :: l2) = true ->
  exists s',
    malloc_list_remove fuel node s = Some (tt, s') /\
    free_list fuel s' = Some (l1 ++ l2, s') /\
    (forall a, node <= a < node + NODE_SIZE -> mem s' !! a = mem s !! a) /\
    (forall n, n ∈ l1 ++ l2 -> mem s' !! n = mem s !! n) /\
    s' = set_flist (flist s') (set_mem (mem s') s).
Proof.
  intros Hos Hfl Hnodes Hsp.
  unfold free_list in Hfl. rewrite exec_get in Hfl.
  apply flist_walk_lseg in Hfl as (_ & Hseg & Hlen).
  pose proof (forallb_Forall _ _ _ (fun n => proj1 (node_okb_spec s n)) Hnodes)
    as Hok.
  destruct (remove_spec fuel s node l1 l2 Hos Hseg Hlen Hok Hsp)
    as (s' & Hrun & Hseg' & Hglob & Hbnd & Hfr).
  exists s'. split; [exact Hrun|].
  assert (Hin : forall n, n ∈ l1 ++ l2 -> n ∈ l1 ++ node :: l2).
  { intros n Hn. rewrite elem_of_app in *. rewrite elem_of_cons. tauto. }
  assert (Hnode : node ∈ l1 ++ node :: l2).
  { rewrite elem_of_app, elem_of_cons. tauto. }
  assert (Hal : forall n, n ∈ l1 ++ node :: l2 -> n mod 8 = 0).
  { intros n Hn. rewrite Forall_forall in Hok. destruct (Hok n Hn) as (_ & _ & H8).
    exact H8. }
  assert (Hdiff : forall n, n ∈ l1 ++ l2 ->
                            n + NODE_OVERHEAD <= node \/ node + NODE_OVERHEAD <= n).
  { intros n Hn.
    pose proof (spaced_before _ _ _ Hsp) as Hb.
    pose proof (spaced_lower _ _ (spaced_app_r _ _ Hsp)) as Ha.
    rewrite Forall_forall in Hb, Ha.
    apply elem_of_app in Hn as [Hn|Hn]; [left; apply Hb|right; apply Ha]; exact Hn. }
  split; [|split; [|split]].
  - unfold free_list. rewrite exec_get. apply lseg_flist_walk; [exact Hseg'|].
    rewrite length_app in *. simpl in Hlen. lia.
  - intros a Ha. apply Hfr. intros n Hn.
    specialize (Hdiff n Hn). consts. lia.
  - intros n Hn. apply Hfr. intros k Hk.
    pose proof (spaced_pairwise _ n k Hsp (Hin n Hn) (Hin k Hk)) as Hp.
    consts. lia.
  - destruct s as [ps fl hs er op lo br bm m], s' as [ps' fl' hs' er' op' lo' br' bm' m'].
    simpl in Hglob, Hbnd. injection Hglob as -> -> -> ->.
    injection Hbnd as -> -> ->. reflexivity.
Qed.

Lemma remove_unlinks_node_witness :
  exists s',
    malloc_list_remove FUEL (BRK0 + 4088) both_released = Some (tt, s') /\
    free_list FUEL s' = Some ([BRK0 + 8] ++ [], s') /\
    (forall a, BRK0 + 4088 <= a < BRK0 + 4088 + NODE_SIZE ->
               mem s' !! a = mem both_released !! a) /\
    (forall n, n ∈ [BRK0 + 8] ++ [] -> mem s' !! n = mem both_released !! n) /\
    s' = set_flist (flist s') (set_mem (mem s') both_released).
Proof.
  apply (remove_unlinks_node FUEL both_released (BRK0 + 4088) [BRK0 + 8] []);
    [by_compute|vm_compute; reflexivity|vm_compute; reflexivity
    |vm_compute; reflexivity].
Defined.

(** X18 (insert, then remove).  Inserting a chunk into an address-ordered
    free list whose nodes lie clear of it, and then removing it again,
    gives back the list one started from: the same nodes in the same
    order.  No size word of the list is written on the way. *)
Theorem insert_then_remove_restores_list fuel s c sz l :
  os_ok s -> NODE_OVERHEAD <= sz -> node_ok s c ->
  free_list fuel s = Some (l, s) ->
  forallb (node_okb s) l = true ->
  forallb (clear_of c sz) l = true -> spaced l = true ->
  exists s',
    (malloc_list_addr_insert (S fuel) c ;; malloc_list_remove (S fuel) c) s =
      Some (tt, s') /\
    free_list fuel s' = Some (l, s') /\
    (forall n, n ∈ l -> mem s' !! n = mem s !! n).
Proof.
  intros Hos Hsz Hc Hfl Hnodes Hclear Hsp.
  unfold free_list in Hfl. rewrite exec_get in Hfl.
  apply flist_walk_lseg in Hfl as (_ & Hseg & Hlen).
  pose proof (forallb_Forall _ _ _ (fun n => proj1 (node_okb_spec s n)) Hnodes)
    as Hok.
  destruct (insert_spec (S fuel) s c sz l Hos Hsz Hc Hseg ltac:(lia) Hok Hclear Hsp)
    as (s1 & Hins & Hseg1 & Hglob1 & Hbnd1 & Hfr1).
  destruct (addr_insert_split c sz l ltac:(consts; lia) Hsp Hclear)
    as (l1 & l2 & -> & Hsplit & H1 & H2).
  rewrite Hsplit in Hseg1.
  assert (Hos1 : os_ok s1).
  { unfold os_ok in *. injection Hbnd1 as -> -> ->. exact Hos. }
  assert (Hok1 : Forall (node_ok s1) (l1 ++ c :: l2)).
  { apply (node_ok_same_bounds s s1); [exact Hbnd1|].
    apply Forall_app in Hok as [Ha Hb]. apply Forall_app. split; [exact Ha|].
    constructor; assumption. }
  assert (Hsp1 : spaced (l1 ++ c :: l2) = true).
  { apply spaced_insert; [exact Hsp|exact H1|].
    eapply Forall_impl; [exact H2|]. intros; simpl in *; lia. }
  destruct (remove_spec (S fuel) s1 c l1 l2 Hos1 Hseg1
              ltac:(rewrite length_app in *; simpl; lia) Hok1 Hsp1)
    as (s2 & Hrem & Hseg2 & Hglob2 & Hbnd2 & Hfr2).
  exists s2. split; [|split].
  - unfold bind. rewrite Hins. exact Hrem.
  - unfold free_list. rewrite exec_get. apply lseg_flist_walk; assumption.
  - intros n Hn.
    assert (Hc8 : c mod 8 = 0) by (destruct Hc as (_ & _ & H8); exact H8).
    assert (Hn8 : forall k, k ∈ l1 ++ l2 -> k mod 8 = 0).
    { intros k Hk. rewrite Forall_forall in Hok. destruct (Hok k Hk) as (_ & _ & H8).
      exact H8. }
    assert (Hcn : n + NODE_OVERHEAD <= c \/ c + NODE_OVERHEAD <= n).
    { rewrite Forall_forall in H1, H2.
      apply elem_of_app in Hn as [Hn|Hn]; [left; apply H1; exact Hn|right].
      specialize (H2 n Hn). simpl in H2. lia. }
    rewrite Hfr2.
    + apply Hfr1.
      * consts. lia.
      * consts. lia.
      * intros k Hk. pose proof (spaced_pairwise _ n k Hsp Hn Hk) as Hp.
        consts. lia.
    + intros k Hk. pose proof (spaced_pairwise _ n k Hsp Hn Hk) as Hp.
      consts. lia.
Qed.

Lemma insert_then_remove_restores_list_witness :
  exists s',
    (malloc_list_addr_insert (S FUEL) (BRK0 + 4088) ;;
     malloc_list_remove (S FUEL) (BRK0 + 4088)) first_released = Some (tt, s') /\
    free_list FUEL s' = Some ([BRK0 + 8], s') /\
    (forall n, n ∈ [BRK0 + 8] -> mem s' !! n = mem first_released !! n).
Proof.
  apply (insert_then_remove_restores_list FUEL first_released (BRK0 + 4088) 4096
           [BRK0 + 8]);
    [by_compute|by_compute|by_compute|vm_compute; reflexivity
    |vm_compute; reflexivity|vm_compute; reflexivity|vm_compute; reflexivity].
Defined.

(* a chain of nodes survives any change that leaves the break and the
   next-fields of its nodes alone *)
Lemma lseg_frame_mem s s' : forall l a b,
  os_ok s -> lseg s a l b -> Forall (node_ok s) l ->
  brk_lo s' = brk_lo s -> brk s' = brk s ->
  (forall n, n ∈ l -> mem s' !! (n + OFF_NEXT) = mem s !! (n + OFF_NEXT)) ->
  lseg s' a l b.
Proof.
  intros l a b (Hlo & Hlb & Hbm & Hmod) Hseg Hok Hb1 Hb2 Hfr.
  eapply lseg_frame; [exact Hseg|].
  intros n v Hin Hl.
  rewrite Forall_forall in Hok. destruct (Hok n Hin) as (Hn1 & Hn2 & Hn3).
  consts. unfold fld in *. rewrite add_small in * by lia.
  apply load_inv in Hl as (_ & Hmap & ->).
  apply load_intro.
  - unfold mapped in *. rewrite Hb1, Hb2. exact Hmap.
  - rewrite Hfr by exact Hin. reflexivity.
Qed.

(** X19 (a fit that is not split).  Let [node] be on an address-ordered
    free list of nodes inside the heap that lie clear of its chunk of
    [ns] bytes, and let the request [size] leave less than
    [NODE_OVERHEAD] bytes of it.  Then [malloc_fnode_split] hands out
    the whole chunk: it returns the address just above the header, the
    header and the footer hold the same word, with size [ns] and the
    used bit set, and the free list is the old one without [node].  The
    size words of the other nodes are not written. *)
Theorem split_hands_out_whole_fit fuel s node size ns l1 l2 :
  os_ok s ->
  free_list fuel s = Some (l1 ++ node :: l2, s) ->
  forallb (node_okb s) (l1 ++ node :: l2) = true ->
  spaced (l1 ++ node :: l2) = true ->
  forallb (clear_of node ns) (l1 ++ l2) = true ->
  load node s = Some (ns, s) ->
  ns mod 8 = 0 -> NODE_OVERHEAD <= ns -> node + ns <= brk s ->
  0 <= size <= ns -> ns - size < NODE_OVERHEAD ->
  exists h s',
    malloc_fnode_split fuel node size s = Some (node + FENCE_SIZE, s') /\
    load node s' = Some (h, s') /\
    load (node + ns - FENCE_SIZE) s' = Some (h, s') /\
    GETSIZE h = ns /\ ISUSED h = 1 /\
    free_list fuel s' = Some (l1 ++ l2, s') /\
    (forall n, n ∈ l1 ++ l2 -> mem s' !! n = mem s !! n).
Proof.
  intros Hos Hfl Hnodes Hsp Hclear Hld Hns8 Hnsz Hend Hsize Hrem.
  unfold free_list in Hfl. rewrite exec_get in Hfl.
  apply flist_walk_lseg in Hfl as (_ & Hseg & Hlen).
  pose proof (forallb_Forall _ _ _ (fun n => proj1 (node_okb_spec s n)) Hnodes)
    as Hok.
  assert (Hcl : Forall (fun n => n + NODE_OVERHEAD <= node \/ node + ns <= n)
                  (l1 ++ l2)).
  { eapply forallb_Forall; [|exact Hclear]. intros n Hn. unfold clear_of in Hn.
    apply orb_prop in Hn as [Hn|Hn]; apply Z.leb_le in Hn; tauto. }
  destruct (remove_spec fuel s node l1 l2 Hos Hseg Hlen Hok Hsp)
    as (s1 & Hrun & Hseg1 & Hglob & Hbnd & Hfr).
  injection Hbnd as Hb1 Hb2 Hb3.
  assert (Hnode : node_ok s node).
  { rewrite Forall_forall in Hok. apply Hok.
    rewrite elem_of_app, elem_of_cons. tauto. }
  assert (Hok' : Forall (node_ok s) (l1 ++ l2)).
  { apply Forall_app in Hok as [Ha Hb]. apply Forall_cons in Hb as [_ Hb].
    apply Forall_app. split; assumption. }
  assert (Hok1 : Forall (node_ok s1) (l1 ++ l2)).
  { eapply Forall_impl; [exact Hok'|]. intros n. unfold node_ok.
    rewrite Hb1, Hb2. tauto. }
  assert (Hos1 : os_ok s1) by (unfold os_ok in *; rewrite Hb1, Hb2, Hb3; exact Hos).
  destruct Hnode as (Hn1 & Hn2 & Hn3).
  pose proof Hos as (Hlo & Hlb & Hbm & Hmod).
  assert (Hkeep : forall a, node <= a < node + ns -> mem s1 !! a = mem s !! a).
  { intros a Ha. apply Hfr. intros n Hn.
    rewrite Forall_forall in Hcl, Hok'. specialize (Hcl n Hn).
    destruct (Hok' n Hn) as (_ & _ & Hn8). simpl in Hcl. consts. lia. }
  pose proof Hld as Hld0. apply load_inv in Hld0 as (_ & Hmap & Hnsv).
  assert (Hld1 : load node s1 = Some (ns, s1)).
  { apply load_intro.
    - unfold mapped in *. rewrite Hb1, Hb2. exact Hmap.
    - rewrite Hkeep by (consts; lia). symmetry. exact Hnsv. }
  assert (Hfld : fld node OFF_SIZE = node).
  { unfold fld. consts. rewrite add_small by lia. lia. }
  pose proof (assign_used_run node ns s1 Hos1
                ltac:(rewrite Hb1; exact Hn1) Hn3 Hnsz Hns8
                ltac:(rewrite Hb2; exact Hend)) as Hused.
  destruct (fenced_words s1 node ns (SET_USED ns) _ Hos1
              ltac:(rewrite Hb1; exact Hn1) Hn3 Hnsz Hns8
              ltac:(rewrite Hb2; exact Hend) eq_refl)
    as (H1 & H2 & H3 & H4 & H5).
  assert (Hr : 0 <= ns < Word.modulus) by (consts; lia).
  assert (He : ns mod 2 = 0) by modarith.
  assert (Hu : SET_USED ns = ns + 1).
  { unfold SET_USED. rewrite lor_1_even_part. lia. }
  exists (SET_USED ns). eexists. split; [|split; [exact H1|split; [exact H2|]]].
  - unfold malloc_fnode_split. rewrite Hfld.
    unfold bind at 1. rewrite Hld.
    assert (Hbr : (NODE_OVERHEAD <=? Word.sub ns size) = false).
    { apply Z.leb_gt. rewrite sub_small by lia. exact Hrem. }
    rewrite Hbr. cbv iota.
    rewrite (exec_bind_Some _ _ _ _ _ Hrun).
    unfold bind at 1. rewrite Hld1.
    unfold bind at 1. rewrite Hused.
    unfold ret. consts. rewrite add_small by lia. reflexivity.
  - split.
    { rewrite Hu. rewrite GETSIZE_even_part by (rewrite modulus_eq in *; consts; lia).
      replace ((ns + 1) mod 2) with 1 by modarith. lia. }
    split; [unfold ISUSED; rewrite land_1_mod, Hu; modarith|].
    assert (Hoff : forall n, n ∈ l1 ++ l2 -> forall d, 0 <= d < NODE_SIZE ->
              n + d <> node /\ n + d <> node + ns - FENCE_SIZE /\
              n + d <> node + OFF_PREV /\ n + d <> node + OFF_NEXT).
    { intros n Hn d Hd. rewrite Forall_forall in Hcl. specialize (Hcl n Hn).
      simpl in Hcl. consts. lia. }
    split.
    + unfold free_list. rewrite exec_get. state_simpl.
      apply lseg_flist_walk; [|rewrite length_app in *; simpl in Hlen; lia].
      replace (flist (set_mem _ s1)) with (flist s1) by (destruct s1; reflexivity).
      apply (lseg_frame_mem s1); try assumption;
        try (destruct s1; reflexivity).
      intros n Hn. destruct (Hoff n Hn OFF_NEXT ltac:(consts; lia)) as (? & ? & ? & ?).
      apply H5; assumption.
    + intros n Hn. destruct (Hoff n Hn 0 ltac:(consts; lia)) as (? & ? & ? & ?).
      rewrite Z.add_0_r in *. rewrite H5 by assumption.
      apply Hfr. intros k Hk.
      assert (Hin : forall x, x ∈ l1 ++ l2 -> x ∈ l1 ++ node :: l2).
      { intros x Hx. rewrite elem_of_app in *. rewrite elem_of_cons. tauto. }
      pose proof (spaced_pairwise _ n k Hsp (Hin n Hn) (Hin k Hk)) as Hp.
      consts. lia.
Qed.

Lemma split_hands_out_whole_fit_witness :
  exists h s',
    malloc_fnode_split FUEL (BRK0 + 4088) 4080 both_released =
      Some (BRK0 + 4088 + FENCE_SIZE, s') /\
    load (BRK0 + 4088) s' = Some (h, s') /\
    load (BRK0 + 4088 + 4096 - FENCE_SIZE) s' = Some (h, s') /\
    GETSIZE h = 4096 /\ ISUSED h = 1 /\
    free_list FUEL s' = Some ([BRK0 + 8] ++ [], s') /\
    (forall n, n ∈ [BRK0 + 8] ++ [] -> mem s' !! n = mem both_released !! n).
Proof.
  apply (split_hands_out_whole_fit FUEL both_released (BRK0 + 4088) 4080 4096
           [BRK0 + 8] []);
    [by_compute|vm_compute; reflexivity|vm_compute; reflexivity
    |vm_compute; reflexivity|vm_compute; reflexivity|vm_compute; reflexivity
    |reflexivity|by_compute|by_compute|lia|by_compute].
Defined.

(** ** The two fusion routines (defined, never called) *)

(** X20 (fusing with the chunk above).  [malloc_fnode_fuse_down] looks at
    the header that follows the chunk of [node].  If its used bit is set,
    as it is for a chunk in use and for the sentinel that ends the heap,
    nothing is written and [node] is returned.  If it is clear, the two
    chunks become one: header and footer of the merged chunk hold the sum
    of the two sizes, [node] takes over the upper node's successor, whose
    back link is set to [node], and the links of the upper node are
    cleared. *)
Theorem fuse_down_merges_free_neighbour s node ns xs xn :
  os_ok s ->
  brk_lo s <= node -> node mod 8 = 0 ->
  load node s = Some (ns, s) -> NODE_OVERHEAD <= ns -> ns mod 8 = 0 ->
  load (node + ns) s = Some (xs, s) ->
  (ISUSED xs <> 0 -> malloc_fnode_fuse_down node s = Some (node, s)) /\
  (ISUSED xs = 0 ->
   NODE_OVERHEAD <= xs -> xs mod 8 = 0 -> node + ns + xs <= brk s ->
   load (node + ns + OFF_NEXT) s = Some (xn, s) ->
   xn = NULL \/ (node_ok s xn /\ node + ns + xs <= xn) ->
   exists s',
     malloc_fnode_fuse_down node s = Some (node, s') /\
     load node s' = Some (ns + xs, s') /\
     load (node + ns + xs - FENCE_SIZE) s' = Some (ns + xs, s') /\
     load (node + OFF_NEXT) s' = Some (xn, s') /\
     (xn <> NULL -> load (xn + OFF_PREV) s' = Some (node, s')) /\
     load (node + ns + OFF_PREV) s' = Some (NULL, s') /\
     load (node + ns + OFF_NEXT) s' = Some (NULL, s') /\
     (forall a, a < node \/ node + ns + xs <= a -> a <> xn + OFF_PREV ->
                mem s' !! a = mem s !! a)).
Proof.
  intros Hos Hlo Hal Hns Hnsz Hns8 Hxs.
  destruct s as [ps fl hs er op lo br bm m].
  destruct Hos as (Hlo0 & Hlb & Hbm & Hmod).
  simpl in Hlo0, Hlb, Hbm, Hmod, Hlo.
  apply load_mk in Hns as (Hnsv & Hn1 & Hn2 & _).
  apply load_mk in Hxs as (Hxsv & Hx1 & Hx2 & Hx3).
  consts. split.
  - intros Hused. unfold malloc_fnode_fuse_down. wsimpl. wrewrite.
    repeat step. rewrite Hnsv. wrewrite.
    replace (node + ns - 8 + 8) with (node + ns) by lia.
    repeat step. rewrite Hxsv.
    apply Z.eqb_neq in Hused. rewrite Hused. reflexivity.
  - intros Hfree Hxsz Hxs8 Hend Hxn Hnext. simpl in Hend. consts.
    apply load_mk in Hxn as (Hxnv & _).
    assert (Hn' : xn = 0 \/
                  (lo <= xn /\ xn + 24 <= br /\ xn mod 8 = 0 /\ node + ns + xs <= xn)).
    { destruct Hnext as [->|((H1 & H2 & H3) & H4)]; [left; reflexivity|right].
      simpl in H1, H2. consts. lia. }
    clear Hnext.
    apply Z.eqb_eq in Hfree.
    unfold malloc_fnode_fuse_down. wsimpl. wrewrite.
    repeat step. rewrite Hnsv. wrewrite.
    replace (node + ns - 8 + 8) with (node + ns) by lia.
    repeat step. rewrite Hxsv, Hfree. cbn [negb].
    repeat step. rewrite Hnsv, Hxsv. wrewrite. repeat step.
    rewrite ?Hxnv.
    destruct Hn' as [->|(Hq1 & Hq2 & Hq3 & Hq4)].
    + change (0 =? 0) with true. cbn [negb]. repeat step.
      eexists. split; [reflexivity|]. state_simpl.
      do 3 (split; [apply load_mk_intro; [lookup_tac; reflexivity|lia|lia|modarith]|]).
      split; [intros H; exfalso; apply H; reflexivity|].
      do 2 (split; [apply load_mk_intro; [lookup_tac; reflexivity|lia|lia|modarith]|]).
      intros a Ha Hb. lookup_tac. reflexivity.
    + branch. repeat step.
      eexists. split; [reflexivity|]. state_simpl.
      do 3 (split; [apply load_mk_intro; [lookup_tac; reflexivity|lia|lia|modarith]|]).
      split; [intros _; apply load_mk_intro; [lookup_tac; reflexivity|lia|lia|modarith]|].
      do 2 (split; [apply load_mk_intro; [lookup_tac; reflexivity|lia|lia|modarith]|]).
      intros a Ha Hb. lookup_tac. reflexivity.
Qed.

Lemma fuse_down_merges_free_neighbour_witness :
  exists s',
    malloc_fnode_fuse_down (BRK0 + 8) both_released = Some (BRK0 + 8, s') /\
    load (BRK0 + 8) s' = Some (4080 + 4096, s') /\
    load (BRK0 + 8 + 4080 + 4096 - FENCE_SIZE) s' = Some (4080 + 4096, s') /\
    load (BRK0 + 8 + OFF_NEXT) s' = Some (NULL, s').
Proof.
  destruct (fuse_down_merges_free_neighbour both_released (BRK0 + 8) 4080 4096 NULL)
    as [_ H];
    [by_compute|by_compute|reflexivity|vm_compute; reflexivity|by_compute
    |reflexivity|vm_compute; reflexivity|].
  destruct H as (s' & H1 & H2 & H3 & H4 & _);
    [reflexivity|by_compute|reflexivity|by_compute|vm_compute; reflexivity
    |left; reflexivity|].
  exists s'. repeat split; assumption.
Defined.

(** X21 (fusing with the chunk below).  [malloc_fnode_fuse_up] looks at
    the footer just below [node].  If its used bit is clear, the chunk
    below absorbs the chunk of [node]: its header and the footer at the
    end of [node]'s chunk both receive the sum of the two sizes, nothing
    else is written, and the lower chunk is returned.  The lower chunk is
    found through the footer and its size is read from its header.  If
    the used bit is set, as for a chunk in use and for the sentinel that
    starts the heap, [node] is put on the free list and returned. *)
Theorem fuse_up_merges_free_neighbour fuel s node ns pb ps :
  os_ok s ->
  node mod 8 = 0 -> node + NODE_SIZE <= brk s ->
  load (node - FENCE_SIZE) s = Some (pb, s) ->
  load node s = Some (ns, s) -> NODE_OVERHEAD <= ns -> ns mod 8 = 0 ->
  node + ns <= brk s ->
  (ISUSED pb <> 0 ->
   malloc_fnode_fuse_up fuel node s =
     (malloc_list_addr_insert fuel node ;; ret node) s) /\
  (ISUSED pb = 0 ->
   NODE_OVERHEAD <= pb -> pb mod 8 = 0 -> brk_lo s <= node - pb ->
   load (node - pb) s = Some (ps, s) -> 0 <= ps + ns < Word.modulus ->
   exists s',
     malloc_fnode_fuse_up fuel node s = Some (node - pb, s') /\
     load (node - pb) s' = Some (ps + ns, s') /\
     load (node + ns - FENCE_SIZE) s' = Some (ps + ns, s') /\
     s' = set_mem (mem s') s /\
     (forall a, a <> node - pb -> a <> node + ns - FENCE_SIZE ->
                mem s' !! a = mem s !! a)).
Proof.
  intros Hos Hal Hnode Hpb Hns Hnsz Hns8 Hend.
  destruct s as [gs fl hs er op lo br bm m].
  destruct Hos as (Hlo0 & Hlb & Hbm & Hmod).
  simpl in Hlo0, Hlb, Hbm, Hmod, Hnode, Hend. consts.
  apply load_mk in Hpb as (Hpbv & Hp1 & Hp2 & _).
  apply load_mk in Hns as (Hnsv & Hn1 & Hn2 & _).
  split.
  - intros Hused. unfold malloc_fnode_fuse_up. wsimpl. wrewrite.
    repeat step. rewrite Hpbv.
    apply Z.eqb_neq in Hused. rewrite Hused. reflexivity.
  - intros Hfree Hpbz Hpb8 Hlow Hps Hsum. simpl in Hlow. consts.
    apply load_mk in Hps as (Hpsv & _).
    apply Z.eqb_eq in Hfree.
    unfold malloc_fnode_fuse_up. wsimpl. wrewrite.
    repeat step. rewrite Hpbv, Hfree. cbn [negb].
    repeat step. rewrite Hpbv. wrewrite. repeat step.
    rewrite Hnsv. wrewrite. repeat step. rewrite Hpsv, ?Hnsv. wrewrite.
    repeat step.
    eexists. split; [reflexivity|]. state_simpl.
    do 2 (split; [apply load_mk_intro; [lookup_tac; reflexivity|lia|lia|modarith]|]).
    split; [reflexivity|].
    intros a Ha Hb. lookup_tac. reflexivity.
Qed.

Lemma fuse_up_merges_free_neighbour_witness :
  exists s',
    malloc_fnode_fuse_up FUEL (BRK0 + 4088) both_released = Some (BRK0 + 8, s') /\
    load (BRK0 + 8) s' = Some (4080 + 4096, s') /\
    load (BRK0 + 4088 + 4096 - FENCE_SIZE) s' = Some (4080 + 4096, s').
Proof.
  destruct (fuse_up_merges_free_neighbour FUEL both_released (BRK0 + 4088) 4096
              4080 4080) as [_ H];
    [by_compute|reflexivity|by_compute|vm_compute; reflexivity
    |vm_compute; reflexivity|by_compute|reflexivity|by_compute|].
  destruct H as (s' & H1 & H2 & H3 & _);
    [reflexivity|by_compute|reflexivity|by_compute|vm_compute; reflexivity
    |by_compute|].
  exists s'. repeat split; assumption.
Defined.

(** ** What the entry points leave alone *)

Section HeapOnly.
Context {A B : Type}.

Lemma heap_only_bind (m : M A) (k : A -> M B) :
  touches_heap_only m -> (forall a, touches_heap_only (k a)) ->
  touches_heap_only (bind m k).
Proof.
  intros Hm Hk s b s' H. apply bind_inv in H as (a & s1 & E & H).
  apply Hm in E. apply Hk in H.
  destruct s, s1, s'. cbn in E, H |- *. congruence.
Qed.

Lemma heap_only_ret (a : A) : touches_heap_only (ret a).
Proof. intros s b s' H. apply ret_inv in H as [_ ->]. destruct s; reflexivity. Qed.

Lemma heap_only_get (f : state -> A) : touches_heap_only (get f).
Proof. intros s b s' H. apply get_inv in H as [_ ->]. destruct s; reflexivity. Qed.

Lemma heap_only_if (b : bool) (m1 m2 : M A) :
  touches_heap_only m1 -> touches_heap_only m2 ->
  touches_heap_only (if b then m1 else m2).
Proof. destruct b; auto. Qed.

End HeapOnly.

Lemma heap_only_load a : touches_heap_only (load a).
Proof. intros s b s' H. apply load_inv in H as (-> & _). destruct s; reflexivity. Qed.

Lemma heap_only_store a v : touches_heap_only (store a v).
Proof. intros s b s' H. apply store_inv in H as (_ & ->). destruct s; reflexivity. Qed.

Lemma heap_only_set_flist v : touches_heap_only (modify (set_flist v)).
Proof. intros s b s' H. apply modify_inv in H as ->. destruct s; reflexivity. Qed.

Create HintDb heap_only.
#[local] Hint Resolve heap_only_ret heap_only_get heap_only_load heap_only_store
  heap_only_set_flist : heap_only.

Ltac heap_only_tac :=
  repeat first
    [ solve [auto with heap_only]
    | apply heap_only_if
    | apply heap_only_bind; [|intros ?] ].

Lemma heap_only_assign_free start size :
  touches_heap_only (malloc_fnode_assign_free start size).
Proof. unfold malloc_fnode_assign_free. heap_only_tac. Qed.

Lemma heap_only_assign_used start size :
  touches_heap_only (malloc_fnode_assign_used start size).
Proof. unfold malloc_fnode_assign_used. heap_only_tac. Qed.

Lemma heap_only_insert_walk fuel : forall front item,
  touches_heap_only (addr_insert_walk fuel front item).
Proof.
  induction fuel as [|fuel IH]; intros front item; simpl.
  - intros s a s' H. discriminate H.
  - heap_only_tac.
Qed.

Lemma heap_only_remove_walk fuel : forall front node,
  touches_heap_only (remove_walk fuel front node).
Proof.
  induction fuel as [|fuel IH]; intros front node; simpl.
  - intros s a s' H. discriminate H.
  - heap_only_tac.
Qed.

#[local] Hint Resolve heap_only_assign_free heap_only_assign_used
  heap_only_insert_walk heap_only_remove_walk : heap_only.

Lemma heap_only_insert fuel item :
  touches_heap_only (malloc_list_addr_insert fuel item).
Proof. unfold malloc_list_addr_insert. heap_only_tac. Qed.

Lemma heap_only_remove fuel node :
  touches_heap_only (malloc_list_remove fuel node).
Proof. unfold malloc_list_remove. heap_only_tac. Qed.

#[local] Hint Resolve heap_only_insert heap_only_remove : heap_only.

Lemma heap_only_split fuel node size :
  touches_heap_only (malloc_fnode_split fuel node size).
Proof. unfold malloc_fnode_split. heap_only_tac. Qed.

Lemma heap_only_release fuel target :
  touches_heap_only (malloc_fnode_release fuel target).
Proof. unfold malloc_fnode_release. heap_only_tac. Qed.

(** X22 (what free leaves alone).  Whatever the state and the pointer, a
    call of [free] that returns has changed heap words and the head of
    the free list at most: the break is where it was, so no memory goes
    back to the system, and errno, the page size and the heap start are
    untouched.  [free] of the null pointer changes nothing at all. *)
Theorem free_touches_heap_only fuel ptr s s' :
  free fuel ptr s = Some (tt, s') ->
  s' = set_flist (flist s') (set_mem (mem s') s) /\
  (ptr = NULL -> s' = s).
Proof.
  intros H. split.
  - revert H. unfold free. destruct (negb (ptr =? NULL)).
    + apply heap_only_release.
    + apply heap_only_ret.
  - intros ->. unfold free in H. change (negb (NULL =? NULL)) with false in H.
    apply ret_inv in H as [_ ->]. reflexivity.
Qed.

Lemma free_touches_heap_only_witness :
  exists s',
    free FUEL (BRK0 + 16) full_page = Some (tt, s') /\
    s' = set_flist (flist s') (set_mem (mem s') full_page) /\
    (BRK0 + 16 = NULL -> s' = full_page).
Proof.
  eexists. split; [vm_compute; reflexivity|].
  apply (free_touches_heap_only FUEL (BRK0 + 16) full_page).
  vm_compute. reflexivity.
Defined.

Lemma heap_only_fields s s' :
  s' = set_flist (flist s') (set_mem (mem s') s) ->
  PAGE_SIZE s' = PAGE_SIZE s /\ HEAP_START s' = HEAP_START s /\
  errno s' = errno s /\ os_pagesize s' = os_pagesize s /\
  brk_lo s' = brk_lo s /\ brk s' = brk s /\ brk_max s' = brk_max s.
Proof. intros ->. destruct s as [ps fl hs er op lo br bm m]. repeat split. Qed.

Lemma assign_free_mem_only start size s r s' :
  malloc_fnode_assign_free start size s = Some (r, s') -> s' = set_mem (mem s') s.
Proof.
  unfold malloc_fnode_assign_free. intros H. minv.
  destruct s as [ps fl hs er op lo br bm m]. reflexivity.
Qed.

(* what malloc_expand does to the globals, whichever way it goes *)
Lemma expand_globals size s r s1 :
  os_ok s -> malloc_expand size s = Some (r, s1) ->
  flist s1 = flist s /\ errno s1 = errno s /\ os_pagesize s1 = os_pagesize s /\
  brk_lo s1 = brk_lo s /\ brk_max s1 = brk_max s /\
  PAGE_SIZE s1 = (if PAGE_SIZE s =? 0 then os_pagesize s else PAGE_SIZE s) /\
  (PAGE_SIZE s <> 0 -> HEAP_START s1 = HEAP_START s) /\
  ((r = NULL /\ brk s1 = brk s) \/
   (r <> NULL /\ brk s1 = brk s + grow_request s size)).
Proof.
  intros Hok H. pose proof (malloc_expand_inv _ _ _ _ Hok H) as [_ Hnull].
  unfold malloc_expand, sysconf_pagesize in H.
  apply bind_inv in H as (ps & s0 & E1 & H). apply get_inv in E1 as [-> ->].
  apply bind_inv in H as ([init sz] & s2 & E2 & H).
  assert (Hs2 : s2 = (if PAGE_SIZE s =? 0 then set_PAGE_SIZE (os_pagesize s) s else s)
                /\ init = (PAGE_SIZE s =? 0) /\ sz = grow_request s size).
  { clear H. unfold grow_request. destruct (PAGE_SIZE s =? 0); minv;
      match goal with H : (_, _) = (_, _) |- _ => injection H as <- <- end;
      repeat split. }
  clear E2. destruct Hs2 as (-> & -> & ->).
  apply bind_inv in H as (start & s3 & E3 & H).
  apply get_memory_inv in E3 as [[-> ->]|(-> & -> & Hle)].
  - change (NULL =? NULL) with true in H. apply ret_inv in H as [<- ->].
    destruct (PAGE_SIZE s =? 0) eqn:E; destruct s as [ps fl hs er op lo br bm m]; cbn in *;
      repeat split; try (left; split; reflexivity); congruence.
  - assert (Hbrk : brk (if PAGE_SIZE s =? 0
                        then set_PAGE_SIZE (os_pagesize s) s else s) = brk s)
      by (destruct (PAGE_SIZE s =? 0); destruct s as [ps fl hs er op lo br bm m]; reflexivity).
    rewrite Hbrk in *.
    assert (Hnz : (brk s =? NULL) = false).
    { apply Z.eqb_neq. destruct Hok as (? & ? & _). unfold NULL. lia. }
    rewrite Hnz in H.
    assert (Hmax : brk_max (if PAGE_SIZE s =? 0
                            then set_PAGE_SIZE (os_pagesize s) s else s) = brk_max s)
      by (destruct (PAGE_SIZE s =? 0); destruct s as [ps fl hs er op lo br bm m];
          reflexivity).
    rewrite Hmax in Hle.
    assert (Hr : r <> NULL).
    { intros Hr. destruct (Hnull Hr) as (_ & _ & Hlt). lia. }
    destruct (PAGE_SIZE s =? 0) eqn:E.
    + apply bind_inv in H as (u1 & t1 & S1 & H). apply store_inv in S1 as (_ & ->).
      apply bind_inv in H as (u2 & t2 & S2 & H). apply store_inv in S2 as (_ & ->).
      apply bind_inv in H as (u3 & t3 & S3 & H). apply modify_inv in S3 as ->.
      apply assign_free_mem_only in H.
      rewrite H. destruct s as [ps fl hs er op lo br bm m]; cbn in *.
      repeat split; try (right; split; [exact Hr|reflexivity]).
      intros Hne. apply Z.eqb_eq in E. contradiction.
    + apply bind_inv in H as (u1 & t1 & S1 & H). apply store_inv in S1 as (_ & ->).
      apply assign_free_mem_only in H.
      rewrite H. destruct s as [ps fl hs er op lo br bm m]; cbn in *.
      repeat split; right; split; [exact Hr|reflexivity].
Qed.

(** X23 (what malloc does to the globals).  A call of [malloc] that
    returns has either left the break alone or raised it by exactly the
    byte count asked of the kernel; it never lowers it.  It sets errno,
    to ENOMEM, exactly when it returns null, and then the break has not
    moved.  The kernel's limits are never written, and once the page
    size is known, it and the heap start stay what they are. *)
Theorem malloc_effects_on_globals fuel n s r s' :
  os_ok s -> malloc fuel n s = Some (r, s') ->
  (brk_lo s', brk_max s', os_pagesize s') = (brk_lo s, brk_max s, os_pagesize s) /\
  (brk s' = brk s \/ brk s' = brk s + grow_request s (ROUNDUP_CHUNK n)) /\
  brk s <= brk s' /\
  (r <> NULL -> errno s' = errno s) /\
  (r = NULL -> errno s' = ENOMEM /\ brk s' = brk s) /\
  (PAGE_SIZE s <> 0 -> PAGE_SIZE s' = PAGE_SIZE s /\ HEAP_START s' = HEAP_START s).
Proof.
  intros Hok H.
  assert (Hgr : 0 <= grow_request s (ROUNDUP_CHUNK n)).
  { unfold grow_request. destruct (PAGE_SIZE s =? 0); apply ROUNDUP_PAGE_nonneg. }
  unfold malloc in H.
  apply bind_inv in H as (head & s0 & E1 & H). apply get_inv in E1 as [-> ->].
  apply bind_inv in H as (fit & s0 & E2 & H).
  apply malloc_find_fit_state in E2 as ->.
  destruct (fit =? NULL).
  - apply bind_inv in H as (fit2 & s1 & E3 & H).
    pose proof (malloc_expand_inv _ _ _ _ Hok E3) as [Hok1 _].
    apply expand_globals in E3; [|exact Hok].
    destruct E3 as (Hfl & Her & Hop & Hlo & Hmax & Hps & Hhs & Hcase).
    destruct Hcase as [[-> Hbrk]|[Hne Hbrk]].
    + change (negb (NULL =? NULL)) with false in H. cbv iota in H.
      rewrite exec_modify in H. apply ret_inv in H as [<- ->].
      destruct s1 as [ps1 fl1 hs1 er1 op1 lo1 br1 bm1 m1]; cbn in *. subst.
      split; [reflexivity|]. split; [left; reflexivity|]. split; [lia|].
      split; [intros Hp; destruct (Hp eq_refl)|]. split; [intros _; split; reflexivity|].
      intros Hp. split; [|apply Hhs; exact Hp].
      apply Z.eqb_neq in Hp. rewrite Hp. reflexivity.
    + apply Z.eqb_neq in Hne. rewrite Hne in H. cbn [negb] in H.
      apply bind_inv in H as (u & s2 & E4 & H).
      pose proof (keeps_os_insert _ _ _ _ _ Hok1 E4) as Hok2.
      pose proof (split_nonnull _ _ _ _ _ _ Hok2 H) as Hrn.
      apply heap_only_insert in E4. apply heap_only_fields in E4.
      apply heap_only_split in H. apply heap_only_fields in H.
      destruct E4 as (A1 & A2 & A3 & A4 & A5 & A6 & A7).
      destruct H as (B1 & B2 & B3 & B4 & B5 & B6 & B7).
      split; [congruence|]. split; [right; congruence|]. split; [lia|].
      split; [intros _; congruence|]. split; [intros Hp; contradiction|].
      intros Hp. split; [|rewrite B2, A2; apply Hhs; exact Hp].
      rewrite B1, A1, Hps. apply Z.eqb_neq in Hp. rewrite Hp. reflexivity.
  - pose proof (split_nonnull _ _ _ _ _ _ Hok H) as Hrn.
    apply heap_only_split in H. apply heap_only_fields in H.
    destruct H as (B1 & B2 & B3 & B4 & B5 & B6 & B7).
    split; [congruence|]. split; [left; exact B6|]. split; [lia|].
    split; [intros _; congruence|]. split; [intros Hp; contradiction|].
    intros _. split; assumption.
Qed.

Lemma malloc_effects_on_globals_witness :
  exists r s',
    malloc FUEL 100 first_released = Some (r, s') /\
    (brk_lo s', brk_max s', os_pagesize s') =
      (brk_lo first_released, brk_max first_released, os_pagesize first_released) /\
    (brk s' = brk first_released \/
     brk s' = brk first_released + grow_request first_released (ROUNDUP_CHUNK 100)) /\
    brk first_released <= brk s' /\
    (r <> NULL -> errno s' = errno first_released) /\
    (r = NULL -> errno s' = ENOMEM /\ brk s' = brk first_released) /\
    (PAGE_SIZE first_released <> 0 ->
     PAGE_SIZE s' = PAGE_SIZE first_released /\
     HEAP_START s' = HEAP_START first_released).
Proof.
  do 2 eexists. split; [vm_compute; reflexivity|].
  apply (malloc_effects_on_globals FUEL 100 first_released);
    [by_compute|vm_compute; reflexivity].
Defined.

(** ** The block malloc hands out *)

(* every run of malloc_fnode_split ends in malloc_fnode_assign_used on
   the fit *)
Lemma split_inv fuel node size s r s' :
  os_ok s -> malloc_fnode_split fuel node size s = Some (r, s') ->
  r = Word.add node FENCE_SIZE /\
  exists ns s3, os_ok s3 /\ malloc_fnode_assign_used node ns s3 = Some (tt, s').
Proof.
  intros Hok H. split; [eapply split_result; exact H|].
  unfold malloc_fnode_split in H.
  apply bind_inv in H as (ns & s1 & E1 & H). apply load_inv in E1 as (-> & _ & _).
  apply bind_inv in H as (u & s2 & E2 & H).
  assert (Hok2 : os_ok s2).
  { match type of E2 with ?m s = _ => assert (Hk : keeps_os m) end.
    { apply keeps_os_if.
      - apply keeps_os_bind; [apply keeps_os_assign_free|intros ?].
        keeps_os_tac.
      - apply keeps_os_remove. }
    exact (Hk _ _ _ Hok E2). }
  apply bind_inv in H as (ns2 & s3 & E3 & H). apply load_inv in E3 as (-> & _ & _).
  apply bind_inv in H as (u2 & s4 & E4 & H). apply ret_inv in H as [_ ->].
  destruct u2. exists ns2, s2. split; assumption.
Qed.

(* where malloc_fnode_assign_used leaves the header and the two words
   after it, whatever the footer store hits *)
Lemma assign_used_inv start size s s' :
  os_ok s -> malloc_fnode_assign_used start size s = Some (tt, s') ->
  exists a,
    a = Word.wrap start /\ Word.add start FENCE_SIZE = a + 8 /\
    brk_lo s <= a /\ a + 24 <= brk s /\ a mod 8 = 0 /\
    brk_lo s' = brk_lo s /\ brk s' = brk s /\
    mem s' !! a = Some (SET_USED size) /\
    mem s' !! (a + 8) = Some 0 /\ mem s' !! (a + 16) = Some 0.
Proof.
  intros (Hlo & Hlb & Hbm & Hmod) H. unfold malloc_fnode_assign_used in H.
  apply bind_inv in H as (u1 & s1 & S1 & H). apply store_inv in S1 as (M1 & ->).
  apply bind_inv in H as (v1 & s1 & L1 & H). apply load_inv in L1 as (-> & _ & ->).
  apply bind_inv in H as (u2 & s2 & S2 & H). apply store_inv in S2 as (_ & ->).
  apply bind_inv in H as (v2 & s2 & L2 & H). apply load_inv in L2 as (-> & _ & ->).
  apply bind_inv in H as (u3 & s3 & S3 & H). apply store_inv in S3 as (_ & ->).
  apply bind_inv in H as (u4 & s4 & S4 & H). apply store_inv in S4 as (M4 & ->).
  apply store_inv in H as (M5 & ->).
  destruct s as [ps fl hs er op lo br bm m].
  cbn in Hlo, Hlb, Hbm, Hmod, M1, M4, M5 |- *.
  unfold fld, OFF_SIZE, OFF_PREV, OFF_NEXT in *.
  assert (H0 : Word.add start 0 = Word.wrap start)
    by (unfold Word.add; rewrite Z.add_0_r; reflexivity).
  rewrite !H0 in *. clear H0.
  apply mapped_iff in M1, M4, M5. cbn in M1, M4, M5.
  set (a := Word.wrap start) in *.
  assert (Ha8 : Word.add start 8 = a + 8).
  { unfold Word.add, Word.wrap, a, Word.wrap.
    rewrite <- Zplus_mod_idemp_l. apply Z.mod_small.
    unfold a, Word.wrap in M1. lia. }
  assert (Ha16 : Word.add start 16 = a + 16).
  { unfold Word.add, Word.wrap, a, Word.wrap.
    rewrite <- Zplus_mod_idemp_l.
    destruct (Z_lt_le_dec (start mod Word.modulus + 16) Word.modulus) as [Hl|Hg].
    - apply Z.mod_small. unfold a, Word.wrap in M1. lia.
    - exfalso. unfold Word.add, Word.wrap in M5.
      rewrite <- Zplus_mod_idemp_l in M5.
      assert (Hm : (start mod Word.modulus + 16) mod Word.modulus =
                   start mod Word.modulus + 16 - Word.modulus).
      { symmetry. apply Z.mod_unique with (q := 1);
          unfold a, Word.wrap in M1; lia. }
      rewrite Hm in M5. unfold a, Word.wrap in M1.
      set (x := start mod Word.modulus) in *. clearbody x. clear Hm a Ha8 M4.
      modarith. }
  rewrite Ha8 in *. rewrite Ha16 in *.
  exists a. change (Word.add start FENCE_SIZE) with (Word.add start 8). rewrite Ha8.
  rewrite !lookup_insert_eq. cbn [default from_option id].
  set (e := Word.add (FENCE_BACKWARD (Word.add start size)) 0).
  split; [reflexivity|]. split; [reflexivity|].
  split; [lia|]. split; [lia|]. split; [lia|].
  split; [reflexivity|]. split; [reflexivity|].
  split; [|split].
  - rewrite lookup_insert_ne by lia. rewrite lookup_insert_ne by lia.
    destruct (Z.eq_dec e a) as [->|Hne].
    + apply lookup_insert_eq.
    + rewrite lookup_insert_ne by exact Hne. apply lookup_insert_eq.
  - rewrite lookup_insert_ne by lia. apply lookup_insert_eq.
  - reflexivity.
Qed.

Lemma ISUSED_SET_USED x : ISUSED (SET_USED x) = 1.
Proof.
  unfold ISUSED, SET_USED. rewrite land_1_mod, lor_1_even_part.
  pose proof (Z.div_mod x 2 ltac:(lia)). pose proof (Z.mod_pos_bound x 2 ltac:(lia)).
  replace (x - x mod 2 + 1) with (1 + x / 2 * 2) by lia.
  rewrite Z.mod_add by lia. reflexivity.
Qed.

(** X24 (the block handed out).  Whatever the state of the heap, a pointer
    [p] that [malloc] returns other than null is word aligned and lies
    inside the heap; the word just below it, where [free] and [realloc]
    look for the header, has the used bit set; and the first two words
    of the block read zero, since the links of the free node it was are
    cleared last. *)
Theorem malloc_marks_block_used fuel n s p s' :
  os_ok s -> malloc fuel n s = Some (p, s') -> p <> NULL ->
  exists h,
    load (FENCE_BACKWARD p) s' = Some (h, s') /\ ISUSED h = 1 /\
    load p s' = Some (0, s') /\ load (p + SIZE_T_SIZE) s' = Some (0, s') /\
    p mod SIZE_T_SIZE = 0 /\
    brk_lo s' + FENCE_SIZE <= p /\ p + 2 * SIZE_T_SIZE <= brk s'.
Proof.
  intros Hok H Hp.
  assert (Hsplit : exists fit st, os_ok st /\
            malloc_fnode_split fuel fit (ROUNDUP_CHUNK n) st = Some (p, s')).
  { unfold malloc in H.
    apply bind_inv in H as (head & s0 & E1 & H). apply get_inv in E1 as [-> ->].
    apply bind_inv in H as (fit & s0 & E2 & H).
    apply malloc_find_fit_state in E2 as ->.
    destruct (fit =? NULL).
    - apply bind_inv in H as (fit2 & s1 & E3 & H).
      apply malloc_expand_inv in E3 as [Hok1 _]; [|exact Hok].
      destruct (negb (fit2 =? NULL)).
      + apply bind_inv in H as (u & s2 & E4 & H).
        apply keeps_os_insert in E4; [|exact Hok1].
        exists fit2, s2. split; assumption.
      + rewrite exec_modify in H. apply ret_inv in H as [<- _].
        destruct (Hp eq_refl).
    - exists fit, s. split; assumption. }
  destruct Hsplit as (fit & st & Hokst & Hsplit).
  apply split_inv in Hsplit as (-> & ns & s3 & Hok3 & Hused); [|exact Hokst].
  pose proof Hok3 as (Hlo & Hlb & Hbm & Hmod).
  apply assign_used_inv in Hused; [|exact Hok3].
  destruct Hused as (a & _ & Hpa & Ha1 & Ha2 & Ha3 & Hb1 & Hb2 & Hm0 & Hm1 & Hm2).
  rewrite Hpa. unfold FENCE_BACKWARD, FENCE_SIZE, SIZE_T_SIZE.
  rewrite sub_small by lia. replace (a + 8 - 8) with a by lia.
  assert (Hmapped : forall x, a <= x -> x + 8 <= a + 24 -> x mod 8 = 0 ->
                              mapped s' x = true).
  { intros x H1 H2 H3. apply mapped_iff. rewrite Hb1, Hb2. repeat split; lia. }
  exists (SET_USED ns).
  split; [apply load_intro; [apply Hmapped; lia|rewrite Hm0; reflexivity]|].
  split; [apply ISUSED_SET_USED|].
  split; [apply load_intro; [apply Hmapped; try lia; modarith|rewrite Hm1; reflexivity]|].
  split.
  { replace (a + 8 + 8) with (a + 16) by lia.
    apply load_intro; [apply Hmapped; try lia; modarith|rewrite Hm2; reflexivity]. }
  split; [modarith|]. rewrite Hb1, Hb2. lia.
Qed.

Lemma malloc_marks_block_used_witness :
  exists p s' h,
    malloc FUEL 100 first_released = Some (p, s') /\
    load (FENCE_BACKWARD p) s' = Some (h, s') /\ ISUSED h = 1 /\
    load p s' = Some (0, s') /\ load (p + SIZE_T_SIZE) s' = Some (0, s') /\
    p mod SIZE_T_SIZE = 0 /\
    brk_lo s' + FENCE_SIZE <= p /\ p + 2 * SIZE_T_SIZE <= brk s'.
Proof.
  assert (Hrun : exists p s', malloc FUEL 100 first_released = Some (p, s') /\
                              p <> NULL).
  { do 2 eexists. split; [vm_compute; reflexivity|discriminate]. }
  destruct Hrun as (p & s' & Hrun & Hp).
  destruct (malloc_marks_block_used FUEL 100 first_released p s')
    as (h & Hh); [by_compute|exact Hrun|exact Hp|].
  exists p, s', h. split; [exact Hrun|exact Hh].
Defined.

(** ** The first allocation of a process *)

(** X25 (first allocation).  On a process that has not allocated yet,
    with a page size that is a multiple of 16 and a 16-byte aligned
    break, a request of [n] bytes that the kernel grants returns the
    address 16 bytes above the old break, which is 16-byte aligned.  The
    break has moved by the chunk size plus the two sentinels, rounded up
    to whole pages; the heap starts 8 bytes above the old break; errno is
    untouched; and the header below the block has the used bit set and
    records at least the chunk size of the request, so the block holds
    [n] bytes. *)
Theorem first_malloc_is_aligned ps lo hi fuel n :
  (0 < fuel)%nat ->
  0 < ps -> ps mod 16 = 0 -> 0 < lo -> lo mod 16 = 0 -> hi < Word.modulus ->
  0 <= n -> n + 64 + ps <= Word.modulus ->
  lo + ROUNDUP_PAGE ps (ROUNDUP_CHUNK n + FENCE_OVERHEAD) <= hi ->
  exists h s',
    malloc fuel n (initial ps lo hi) = Some (lo + ALIGN_SIZE, s') /\
    (lo + ALIGN_SIZE) mod ALIGN_SIZE = 0 /\
    brk s' = lo + ROUNDUP_PAGE ps (ROUNDUP_CHUNK n + FENCE_OVERHEAD) /\
    HEAP_START s' = lo + FENCE_SIZE /\ PAGE_SIZE s' = ps /\ errno s' = 0 /\
    load (lo + FENCE_SIZE) s' = Some (h, s') /\
    ISUSED h = 1 /\ n + FENCE_OVERHEAD <= GETSIZE h /\
    lo + FENCE_SIZE + GETSIZE h <= brk s'.
Proof.
  intros Hfuel Hps Hpal Hlo Hlal Hmax Hn Hfit Hhi.
  destruct (ROUNDUP_CHUNK_facts n) as (Hq16 & Hq32 & Hqn & Hqu);
    [rewrite modulus_eq in *; lia|].
  set (req := ROUNDUP_CHUNK n) in *.
  assert (Hqu' : req < n + 48).
  { unfold MAX in Hqu. destruct (16 <? n) eqn:E;
      [apply Z.ltb_lt in E|apply Z.ltb_ge in E]; lia. }
  clear Hqu. pose proof modulus_eq as HM.
  assert (Hp8 : ps mod 8 = 0) by modarith.
  unfold FENCE_OVERHEAD, FENCE_SIZE in Hhi. change (2 * 8) with 16 in Hhi.
  assert (HRb : ROUNDUP_PAGE ps (req + 16) mod 16 = 0 /\
                req + 16 <= ROUNDUP_PAGE ps (req + 16) < req + 16 + ps).
  { unfold ROUNDUP_PAGE. rewrite sub_small by lia.
    pose proof (Z.div_mod (req + 16 - 1) ps ltac:(lia)) as Hdm.
    pose proof (Z.mod_pos_bound (req + 16 - 1) ps ltac:(lia)) as Hmb.
    assert (0 <= (req + 16 - 1) / ps) by (apply Z.div_pos; lia).
    rewrite add_small by nia.
    unfold Word.mul. rewrite wrap_small by nia.
    split; [|nia].
    rewrite Z.mul_mod by lia. rewrite Hpal, Z.mul_0_r. reflexivity. }
  destruct HRb as (HR16 & HRr).
  set (R := ROUNDUP_PAGE ps (req + 16)) in *.
  unfold FENCE_OVERHEAD, FENCE_SIZE, ALIGN_SIZE, SIZE_T_SIZE.
  change (2 * 8) with 16. fold R.
  assert (Hu : SET_USED (R - 16) = R - 16 + 1).
  { unfold SET_USED. rewrite lor_1_even_part.
    replace ((R - 16) mod 2) with 0 by modarith. lia. }
  assert (Hg : GETSIZE (R - 16 + 1) = R - 16).
  { rewrite GETSIZE_even_part by lia.
    replace ((R - 16 + 1) mod 2) with 1 by modarith. lia. }
  assert (Hi : ISUSED (R - 16 + 1) = 1).
  { unfold ISUSED. rewrite land_1_mod. modarith. }
  exists (R - 16 + 1).
  destruct fuel as [|fuel]; [lia|].
  unfold malloc. fold req.
  unfold initial. step. cbn [malloc_find_fit].
  change (NULL =? NULL) with true. cbv iota. step.
  change (NULL =? NULL) with true. cbv iota.
  unfold malloc_expand, sysconf_pagesize.
  do 2 step. change (0 =? 0) with true. cbv iota.
  repeat step. unfold FENCE_OVERHEAD, FENCE_SIZE. change (2 * 8) with 16.
  rewrite (add_small req 16) by lia. fold R.
  unfold get_memory at 1. unfold bind at 1. state_simpl.
  assert (Hgm : (lo + R <=? hi) = true) by (apply Z.leb_le; lia).
  rewrite Hgm. state_simpl.
  wsimpl. wrewrite. branch.
  repeat step.
  unfold malloc_fnode_assign_free. wsimpl.
  repeat step.
  branch.
  unfold malloc_list_addr_insert. wsimpl. repeat step.
  branch. repeat step. branch. repeat step. branch. repeat step.
  unfold malloc_fnode_split. wsimpl. wrewrite. repeat step.
  change (24 + 8) with 32. branch.
  - unfold malloc_fnode_assign_free. wsimpl. wrewrite. repeat step.
    branch. repeat step. branch. repeat step. branch. repeat step.
    unfold malloc_fnode_assign_used. wsimpl. wrewrite. repeat step.
    rewrite Hu.
    eexists. split; [unfold ret; do 2 f_equal; lia|]. state_simpl.
    split; [modarith|]. split; [reflexivity|]. split; [reflexivity|].
    split; [reflexivity|]. split; [reflexivity|].
    split; [apply load_mk_intro; [lookup_tac; reflexivity|lia|lia|modarith]|].
    split; [exact Hi|]. rewrite Hg. lia.
  - unfold malloc_list_remove. wsimpl. wrewrite. repeat step.
    branch. repeat step. branch. repeat step.
    unfold malloc_fnode_assign_used. wsimpl. wrewrite. repeat step.
    rewrite Hu.
    eexists. split; [unfold ret; do 2 f_equal; lia|]. state_simpl.
    split; [modarith|]. split; [reflexivity|]. split; [reflexivity|].
    split; [reflexivity|]. split; [reflexivity|].
    split; [apply load_mk_intro; [lookup_tac; reflexivity|lia|lia|modarith]|].
    split; [exact Hi|]. rewrite Hg. lia.
Qed.

Lemma first_malloc_is_aligned_witness :
  exists h s',
    malloc 1 100 virgin = Some (BRK0 + ALIGN_SIZE, s') /\
    (BRK0 + ALIGN_SIZE) mod ALIGN_SIZE = 0 /\
    brk s' = BRK0 + ROUNDUP_PAGE 4096 (ROUNDUP_CHUNK 100 + FENCE_OVERHEAD) /\
    HEAP_START s' = BRK0 + FENCE_SIZE /\ PAGE_SIZE s' = 4096 /\ errno s' = 0 /\
    load (BRK0 + FENCE_SIZE) s' = Some (h, s') /\
    ISUSED h = 1 /\ 100 + FENCE_OVERHEAD <= GETSIZE h /\
    BRK0 + FENCE_SIZE + GETSIZE h <= brk s'.
Proof.
  apply (first_malloc_is_aligned 4096 BRK0 (BRK0 + 16 * 4096) 1 100);
    [lia|lia|reflexivity|by_compute|reflexivity|by_compute|lia|by_compute
    |by_compute].
Defined.

Lemma ROUNDUP_PAGE_one_page ps x :
  0 < x <= ps -> ps < Word.modulus -> ROUNDUP_PAGE ps x = ps.
Proof.
  intros Hx Hps. unfold ROUNDUP_PAGE. rewrite sub_small by lia.
  rewrite Z.div_small by lia. change (Word.add 0 1) with 1.
  unfold Word.mul. rewrite Z.mul_1_l. apply wrap_small. lia.
Qed.

(** X26 (requests that wrap).  A request within 32 bytes of [SIZE_MAX] is
    not refused.  Adding the fences wraps the size word, so on a process
    that has not allocated yet: for [2^64 - 32 < n <= 2^64 - 16] the
    chunk size comes out as 0, one page is obtained, and malloc returns
    a pointer into it while the chunk stays the head of the free list;
    for larger [n] the chunk size comes out as 16, the free node carved
    out of the rest overlaps the links of the fit, and a size is then
    followed as if it were a link, outside the heap: no result. *)
Theorem huge_request_wraps ps lo hi fuel n :
  (0 < fuel)%nat ->
  64 <= ps -> ps mod 16 = 0 -> ps <= lo -> lo mod 16 = 0 ->
  lo + ps <= hi -> hi < Word.modulus ->
  (Word.modulus - 32 < n <= Word.modulus - 16 ->
   exists h s',
     malloc fuel n (initial ps lo hi) = Some (lo + ALIGN_SIZE, s') /\
     brk s' = lo + ps /\ errno s' = 0 /\
     flist s' = lo + FENCE_SIZE /\
     load (lo + FENCE_SIZE) s' = Some (h, s') /\
     ISUSED h = 1 /\ GETSIZE h = ps - FENCE_OVERHEAD) /\
  (Word.modulus - 16 < n < Word.modulus ->
   malloc fuel n (initial ps lo hi) = None).
Proof.
  intros Hfuel Hps Hpal Hlo Hlal Hhi Hmax.
  pose proof modulus_eq as HM.
  assert (HR : forall x, 0 < x <= 32 -> ROUNDUP_PAGE ps x = ps).
  { intros x Hx. apply ROUNDUP_PAGE_one_page; lia. }
  destruct fuel as [|fuel]; [lia|].
  split; intros Hn.
  - assert (Hu : SET_USED (ps - 16) = ps - 16 + 1).
    { unfold SET_USED. rewrite lor_1_even_part.
      replace ((ps - 16) mod 2) with 0 by modarith. lia. }
    assert (Hg : GETSIZE (ps - 16 + 1) = ps - 16).
    { rewrite GETSIZE_even_part by lia.
      replace ((ps - 16 + 1) mod 2) with 1 by modarith. lia. }
    assert (Hi : ISUSED (ps - 16 + 1) = 1).
    { unfold ISUSED. rewrite land_1_mod. modarith. }
    exists (ps - 16 + 1).
    unfold malloc. rewrite (proj1 (ROUNDUP_CHUNK_wraps n) Hn).
    unfold initial. step. cbn [malloc_find_fit].
    change (NULL =? NULL) with true. cbv iota. step.
    change (NULL =? NULL) with true. cbv iota.
    unfold malloc_expand, sysconf_pagesize.
    do 2 step. change (0 =? 0) with true. cbv iota.
    repeat step. change (Word.add 0 FENCE_OVERHEAD) with 16.
    rewrite (HR 16) by lia.
    unfold get_memory at 1. unfold bind at 1. state_simpl.
    assert (Hgm : (lo + ps <=? hi) = true) by (apply Z.leb_le; lia).
    rewrite Hgm. state_simpl.
    unfold FENCE_OVERHEAD. wsimpl. wrewrite. branch.
    repeat step.
    unfold malloc_fnode_assign_free. wsimpl.
    repeat step.
    branch.
    unfold malloc_list_addr_insert. wsimpl. repeat step.
    branch. repeat step. branch. repeat step. branch. repeat step.
    unfold malloc_fnode_split. wsimpl. wrewrite. repeat step.
    change (24 + 8) with 32. branch.
    unfold malloc_fnode_assign_free. wsimpl. wrewrite. repeat step.
    branch. repeat step. branch. repeat step. branch. repeat step.
    unfold malloc_fnode_assign_used. wsimpl. wrewrite. repeat step.
    replace (ps - 2 * 8 - 0) with (ps - 16) by lia. rewrite Hu.
    unfold ALIGN_SIZE, SIZE_T_SIZE.
    eexists. split; [unfold ret; do 2 f_equal; lia|]. state_simpl.
    split; [reflexivity|]. split; [reflexivity|]. split; [reflexivity|].
    split; [apply load_mk_intro; [lookup_tac; reflexivity|lia|lia|modarith]|].
    split; [exact Hi|]. rewrite Hg. unfold FENCE_OVERHEAD, FENCE_SIZE. lia.
  - unfold malloc. rewrite (proj2 (ROUNDUP_CHUNK_wraps n) Hn).
    unfold initial. step. cbn [malloc_find_fit].
    change (NULL =? NULL) with true. cbv iota. step.
    change (NULL =? NULL) with true. cbv iota.
    unfold malloc_expand, sysconf_pagesize.
    do 2 step. change (0 =? 0) with true. cbv iota.
    repeat step. change (Word.add 16 FENCE_OVERHEAD) with 32.
    rewrite (HR 32) by lia.
    unfold get_memory at 1. unfold bind at 1. state_simpl.
    assert (Hgm : (lo + ps <=? hi) = true) by (apply Z.leb_le; lia).
    rewrite Hgm. state_simpl.
    unfold FENCE_OVERHEAD. wsimpl. wrewrite. branch.
    repeat step.
    unfold malloc_fnode_assign_free. wsimpl.
    repeat step.
    branch.
    unfold malloc_list_addr_insert. wsimpl. repeat step.
    branch. repeat step. branch. repeat step. branch. repeat step.
    unfold malloc_fnode_split. wsimpl. wrewrite. repeat step.
    change (24 + 8) with 32. branch.
    unfold malloc_fnode_assign_free. wsimpl. wrewrite. repeat step.
    branch. repeat step. branch. repeat step.
    unfold bind at 1. unfold store at 1.
    match goal with |- context [mapped ?st ?a] =>
      assert (Hun : mapped st a = false)
    end.
    { unfold mapped. state_simpl.
      assert ((lo <=? ps - 2 * 8 - 16 + 8) = false) as -> by (apply Z.leb_gt; lia).
      reflexivity. }
    rewrite Hun. reflexivity.
Qed.

Lemma huge_request_wraps_witness :
  (exists h s',
     malloc 1 (Word.SIZE_MAX - 20) virgin = Some (BRK0 + ALIGN_SIZE, s') /\
     brk s' = BRK0 + 4096 /\ errno s' = 0 /\
     flist s' = BRK0 + FENCE_SIZE /\
     load (BRK0 + FENCE_SIZE) s' = Some (h, s') /\
     ISUSED h = 1 /\ GETSIZE h = 4096 - FENCE_OVERHEAD) /\
  malloc 1 Word.SIZE_MAX virgin = None.
Proof.
  split.
  - apply (huge_request_wraps 4096 BRK0 (BRK0 + 16 * 4096) 1 (Word.SIZE_MAX - 20));
      [lia|lia|reflexivity|by_compute|reflexivity|by_compute|by_compute|by_compute].
  - apply (huge_request_wraps 4096 BRK0 (BRK0 + 16 * 4096) 1 Word.SIZE_MAX);
      [lia|lia|reflexivity|by_compute|reflexivity|by_compute|by_compute|by_compute].
Defined.
